(** * Carbon Emissions Network Map: aggregation, radial layout, level of
      detail and scene composition

    A shallow embedding of [dataProcessor.js] (record aggregation, radial
    layout, zoom-dependent opacity) and of the layer composition of
    [app.js] / the layer definitions that follow it.

    Numbers.  JavaScript numbers are IEEE doubles.  Quantities that come
    from the table or from the camera (emissions, costs, zoom, opacities)
    are modelled by [jsnum]: exact rationals extended with [NaN] and the
    two infinities, so that truthiness, [Number(..) || 0] and the
    comparisons against [Infinity] read as in the source.  Planar
    coordinates and sizes, which go through [Math.sqrt], [Math.cos],
    [Math.sin] and [Math.PI], are real numbers.  Rounding and the sign of
    zero are not modelled there: the theorems on coordinates state the
    assignments the code makes, and bounds on the radii.  Where rounding
    decides a property, the assignment is evaluated on binary64 numbers
    in the module [Double].

    Objects.  Each object literal of the source is a record with the
    fields of the literal; a field that an object does not have is an
    [option] field holding [None], or is absent from its record type.  An
    object literal used as a table is looked up by name the way [obj[key]]
    does it: its own keys first, then the names every object inherits
    from [Object.prototype].  A [Map] is an association list in
    insertion order.  Strings are byte strings
    (the arrow of a route key is its UTF-8 encoding).

    Effects.  The loops push onto arrays and call [Math.random]; the model
    returns what was pushed, in order, and threads the number of draws
    made from the random source. *)

From Stdlib Require Import List String Ascii Bool Arith ZArith QArith Lia Psatz.
From Stdlib Require Import Reals DecimalString DecimalNat Permutation.
From Stdlib Require Floats.
Import ListNotations.

Set Implicit Arguments.
Close Scope R_scope.
Close Scope Q_scope.
Open Scope string_scope.
Open Scope nat_scope.

(* ================================================================= *)
(** ** JavaScript numbers and cell values *)

Module Js.

Inductive jsnum : Type :=
| NaN
| PosInf
| NegInf
| Fin (q : Q).

Definition Qzero (q : Q) : bool := Qeq_bool q 0.
Definition Qneg (q : Q) : bool := negb (Qle_bool 0 q).

(** [a + b] *)
Definition add (a b : jsnum) : jsnum :=
  match a, b with
  | NaN, _ | _, NaN => NaN
  | PosInf, NegInf | NegInf, PosInf => NaN
  | PosInf, _ | _, PosInf => PosInf
  | NegInf, _ | _, NegInf => NegInf
  | Fin x, Fin y => Fin (x + y)
  end.

(** [a - b] *)
Definition sub (a b : jsnum) : jsnum :=
  match a, b with
  | NaN, _ | _, NaN => NaN
  | PosInf, PosInf | NegInf, NegInf => NaN
  | PosInf, _ | _, NegInf => PosInf
  | NegInf, _ | _, PosInf => NegInf
  | Fin x, Fin y => Fin (x - y)
  end.

Definition signed_inf (negative : bool) : jsnum :=
  if negative then NegInf else PosInf.

(** [a / b] *)
Definition div (a b : jsnum) : jsnum :=
  match a, b with
  | NaN, _ | _, NaN => NaN
  | (PosInf | NegInf), (PosInf | NegInf) => NaN
  | PosInf, Fin y => signed_inf (Qneg y)
  | NegInf, Fin y => signed_inf (negb (Qneg y))
  | Fin x, (PosInf | NegInf) => Fin 0
  | Fin x, Fin y =>
      if Qzero y
      then (if Qzero x then NaN else signed_inf (Qneg x))
      else Fin (x / y)
  end.

(** [a < b]; any comparison with [NaN] is false. *)
Definition lt (a b : jsnum) : bool :=
  match a, b with
  | NaN, _ | _, NaN => false
  | _, NegInf => false
  | NegInf, _ => true
  | PosInf, _ => false
  | _, PosInf => true
  | Fin x, Fin y => negb (Qle_bool y x)
  end.

(** [a <= b] *)
Definition le (a b : jsnum) : bool :=
  match a, b with
  | NaN, _ | _, NaN => false
  | NegInf, _ => true
  | _, PosInf => true
  | _, NegInf => false
  | PosInf, _ => false
  | Fin x, Fin y => Qle_bool x y
  end.

Definition gt (a b : jsnum) : bool := lt b a.
Definition ge (a b : jsnum) : bool := le b a.

(** A cell of a parsed row, or any other primitive value. *)
Inductive jsval : Type :=
| JUndefined
| JNull
| JBool (b : bool)
| JNum (n : jsnum)
| JStr (s : string).

Definition num_truthy (n : jsnum) : bool :=
  match n with
  | NaN => false
  | Fin q => negb (Qzero q)
  | _ => true
  end.

Definition str_truthy (s : string) : bool :=
  match s with EmptyString => false | _ => true end.

(** ToBoolean: what [!v], [v || w] and [if (v)] test. *)
Definition truthy (v : jsval) : bool :=
  match v with
  | JUndefined | JNull => false
  | JBool b => b
  | JNum n => num_truthy n
  | JStr s => str_truthy s
  end.

(** *** [Number(string)] *)

Definition is_white (c : ascii) : bool :=
  let n := nat_of_ascii c in
  ((9 <=? n) && (n <=? 13)) || (n =? 32).

Fixpoint trim_left (l : list ascii) : list ascii :=
  match l with
  | c :: r => if is_white c then trim_left r else l
  | [] => []
  end.

Definition trim (l : list ascii) : list ascii :=
  rev (trim_left (rev (trim_left l))).

Definition digit_of (base : nat) (c : ascii) : option Z :=
  let n := nat_of_ascii c in
  let v := if (48 <=? n) && (n <=? 57) then Some (n - 48)
           else if (97 <=? n) && (n <=? 122) then Some (n - 87)
           else if (65 <=? n) && (n <=? 90) then Some (n - 55)
           else None in
  match v with
  | Some d => if d <? base then Some (Z.of_nat d) else None
  | None => None
  end.

(** Reads the longest prefix of digits in [base]: the value read so far,
    how many digits were read, and the characters left. *)
Fixpoint read_digits (base : nat) (acc : Z) (count : nat) (l : list ascii)
  : Z * nat * list ascii :=
  match l with
  | c :: r =>
      match digit_of base c with
      | Some d => read_digits base (acc * Z.of_nat base + d) (S count) r
      | None => (acc, count, l)
      end
  | [] => (acc, count, [])
  end.

Definition pow10 (e : Z) : Q :=
  if (e <? 0)%Z then (1 # Pos.pow 10 (Z.to_pos (- e)))%Q
  else inject_Z (10 ^ e).

(** The exponent part, if any: [None] when the rest is not well formed. *)
Definition read_exponent (l : list ascii) : option Z :=
  match l with
  | [] => Some 0%Z
  | c :: r =>
      if (nat_of_ascii c =? 101) || (nat_of_ascii c =? 69) then
        let '(negative, r') :=
          match r with
          | s :: r' =>
              if nat_of_ascii s =? 45 then (true, r')
              else if nat_of_ascii s =? 43 then (false, r')
              else (false, r)
          | [] => (false, r)
          end in
        match read_digits 10 0 0 r' with
        | (_, O, _) => None
        | (e, _, []) => Some (if negative then - e else e)%Z
        | _ => None
        end
      else None
  end.

Definition read_unsigned_decimal (l : list ascii) : option Q :=
  let '(ip, ni, r1) := read_digits 10 0 0 l in
  let '(fp, nf, r2) :=
    match r1 with
    | c :: r =>
        if nat_of_ascii c =? 46 then read_digits 10 0 0 r else (0%Z, O, r1)
    | [] => (0%Z, O, r1)
    end in
  if (ni + nf =? 0)%nat then None
  else
    match read_exponent r2 with
    | Some e =>
        Some ((inject_Z ip + inject_Z fp * pow10 (- Z.of_nat nf)) * pow10 e)%Q
    | None => None
    end.

Definition Infinity_chars : list ascii := list_ascii_of_string "Infinity".

Definition list_ascii_eqb (a b : list ascii) : bool :=
  String.eqb (string_of_list_ascii a) (string_of_list_ascii b).

Definition read_signed_decimal (l : list ascii) : jsnum :=
  let '(negative, r) :=
    match l with
    | s :: r' =>
        if nat_of_ascii s =? 45 then (true, r')
        else if nat_of_ascii s =? 43 then (false, r')
        else (false, l)
    | [] => (false, l)
    end in
  if list_ascii_eqb r Infinity_chars then signed_inf negative
  else
    match read_unsigned_decimal r with
    | Some q => Fin (if negative then - q else q)
    | None => NaN
    end.

Definition read_radix (base : nat) (l : list ascii) : jsnum :=
  match read_digits base 0 0 l with
  | (_, O, _) => NaN
  | (v, _, []) => Fin (inject_Z v)
  | _ => NaN
  end.

(** StringToNumber: white space is trimmed, the empty string is 0, then a
    signed decimal literal or an unsigned hexadecimal, octal or binary
    one; everything else is [NaN]. *)
Definition StringToNumber (s : string) : jsnum :=
  match trim (list_ascii_of_string s) with
  | [] => Fin 0
  | z :: p :: r =>
      if nat_of_ascii z =? 48 then
        let n := nat_of_ascii p in
        if (n =? 120) || (n =? 88) then read_radix 16 r
        else if (n =? 111) || (n =? 79) then read_radix 8 r
        else if (n =? 98) || (n =? 66) then read_radix 2 r
        else read_signed_decimal (z :: p :: r)
      else read_signed_decimal (z :: p :: r)
  | l => read_signed_decimal l
  end.

(** [Number(v)] *)
Definition Number (v : jsval) : jsnum :=
  match v with
  | JUndefined => NaN
  | JNull => Fin 0
  | JBool b => if b then Fin 1 else Fin 0
  | JNum n => n
  | JStr s => StringToNumber s
  end.

(** [n || 0] on a number. *)
Definition or_zero (n : jsnum) : jsnum :=
  if num_truthy n then n else Fin 0.

(** *** String methods used by the search *)

(** [c.toLowerCase()] on the letters A to Z; every other byte is left as
    it is, so the embedding follows the source on text whose characters
    outside ASCII have no lower-case form of their own (the arrow of a
    route is one). *)
Definition lower_char (c : ascii) : ascii :=
  let n := nat_of_ascii c in
  if (65 <=? n) && (n <=? 90) then ascii_of_nat (n + 32) else c.

Fixpoint toLowerCase (s : string) : string :=
  match s with
  | EmptyString => EmptyString
  | String c r => String (lower_char c) (toLowerCase r)
  end.

(** [s.includes(sub)] *)
Fixpoint includes (s sub : string) : bool :=
  String.prefix sub s
  || match s with
     | EmptyString => false
     | String _ r => includes r sub
     end.

(** [!s || s.trim() === ''], white space being the ASCII white space. *)
Definition blank (s : string) : bool :=
  match trim (list_ascii_of_string s) with
  | [] => true
  | _ => false
  end.

End Js.

Import Js.

(** Numbers computed from coordinates: a real, [NaN] or an infinity. *)
Module Rx.

Inductive t : Type :=
| NaN
| PosInf
| NegInf
| Fin (r : R).

(** [Math.min(a, b)] *)
Definition min (a b : t) : t :=
  match a, b with
  | NaN, _ | _, NaN => NaN
  | NegInf, _ | _, NegInf => NegInf
  | PosInf, c | c, PosInf => c
  | Fin x, Fin y => Fin (Rmin x y)
  end.

(** [Math.max(a, b)] *)
Definition max (a b : t) : t :=
  match a, b with
  | NaN, _ | _, NaN => NaN
  | PosInf, _ | _, PosInf => PosInf
  | NegInf, c | c, NegInf => c
  | Fin x, Fin y => Fin (Rmax x y)
  end.

(** [a + b] *)
Definition add (a b : t) : t :=
  match a, b with
  | NaN, _ | _, NaN => NaN
  | PosInf, NegInf | NegInf, PosInf => NaN
  | PosInf, _ | _, PosInf => PosInf
  | NegInf, _ | _, NegInf => NegInf
  | Fin x, Fin y => Fin (x + y)
  end.

(** [a / 2] *)
Definition half (a : t) : t :=
  match a with
  | Fin x => Fin (x / 2)
  | other => other
  end.

End Rx.

(* ================================================================= *)
(** ** Insertion-ordered maps

    A JavaScript [Map] with string keys: iteration follows the order in
    which keys were first inserted, and writing an existing key keeps its
    place. *)

Module OMap.
Section Defs.
Variable V : Type.

Definition t := list (string * V).

Fixpoint get (m : t) (k : string) : option V :=
  match m with
  | [] => None
  | (k', v) :: r => if String.eqb k' k then Some v else get r k
  end.

Definition has (m : t) (k : string) : bool :=
  match get m k with Some _ => true | None => false end.

Fixpoint set (m : t) (k : string) (v : V) : t :=
  match m with
  | [] => [(k, v)]
  | (k', v') :: r =>
      if String.eqb k' k then (k', v) :: r else (k', v') :: set r k v
  end.

(** [if (!m.has(k)) m.set(k, init); f(m.get(k))], where [f] stands for
    the in-place change made to the object stored under [k]. *)
Definition alter (m : t) (k : string) (init : V) (f : V -> V) : t :=
  set m k (f (match get m k with Some v => v | None => init end)).

Definition keys (m : t) : list string := map fst m.
Definition values (m : t) : list V := map snd m.
Definition size (m : t) : nat := List.length m.
End Defs.
End OMap.

(* ================================================================= *)
(** ** Object literals used as tables

    [obj[key]] on an object literal finds the object's own keys and,
    failing that, the members of [Object.prototype]: the standard ones
    and those every browser adds.  An inherited member is a function (or,
    for [__proto__], the prototype object): it is truthy and has none of
    the fields the tables of this program hold. *)

Definition Object_prototype_names : list string :=
  [ "constructor"; "hasOwnProperty"; "isPrototypeOf"; "propertyIsEnumerable";
    "toLocaleString"; "toString"; "valueOf"; "__proto__";
    "__defineGetter__"; "__defineSetter__"; "__lookupGetter__";
    "__lookupSetter__" ].

Inductive property (V : Type) : Type :=
| Own (v : V)
| Inherited
| Missing.

Arguments Inherited {V}.
Arguments Missing {V}.

(** [obj[key]] *)
Definition property_of {V : Type} (obj : OMap.t V) (key : string)
  : property V :=
  match OMap.get obj key with
  | Some v => Own v
  | None =>
      if existsb (String.eqb key) Object_prototype_names then Inherited
      else Missing
  end.

(* ================================================================= *)
(** ** Rows, nodes and the runtime

    Text columns of a row hold a string or are absent ([None] stands for a
    missing key, [undefined] or [null]); the two numeric columns hold any
    primitive value.  [Math.random] is an oracle: the sequence of values it
    returns, in call order; [toString36] stands for
    [u.toString(36).substr(2, 9)]. *)

Record row : Type := {
  Business_Dept : option string;
  Carbon_Emission : jsval;
  Trip_ID : option string;
  Purpose : option string;
  Shipping_Type : option string;
  Departure_City : option string;
  Arrival_City : option string;
  Net_Costs : jsval
}.

Record runtime : Type := {
  Math_random : nat -> R;
  toString36 : R -> string
}.

Definition rgb := list nat.

(** What a [color] field holds: an array of three numbers, or, when the
    colour table was asked for a name that [Object.prototype] has, the
    inherited member of that name. *)
Inductive colour : Type :=
| Rgb (c : rgb)
| Member (name : string).

(** A size computed through [Math.sqrt] from an aggregate: [None] when the
    JavaScript value is not a finite number (or the field is not set). *)
Definition size := option R.

Module Dept.
Record t : Type := mk {
  id : string;
  type : string;
  name : string;
  emissions : jsnum;
  tripCount : nat;
  color : colour;
  radius : size;
  x : R;
  y : R;
  textSize : size
}.
End Dept.

Module Trip.
Record t : Type := mk {
  id : string;
  type : string;
  department : string;
  purpose : string;
  transportMode : string;
  route : string;
  emissions : jsnum;
  cost : jsval;
  color : colour;
  x : R;
  y : R;
  textSize : size
}.
End Trip.

(** Purpose, transport and route groups: [purpose] is set on transport and
    route groups, [transport] on route groups only. *)
Module Group.
Record t : Type := mk {
  id : string;
  type : string;
  name : string;
  department : string;
  purpose : option string;
  transport : option string;
  x : R;
  y : R;
  color : colour;
  radius : R
}.
End Group.

Inductive node : Type :=
| DeptNode (d : Dept.t)
| GroupNode (g : Group.t)
| TripNode (t : Trip.t).

Module Node.
Definition id (n : node) : string :=
  match n with
  | DeptNode d => Dept.id d | GroupNode g => Group.id g | TripNode t => Trip.id t
  end.

Definition type (n : node) : string :=
  match n with
  | DeptNode d => Dept.type d | GroupNode g => Group.type g | TripNode t => Trip.type t
  end.

Definition x (n : node) : R :=
  match n with
  | DeptNode d => Dept.x d | GroupNode g => Group.x g | TripNode t => Trip.x t
  end.

Definition y (n : node) : R :=
  match n with
  | DeptNode d => Dept.y d | GroupNode g => Group.y g | TripNode t => Trip.y t
  end.

(** [n.emissions], [undefined] on group nodes. *)
Definition emissions (n : node) : option jsnum :=
  match n with
  | DeptNode d => Some (Dept.emissions d)
  | GroupNode _ => None
  | TripNode t => Some (Trip.emissions t)
  end.

(** [n.tripCount], set on departments only. *)
Definition tripCount (n : node) : option nat :=
  match n with DeptNode d => Some (Dept.tripCount d) | _ => None end.

(** [n.name], which trips do not have. *)
Definition name (n : node) : option string :=
  match n with
  | DeptNode d => Some (Dept.name d)
  | GroupNode g => Some (Group.name g)
  | TripNode _ => None
  end.

(** [n.department], which departments do not have. *)
Definition department (n : node) : option string :=
  match n with
  | DeptNode _ => None
  | GroupNode g => Some (Group.department g)
  | TripNode t => Some (Trip.department t)
  end.

(** [n.route], set on trips only. *)
Definition route (n : node) : option string :=
  match n with TripNode t => Some (Trip.route t) | _ => None end.

(** [n.color] *)
Definition color (n : node) : colour :=
  match n with
  | DeptNode d => Dept.color d
  | GroupNode g => Group.color g
  | TripNode t => Trip.color t
  end.
End Node.

(** Truthiness of a text value: present and not the empty string. *)
Definition text_truthy (s : option string) : bool :=
  match s with Some v => str_truthy v | None => false end.

(** [s || dflt] on a text value. *)
Definition text_or (s : option string) (dflt : string) : string :=
  match s with
  | Some v => if str_truthy v then v else dflt
  | None => dflt
  end.

Definition string_of_nat (k : nat) : string :=
  NilEmpty.string_of_uint (Nat.to_uint k).

(** [arr.forEach((a, i) => body)] for a body that pushes onto an output
    array and calls [Math.random]: the values pushed, in order, and the
    number of draws made so far. *)
Section Loop.
Variables A B : Type.
Variable body : A -> nat -> nat -> list B * nat.

Fixpoint forEach (arr : list A) (i n : nat) : list B * nat :=
  match arr with
  | [] => ([], n)
  | a :: rest =>
      let '(out, n1) := body a i n in
      let '(outs, n2) := forEach rest (S i) n1 in
      ((out ++ outs)%list, n2)
  end.
End Loop.

(* ================================================================= *)
(** ** dataProcessor.js *)

Module DataProcessor.

Definition DEPARTMENT_COLORS : OMap.t rgb :=
  [ ("Sales", [56; 189; 248]);
    ("Marketing", [244; 114; 182]);
    ("Customer Support", [52; 211; 153]);
    ("Executive Management", [167; 139; 250]);
    ("Value Engineering", [251; 191; 36]);
    ("Services", [34; 211; 238]);
    ("Ecosystem", [251; 113; 133]);
    ("Office Management", [74; 222; 128]);
    ("Legal", [251; 146; 60]);
    ("Finance", [192; 132; 252]);
    ("Operations", [14; 165; 233]);
    ("Product Management", [250; 204; 21]);
    ("HR", [129; 140; 248]);
    ("Engineering", [45; 212; 191]) ].

Definition PURPOSE_COLORS : OMap.t rgb :=
  [ ("Conference/Exhibition", [248; 113; 113]);
    ("Customer Visit", [96; 165; 250]);
    ("Internal Meeting", [250; 204; 21]);
    ("Training", [192; 132; 252]);
    ("Project Work", [74; 222; 128]);
    ("Other", [148; 163; 184]) ].

Record threshold : Type := { min : jsnum; max : jsnum }.

Definition Infinity : jsnum := PosInf.

Definition ZOOM_THRESHOLDS : OMap.t threshold :=
  [ ("department", {| min := Fin 0; max := Infinity |});
    ("trip", {| min := Fin 4; max := Infinity |});
    ("purpose", {| min := Fin 4; max := Infinity |});
    ("transport", {| min := Fin 6; max := Infinity |});
    ("route", {| min := Fin 7.5; max := Infinity |}) ].

(** [DEPARTMENT_COLORS[name] || [128, 128, 128]]: an array and an
    inherited member are both truthy. *)
Definition getDepartmentColor (name : string) : colour :=
  match property_of DEPARTMENT_COLORS name with
  | Own c => Rgb c
  | Inherited => Member name
  | Missing => Rgb [128; 128; 128]
  end.

(** [Math.sqrt] of an aggregate, as a real. *)
Definition Math_sqrt (n : jsnum) : size :=
  match n with
  | Fin q => if Qneg q then None else Some (sqrt (Q2R q))
  | _ => None
  end.

(** *** processEmissionsData *)

Record state : Type := {
  st_departments : OMap.t Dept.t;
  st_trips : list Trip.t;
  st_totalEmissions : jsnum;
  st_draws : nat
}.

Definition init_state : state :=
  {| st_departments := []; st_trips := []; st_totalEmissions := Fin 0;
     st_draws := 0 |}.

Definition new_department (deptName : string) : Dept.t :=
  {| Dept.id := "dept_" ++ deptName;
     Dept.type := "department";
     Dept.name := deptName;
     Dept.emissions := Fin 0;
     Dept.tripCount := 0;
     Dept.color := getDepartmentColor deptName;
     Dept.radius := Some 0%R;
     Dept.x := 0%R; Dept.y := 0%R;
     Dept.textSize := None |}.

(** [dept.emissions += emissions; dept.tripCount++] *)
Definition add_trip_to (dept : Dept.t) (emissions : jsnum) : Dept.t :=
  {| Dept.id := Dept.id dept;
     Dept.type := Dept.type dept;
     Dept.name := Dept.name dept;
     Dept.emissions := add (Dept.emissions dept) emissions;
     Dept.tripCount := S (Dept.tripCount dept);
     Dept.color := Dept.color dept;
     Dept.radius := Dept.radius dept;
     Dept.x := Dept.x dept; Dept.y := Dept.y dept;
     Dept.textSize := Dept.textSize dept |}.

(** The test that opens the loop body:
    [!row['Business Dept'] || !row['Carbon Emission']]. *)
Definition skipped (r : row) : bool :=
  negb (text_truthy (Business_Dept r)) || negb (truthy (Carbon_Emission r)).

(** One iteration of [rawData.forEach]. *)
Definition process_row (rt : runtime) (st : state) (r : row) : state :=
  if skipped r then st
  else
    let deptName := text_or (Business_Dept r) EmptyString in
    let emissions := or_zero (Number (Carbon_Emission r)) in
    let departments := OMap.alter (st_departments st) deptName
                         (new_department deptName)
                         (fun dept => add_trip_to dept emissions) in
    let '(tripId, draws) :=
      match Trip_ID r with
      | Some v =>
          if str_truthy v then (v, st_draws st)
          else (toString36 rt (Math_random rt (st_draws st)), S (st_draws st))
      | None => (toString36 rt (Math_random rt (st_draws st)), S (st_draws st))
      end in
    let trip :=
      {| Trip.id := "trip_" ++ tripId;
         Trip.type := "trip";
         Trip.department := deptName;
         Trip.purpose := text_or (Purpose r) "Other";
         Trip.transportMode := text_or (Shipping_Type r) "Other";
         Trip.route := text_or (Departure_City r) "Unknown" ++ " → "
                       ++ text_or (Arrival_City r) "Unknown";
         Trip.emissions := emissions;
         Trip.cost := if truthy (Net_Costs r) then Net_Costs r
                      else JNum (Fin 0);
         Trip.color := getDepartmentColor deptName;
         Trip.x := 0%R; Trip.y := 0%R;
         Trip.textSize := None |} in
    {| st_departments := departments;
       st_trips := (st_trips st ++ [trip])%list;
       st_totalEmissions := add (st_totalEmissions st) emissions;
       st_draws := draws |}.

(** [dept.radius = 100 + Math.sqrt(dept.emissions) * 0.5] *)
Definition with_radius (dept : Dept.t) : Dept.t :=
  {| Dept.id := Dept.id dept;
     Dept.type := Dept.type dept;
     Dept.name := Dept.name dept;
     Dept.emissions := Dept.emissions dept;
     Dept.tripCount := Dept.tripCount dept;
     Dept.color := Dept.color dept;
     Dept.radius := option_map (fun s => 100 + s * 0.5)%R
                      (Math_sqrt (Dept.emissions dept));
     Dept.x := Dept.x dept; Dept.y := Dept.y dept;
     Dept.textSize := Dept.textSize dept |}.

(** *** positionNodes *)

Definition spacing : R := 700%R.
Definition angleIncrement : R := (137.508 * (PI / 180))%R.
Definition PURPOSE_GROUP_RADIUS : R := 75%R.
Definition TRANSPORT_GROUP_RADIUS : R := 22%R.
Definition ROUTE_GROUP_RADIUS : R := 6%R.
Definition DEPT_CLUSTER_RADIUS : R := 180%R.

(** Body of [deptArray.forEach((dept, i) => ...)]. *)
Definition place_department (dept : Dept.t) (i : nat) : Dept.t :=
  let r := (spacing * sqrt (INR i))%R in
  let theta := (INR i * angleIncrement)%R in
  {| Dept.id := Dept.id dept;
     Dept.type := Dept.type dept;
     Dept.name := Dept.name dept;
     Dept.emissions := Dept.emissions dept;
     Dept.tripCount := Dept.tripCount dept;
     Dept.color := Dept.color dept;
     Dept.radius := Dept.radius dept;
     Dept.x := (r * cos theta)%R;
     Dept.y := (r * sin theta)%R;
     Dept.textSize :=
       option_map (fun s => 32 + s * 12)%R
         (Math_sqrt (div (Dept.emissions dept) (Fin 2000))) |}.

Fixpoint place_departments (deptArray : list Dept.t) (i : nat) : list Dept.t :=
  match deptArray with
  | [] => []
  | dept :: rest => place_department dept i :: place_departments rest (S i)
  end.

Definition routeMap := OMap.t (list Trip.t).
Definition transportMap := OMap.t routeMap.
Definition purposeMap := OMap.t transportMap.
Definition deptGroups := OMap.t purposeMap.

(** Body of [trips.forEach(trip => ...)]: files the trip under
    department, purpose, transport and route. *)
Definition group_trip (groups : deptGroups) (trip : Trip.t) : deptGroups :=
  OMap.alter groups (Trip.department trip) []
    (fun pm : purposeMap =>
       OMap.alter pm (Trip.purpose trip) []
         (fun tm : transportMap =>
            let transport := text_or (Some (Trip.transportMode trip)) "Other" in
            OMap.alter tm transport []
              (fun rm : routeMap =>
                 let routeKey :=
                   text_or (Some (Trip.route trip)) "Unknown Route" in
                 OMap.alter rm routeKey []
                   (fun tripList => (tripList ++ [trip])%list)))).

Definition or_one (n : nat) : nat := if n =? 0 then 1 else n.

(** Body of [tripList.forEach(trip => ...)]. *)
Definition place_trip (rt : runtime) (routeX routeY : R)
    (trip : Trip.t) (n : nat) : Trip.t :=
  let r := (ROUTE_GROUP_RADIUS * sqrt (Math_random rt n) * 0.8)%R in
  let angle := (Math_random rt (S n) * 2 * PI)%R in
  {| Trip.id := Trip.id trip;
     Trip.type := Trip.type trip;
     Trip.department := Trip.department trip;
     Trip.purpose := Trip.purpose trip;
     Trip.transportMode := Trip.transportMode trip;
     Trip.route := Trip.route trip;
     Trip.emissions := Trip.emissions trip;
     Trip.cost := Trip.cost trip;
     Trip.color := Trip.color trip;
     Trip.x := (routeX + r * cos angle)%R;
     Trip.y := (routeY + r * sin angle)%R;
     Trip.textSize := Some 8%R |}.

Section Position.
Variable rt : runtime.

Definition position_trips (routeX routeY : R) (tripList : list Trip.t)
    (n : nat) : list node * nat :=
  forEach (fun trip _ n =>
             ([TripNode (place_trip rt routeX routeY trip n)], S (S n)))
          tripList 0 n.

(** Body of [routes.forEach((route, k) => ...)].  Here and in the loops
    above it the keys iterated are the keys of the map that is read, so
    the [None] branch of the lookup is never taken. *)
Definition position_route (deptName purpose transport : string)
    (transportX transportY : R) (rm : routeMap) (routes : list string)
    (route : string) (k n : nat) : list node * nat :=
  let routeLayoutRadius :=
    if 1 <? List.length routes then (TRANSPORT_GROUP_RADIUS * 0.6)%R
    else 0%R in
  let routeAngleStep := (2 * PI / INR (or_one (List.length routes)))%R in
  let routeAngle := (INR k * routeAngleStep)%R in
  let routeX := (transportX + routeLayoutRadius * cos routeAngle)%R in
  let routeY := (transportY + routeLayoutRadius * sin routeAngle)%R in
  let group :=
    {| Group.id := "route_" ++ deptName ++ "_" ++ purpose ++ "_"
                   ++ transport ++ "_" ++ string_of_nat k;
       Group.type := "route-group";
       Group.name := route;
       Group.department := deptName;
       Group.purpose := Some purpose;
       Group.transport := Some transport;
       Group.x := routeX;
       Group.y := routeY;
       Group.color := getDepartmentColor deptName;
       Group.radius := (ROUTE_GROUP_RADIUS + 2)%R |} in
  match OMap.get rm route with
  | Some tripList =>
      let '(placed, n') := position_trips routeX routeY tripList n in
      (GroupNode group :: placed, n')
  | None => ([GroupNode group], n)
  end.

(** Body of [transports.forEach((transport, j) => ...)]. *)
Definition position_transport (deptName purpose : string)
    (purposeX purposeY : R) (tm : transportMap) (transports : list string)
    (transport : string) (j n : nat) : list node * nat :=
  let transportLayoutRadius :=
    if 1 <? List.length transports then (PURPOSE_GROUP_RADIUS * 0.65)%R
    else 0%R in
  let transportAngleStep :=
    (2 * PI / INR (or_one (List.length transports)))%R in
  let transportAngle := (INR j * transportAngleStep)%R in
  let transportX :=
    (purposeX + transportLayoutRadius * cos transportAngle)%R in
  let transportY :=
    (purposeY + transportLayoutRadius * sin transportAngle)%R in
  let group :=
    {| Group.id := "trans_" ++ deptName ++ "_" ++ purpose ++ "_"
                   ++ transport;
       Group.type := "transport-group";
       Group.name := transport;
       Group.department := deptName;
       Group.purpose := Some purpose;
       Group.transport := None;
       Group.x := transportX;
       Group.y := transportY;
       Group.color := getDepartmentColor deptName;
       Group.radius := (TRANSPORT_GROUP_RADIUS + 10)%R |} in
  match OMap.get tm transport with
  | Some rm =>
      let routes := OMap.keys rm in
      let '(below, n') :=
        forEach (position_route deptName purpose transport
                   transportX transportY rm routes) routes 0 n in
      (GroupNode group :: below, n')
  | None => ([GroupNode group], n)
  end.

(** Body of [purposes.forEach((purpose, i) => ...)]. *)
Definition position_purpose (deptName : string) (deptPos : R * R)
    (pm : purposeMap) (purposes : list string)
    (purpose : string) (i n : nat) : list node * nat :=
  let purposeAngleStep := (2 * PI / INR (or_one (List.length purposes)))%R in
  let purposeAngle := (INR i * purposeAngleStep)%R in
  let purposeX := (fst deptPos + DEPT_CLUSTER_RADIUS * cos purposeAngle)%R in
  let purposeY := (snd deptPos + DEPT_CLUSTER_RADIUS * sin purposeAngle)%R in
  let group :=
    {| Group.id := "group_" ++ deptName ++ "_" ++ purpose;
       Group.type := "purpose-group";
       Group.name := purpose;
       Group.department := deptName;
       Group.purpose := None;
       Group.transport := None;
       Group.x := purposeX;
       Group.y := purposeY;
       Group.color := getDepartmentColor deptName;
       Group.radius := (PURPOSE_GROUP_RADIUS + 20)%R |} in
  match OMap.get pm purpose with
  | Some tm =>
      let transports := OMap.keys tm in
      let '(below, n') :=
        forEach (position_transport deptName purpose purposeX purposeY
                   tm transports) transports 0 n in
      (GroupNode group :: below, n')
  | None => ([GroupNode group], n)
  end.

(** Body of [deptGroups.forEach((purposeMap, deptName) => ...)]. *)
Definition position_dept_group (deptPositions : OMap.t (R * R))
    (entry : string * purposeMap) (_ n : nat) : list node * nat :=
  let '(deptName, pm) := entry in
  match OMap.get deptPositions deptName with
  | None => ([], n)
  | Some deptPos =>
      let purposes := OMap.keys pm in
      forEach (position_purpose deptName deptPos pm purposes) purposes 0 n
  end.

Definition positionNodes (departments : OMap.t Dept.t)
    (trips : list Trip.t) (n : nat) : list node * nat :=
  let deptArray := OMap.values departments in
  let placed := place_departments deptArray 0 in
  let deptPositions :=
    fold_left (fun m dept => OMap.set m (Dept.name dept)
                               (Dept.x dept, Dept.y dept))
              placed [] in
  let groups := fold_left group_trip trips [] in
  let '(below, n') :=
    forEach (position_dept_group deptPositions) groups 0 n in
  ((map DeptNode placed ++ below)%list, n').
End Position.

Record counts_t : Type := { c_departments : nat; c_trips : nat }.

Record result : Type := {
  nodes : list node;
  departments : list Dept.t;
  totalEmissions : jsnum;
  counts : counts_t
}.

Definition processEmissionsData (rt : runtime) (rawData : list row) : result :=
  let st := fold_left (process_row rt) rawData init_state in
  let departments :=
    map (fun kv => (fst kv, with_radius (snd kv))) (st_departments st) in
  let '(nodes, _) := positionNodes rt departments (st_trips st) (st_draws st) in
  {| nodes := nodes;
     departments := place_departments (OMap.values departments) 0;
     totalEmissions := st_totalEmissions st;
     counts := {| c_departments := OMap.size departments;
                  c_trips := List.length (st_trips st) |} |}.

(** *** getLayerOpacity *)

(** The body of [getLayerOpacity] once the threshold has been found. *)
Definition opacity_in (t : threshold) (currentZoom : jsnum) : jsnum :=
  if lt currentZoom (min t) then Fin 0
  else if ge currentZoom (max t) then Fin 0
  else
    let fadeRange := Fin 0.5 in
    if gt currentZoom (sub (max t) fadeRange)
    then div (sub (max t) currentZoom) fadeRange
    else Fin 1.

(** [getLayerOpacity] over a table of thresholds.  An inherited member is
    truthy and has no [min] and no [max]: every comparison with
    [undefined] is false, and 1 is returned. *)
Definition layerOpacity (table : OMap.t threshold) (nodeType : string)
    (currentZoom : jsnum) : jsnum :=
  match property_of table nodeType with
  | Missing => Fin 0
  | Inherited => Fin 1
  | Own t => opacity_in t currentZoom
  end.

Definition getLayerOpacity : string -> jsnum -> jsnum :=
  layerOpacity ZOOM_THRESHOLDS.

(** *** nodesToDeckData *)

Record deckData : Type := {
  nodeData : list node;
  bounds : Rx.t * Rx.t * Rx.t * Rx.t;
  scale : R
}.

(** Body of [nodes.forEach(node => ...)]: the running
    [minX, maxX, minY, maxY]. *)
Definition widen (scale : R) (b : Rx.t * Rx.t * Rx.t * Rx.t) (n : node)
  : Rx.t * Rx.t * Rx.t * Rx.t :=
  let '(minX, maxX, minY, maxY) := b in
  let x := Rx.Fin (Node.x n * scale) in
  let y := Rx.Fin (Node.y n * scale) in
  (Rx.min minX x, Rx.max maxX x, Rx.min minY y, Rx.max maxY y).

Definition nodesToDeckData (nodes : list node) : deckData :=
  let scale := 0.005%R in
  {| nodeData := nodes;
     bounds := fold_left (widen scale) nodes
                 (Rx.PosInf, Rx.NegInf, Rx.PosInf, Rx.NegInf);
     scale := scale |}.

End DataProcessor.

(* ================================================================= *)
(** ** The trip placement in double precision

    The body of [tripList.forEach] once more, in the numbers the program
    runs on: IEEE binary64, every operation rounded to nearest.
    [Math.cos] and [Math.sin] are the engine's; the language fixes their
    values at 0 only (1 and 0). *)

Module Double.
Import Floats.
Local Open Scope float_scope.

Record runtime : Type := {
  Math_random : nat -> float;
  Math_cos : float -> float;
  Math_sin : float -> float
}.

Definition ROUTE_GROUP_RADIUS : float := 6.

(** [Math.PI] *)
Definition Math_PI : float := 0x1.921fb54442d18p+1.

#[warnings="-inexact-float"]
Definition place_trip (rt : runtime) (routeX routeY : float) (n : nat)
  : float * float :=
  let r := ROUTE_GROUP_RADIUS * sqrt (Math_random rt n) * 0.8 in
  let angle := Math_random rt (S n) * 2 * Math_PI in
  (routeX + r * Math_cos rt angle, routeY + r * Math_sin rt angle).

(** The rational number a finite double stands for. *)
Definition exact (f : float) : option Q :=
  match Prim2SF f with
  | S754_zero _ => Some 0%Q
  | S754_finite s m e =>
      let v := if s then Z.neg m else Z.pos m in
      Some (if (0 <=? e)%Z then inject_Z (v * 2 ^ e)
            else Qmake v (Pos.pow 2 (Z.to_pos (- e))))
  | _ => None
  end.

(** [(x, y)] lies strictly outside the disk of radius [radius] around
    [(cx, cy)], the distance being taken exactly. *)
Definition outside (x y cx cy : float) (radius : Q) : Prop :=
  match exact x, exact y, exact cx, exact cy with
  | Some a, Some b, Some c, Some d =>
      (radius * radius < (a - c) * (a - c) + (b - d) * (b - d))%Q
  | _, _, _, _ => False
  end.

End Double.

(* ================================================================= *)
(** ** Layer definitions and scene composition

    A layer descriptor keeps the properties that are plain data: the layer
    class, its identifier, the nodes it draws, whether it can be picked and
    the [opacity] property when one is passed ([None]: the renderer's
    default, fully opaque).  Accessor callbacks and fixed styling are not
    part of the model. *)

Module Layers.

Import DataProcessor.

Inductive layerClass : Type := ScatterplotLayer | TextLayer.

Record layer : Type := {
  class : layerClass;
  id : string;
  data : list node;
  pickable : bool;
  opacity : option jsnum
}.

Definition SCALE : R := 0.005%R.

(** [getPosition: d => [d.x * SCALE, d.y * SCALE]], the position accessor
    that every layer is built with. *)
Definition getPosition (d : node) : R * R :=
  (Node.x d * SCALE, Node.y d * SCALE)%R.

(** [nodes.filter(n => n.type === nodeType)] *)
Definition of_type (nodeType : string) (nodes : list node) : list node :=
  filter (fun n => String.eqb (Node.type n) nodeType) nodes.

(** The [config] table of [createTextLayer]: the font weight of each
    node type that has a text layer. *)
Definition text_config : OMap.t nat := [ ("department", 900) ].

Definition createTextLayer (nodes : list node) (nodeType : string)
    (currentZoom opacity : jsnum) : option layer :=
  let filteredNodes := of_type nodeType nodes in
  if (List.length filteredNodes =? 0) || le opacity (Fin 0) then None
  else
    match property_of text_config nodeType with
    | Missing => None
    | _ => Some {| class := TextLayer;
                   id := nodeType ++ "-text-layer";
                   data := filteredNodes;
                   pickable := true;
                   opacity := None |}
    end.

Definition createDepartmentNodeLayer (nodes : list node)
    (currentZoom opacity : jsnum) : option layer :=
  let filteredNodes := of_type "department" nodes in
  if (List.length filteredNodes =? 0) || le opacity (Fin 0) then None
  else Some {| class := ScatterplotLayer;
               id := "department-circle-layer";
               data := filteredNodes;
               pickable := true;
               opacity := Some opacity |}.

Definition createPurposeHighlightLayer (nodes : list node)
    (currentZoom : jsnum) : option layer :=
  if lt currentZoom (Fin 4) then None
  else
    let filteredNodes := of_type "purpose-group" nodes in
    Some {| class := ScatterplotLayer;
            id := "purpose-highlight-layer";
            data := filteredNodes;
            pickable := false;
            opacity := Some (Fin 0.2) |}.

Definition createPurposeLabelLayer (nodes : list node)
    (currentZoom : jsnum) : option layer :=
  if lt currentZoom (Fin 4) then None
  else
    let filteredNodes := of_type "purpose-group" nodes in
    Some {| class := TextLayer;
            id := "purpose-label-layer";
            data := filteredNodes;
            pickable := false;
            opacity := None |}.

Definition createTripLayer (nodes : list node)
    (currentZoom opacity : jsnum) : option layer :=
  let filteredNodes := of_type "trip" nodes in
  if (List.length filteredNodes =? 0) || le opacity (Fin 0) then None
  else Some {| class := ScatterplotLayer;
               id := "trip-layer";
               data := filteredNodes;
               pickable := true;
               opacity := Some opacity |}.

Definition createTransportHighlightLayer (nodes : list node)
    (currentZoom : jsnum) : option layer :=
  if lt currentZoom (Fin 6) then None
  else
    let filteredNodes := of_type "transport-group" nodes in
    Some {| class := ScatterplotLayer;
            id := "transport-highlight-layer";
            data := filteredNodes;
            pickable := false;
            opacity := Some (Fin 0.3) |}.

Definition createTransportLabelLayer (nodes : list node)
    (currentZoom : jsnum) : option layer :=
  if lt currentZoom (Fin 6) then None
  else
    let filteredNodes := of_type "transport-group" nodes in
    Some {| class := TextLayer;
            id := "transport-label-layer";
            data := filteredNodes;
            pickable := false;
            opacity := None |}.

Definition createRouteHighlightLayer (nodes : list node)
    (currentZoom : jsnum) : option layer :=
  if lt currentZoom (Fin 7.5) then None
  else
    let filteredNodes := of_type "route-group" nodes in
    Some {| class := ScatterplotLayer;
            id := "route-highlight-layer";
            data := filteredNodes;
            pickable := false;
            opacity := Some (Fin 0.4) |}.

Definition createRouteLabelLayer (nodes : list node)
    (currentZoom : jsnum) : option layer :=
  if lt currentZoom (Fin 7.5) then None
  else
    let filteredNodes := of_type "route-group" nodes in
    Some {| class := TextLayer;
            id := "route-label-layer";
            data := filteredNodes;
            pickable := false;
            opacity := None |}.

(** [if (l) layers.push(l)] *)
Definition push (layers : list layer) (l : option layer) : list layer :=
  match l with
  | Some v => (layers ++ [v])%list
  | None => layers
  end.

Definition createAllTextLayers (nodes : list node) (currentZoom : jsnum)
  : list layer :=
  let layers := [] in
  let deptOpacity := getLayerOpacity "department" currentZoom in
  let tripOpacity := getLayerOpacity "trip" currentZoom in
  (* 1. Purpose highlights (bottom) *)
  let layers :=
    if ge currentZoom (Fin 4)
    then push layers (createPurposeHighlightLayer nodes currentZoom)
    else layers in
  (* 2. Transport highlights *)
  let layers :=
    if ge currentZoom (Fin 6)
    then push layers (createTransportHighlightLayer nodes currentZoom)
    else layers in
  (* 2b. Route highlights *)
  let layers :=
    if ge currentZoom (Fin 7.5)
    then push layers (createRouteHighlightLayer nodes currentZoom)
    else layers in
  (* 3. Trips *)
  let layers :=
    if gt tripOpacity (Fin 0)
    then push layers (createTripLayer nodes currentZoom tripOpacity)
    else layers in
  (* 4. Transport labels *)
  let layers :=
    if ge currentZoom (Fin 6) && lt currentZoom (Fin 12)
    then push layers (createTransportLabelLayer nodes currentZoom)
    else layers in
  (* 4b. Route labels *)
  let layers :=
    if ge currentZoom (Fin 7.5)
    then push layers (createRouteLabelLayer nodes currentZoom)
    else layers in
  (* 5. Purpose labels *)
  let layers :=
    if ge currentZoom (Fin 4) && lt currentZoom (Fin 12)
    then push layers (createPurposeLabelLayer nodes currentZoom)
    else layers in
  (* 6. Department circles, then department labels *)
  let layers :=
    if gt deptOpacity (Fin 0)
    then
      let layers :=
        push layers (createDepartmentNodeLayer nodes currentZoom deptOpacity) in
      push layers (createTextLayer nodes "department" currentZoom deptOpacity)
    else layers in
  layers.

Definition createSearchHighlightLayer (matchingNodes : option (list node))
    (currentZoom : jsnum) : option layer :=
  match matchingNodes with
  | None => None
  | Some ms =>
      if List.length ms =? 0 then None
      else Some {| class := ScatterplotLayer;
                   id := "search-highlight";
                   data := ms;
                   pickable := false;
                   opacity := None |}
  end.

(** [v?.toLowerCase().includes(term)] on an optional field. *)
Definition field_includes (v : option string) (term : string) : bool :=
  match v with
  | Some s => includes (toLowerCase s) term
  | None => false
  end.

Definition searchNodes (nodeData : list node) (searchTerm : string)
  : option (list node) :=
  if blank searchTerm then None
  else
    let term := toLowerCase searchTerm in
    Some (filter (fun node =>
                    field_includes (Node.name node) term
                    || field_includes (Node.department node) term
                    || field_includes (Node.route node) term)
                 nodeData).

Record layerInfo : Type := { info_name : string; info_hint : string }.

Definition getCurrentLayerInfo (currentZoom : jsnum) : layerInfo :=
  if lt currentZoom (Fin 3)
  then {| info_name := "Departments";
          info_hint := "Zoom in to see individual trips" |}
  else {| info_name := "Individual Trips";
          info_hint := "Exploring trip details" |}.

End Layers.

(** ** app.js: the layer list handed to the renderer

    The globals [searchMatches], [currentZoom] and [graphData.nodes] are
    arguments. *)

Module App.

Import Layers.

Definition getLayers (searchMatches : option (list node))
    (currentZoom : jsnum) (nodes : list node) : list layer :=
  let layers := [] in
  let layers :=
    match searchMatches with
    | Some ms =>
        if 0 <? List.length ms
        then push layers (createSearchHighlightLayer searchMatches currentZoom)
        else layers
    | None => layers
    end in
  let textLayers := createAllTextLayers nodes currentZoom in
  (layers ++ textLayers)%list.

(** The view state [initDeckGL] hands to the renderer: the centre of the
    bounds, and the zoom settings. *)
Record viewState : Type := {
  longitude : Rx.t;
  latitude : Rx.t;
  zoom : jsnum;
  minZoom : jsnum;
  maxZoom : jsnum
}.

Definition initialViewState (deck : DataProcessor.deckData) : viewState :=
  let '(b0, b1, b2, b3) := DataProcessor.bounds deck in
  let centerX := Rx.half (Rx.add b0 b1) in
  let centerY := Rx.half (Rx.add b2 b3) in
  {| longitude := centerX;
     latitude := centerY;
     zoom := Fin 3.5;
     minZoom := Fin (-2);
     maxZoom := Fin 20 |}.

(** What [updateLayerIndicator] writes: the title of the hint, the title
    of the legend, and the names listed in the legend (the markup around
    them is left out). *)
Record indicator : Type := {
  hintTitle : string;
  legendTitle : string;
  legendItems : list string
}.

Definition updateLayerIndicator (currentZoom : jsnum) : indicator :=
  if ge currentZoom (Fin 7.5) then
    {| hintTitle := "Route Clusters";
       legendTitle := "Route Clusters";
       legendItems := OMap.keys DataProcessor.PURPOSE_COLORS |}
  else if ge currentZoom (Fin 4) then
    if ge currentZoom (Fin 6) then
      {| hintTitle := "Transport Modes";
         legendTitle := "Transport Modes";
         legendItems := OMap.keys DataProcessor.PURPOSE_COLORS |}
    else
      {| hintTitle := "Trip Purposes";
         legendTitle := "Trip Purposes";
         legendItems := OMap.keys DataProcessor.PURPOSE_COLORS |}
  else
    {| hintTitle := "Departments";
       legendTitle := "Department Clusters";
       legendItems := firstn 5 (OMap.keys DataProcessor.DEPARTMENT_COLORS) |}.

End App.

(* ================================================================= *)
(** * Notions used to state the properties *)

Import DataProcessor.
Import Layers.

(** ** First-seen order and grouping by key

    [first_seen l] lists the distinct elements of [l] in the order of
    their first occurrence; [bucket key l] files the elements of [l] under
    their keys, keys in first-seen order and each bucket in the order of
    [l]. *)

Fixpoint first_seen (l : list string) : list string :=
  match l with
  | [] => []
  | k :: r => k :: filter (fun k' => negb (String.eqb k' k)) (first_seen r)
  end.

Section Bucket.
Variable A : Type.
Variable key : A -> string.

Definition under (k : string) (l : list A) : list A :=
  filter (fun a => String.eqb (key a) k) l.

Definition bucket (l : list A) : OMap.t (list A) :=
  map (fun k => (k, under k l)) (first_seen (map key l)).
End Bucket.

(** [map_values G m]: the map with the same keys, in the same order, and
    [G k v] stored where [m] has [v]. *)
Definition map_values {V W : Type} (G : string -> V -> W) (m : OMap.t V)
  : OMap.t W :=
  map (fun kv => (fst kv, G (fst kv) (snd kv))) m.

(** What a key holds once the elements filed under it have been folded
    in, one [step] each, from [init k]. *)
Definition folded {A W : Type} (init : string -> W) (step : W -> A -> W)
    (k : string) (v : list A) : W :=
  fold_left step v (init k).

(** ** Rows that are processed, and what they add up to *)

Definition processed (rawData : list row) : list row :=
  filter (fun r => negb (skipped r)) rawData.

Definition row_department (r : row) : string :=
  text_or (Business_Dept r) EmptyString.

Definition row_emission (r : row) : jsnum :=
  or_zero (Number (Carbon_Emission r)).

(** The rows assigned to a department, in input order. *)
Definition rows_of (deptName : string) (rawData : list row) : list row :=
  under row_department deptName (processed rawData).

(** Sum of a list of numbers, added from left to right starting at 0, as
    [+=] does. *)
Definition sum (l : list jsnum) : jsnum := fold_left add l (Fin 0).

(** One more row for a department record, and for the map of departments. *)
Definition dept_step (w : Dept.t) (r : row) : Dept.t :=
  add_trip_to w (row_emission r).

Definition dept_alter (m : OMap.t Dept.t) (r : row) : OMap.t Dept.t :=
  OMap.alter m (row_department r) (new_department (row_department r))
    (fun w => dept_step w r).

(** The names of the departments, in the order in which the processed rows
    first mention them. *)
Definition dept_names (rawData : list row) : list string :=
  first_seen (map row_department (processed rawData)).

(** The record of a department before it is placed. *)
Definition dept_record (rawData : list row) (deptName : string) : Dept.t :=
  with_radius (folded new_department dept_step deptName
                 (rows_of deptName rawData)).

(** ** Trips filed by department, purpose, transport mode and route *)

Definition transport_key (trip : Trip.t) : string :=
  text_or (Some (Trip.transportMode trip)) "Other".

Definition route_key (trip : Trip.t) : string :=
  text_or (Some (Trip.route trip)) "Unknown Route".

Definition group_routes (v : list Trip.t) : routeMap :=
  bucket route_key v.

Definition group_transports (v : list Trip.t) : transportMap :=
  map_values (fun _ => group_routes) (bucket transport_key v).

Definition group_purposes (v : list Trip.t) : purposeMap :=
  map_values (fun _ => group_transports) (bucket Trip.purpose v).

Definition group_departments (v : list Trip.t) : deptGroups :=
  map_values (fun _ => group_purposes) (bucket Trip.department v).

Definition route_step (rm : routeMap) (trip : Trip.t) : routeMap :=
  OMap.alter rm (route_key trip) [] (fun l => (l ++ [trip])%list).

Definition transport_step (tm : transportMap) (trip : Trip.t) : transportMap :=
  OMap.alter tm (transport_key trip) [] (fun rm => route_step rm trip).

Definition purpose_step (pm : purposeMap) (trip : Trip.t) : purposeMap :=
  OMap.alter pm (Trip.purpose trip) [] (fun tm => transport_step tm trip).

(** ** What the layout pushes below the departments *)

(** The three kinds of group node, each with its fixed radius. *)
Definition group_shape (g : Group.t) : Prop :=
  (Group.type g = "purpose-group"
   /\ Group.radius g = (PURPOSE_GROUP_RADIUS + 20)%R)
  \/ (Group.type g = "transport-group"
      /\ Group.radius g = (TRANSPORT_GROUP_RADIUS + 10)%R)
  \/ (Group.type g = "route-group"
      /\ Group.radius g = (ROUTE_GROUP_RADIUS + 2)%R).

(** [g] is the route group of trip [t]: same department, purpose,
    transport mode and route. *)
Definition route_group_of (g : Group.t) (t : Trip.t) : Prop :=
  Group.type g = "route-group"
  /\ Group.department g = Trip.department t
  /\ Group.purpose g = Some (Trip.purpose t)
  /\ Group.transport g = Some (transport_key t)
  /\ Group.name g = route_key t.

(** Every node of [out] is a group node of one of the three kinds, or a
    trip of [v] placed around a route group of [out] that is its own,
    with two consecutive draws of the random source. *)
Definition laid_out (rt : runtime) (v : list Trip.t) (out : list node) : Prop :=
  forall n, In n out ->
    match n with
    | DeptNode _ => False
    | GroupNode g => group_shape g
    | TripNode t' =>
        exists t k g,
          In t v /\ In (GroupNode g) out /\ route_group_of g t
          /\ t' = place_trip rt (Group.x g) (Group.y g) t k
    end.

(** ** Identifiers *)

Definition underscore : ascii := "_"%char.

(** The string has no underscore in it. *)
Fixpoint no_underscore (s : string) : Prop :=
  match s with
  | EmptyString => True
  | String c r => c <> underscore /\ no_underscore r
  end.

Definition group_id (deptName purpose : string) : string :=
  "group_" ++ deptName ++ "_" ++ purpose.

Definition trans_id (deptName purpose transport : string) : string :=
  "trans_" ++ deptName ++ "_" ++ purpose ++ "_" ++ transport.

Definition route_id (deptName purpose transport : string) (k : nat) : string :=
  "route_" ++ deptName ++ "_" ++ purpose ++ "_" ++ transport ++ "_"
  ++ string_of_nat k.

(** The identifier of the trip of a row that carries a trip identifier. *)
Definition trip_id_of (r : row) : string :=
  "trip_" ++ text_or (Trip_ID r) EmptyString.

(** The trips have pairwise distinct identifiers, all of the form
    [trip_...]. *)
Definition trips_ok (v : list Trip.t) : Prop :=
  NoDup (map Trip.id v)
  /\ forall t, In t v -> exists s, Trip.id t = "trip_" ++ s.

(** The identifier [c] belongs to a trip of [v] filed under [k] by [key]. *)
Definition trip_id_under (key : Trip.t -> string) (k : string)
    (v : list Trip.t) (c : string) : Prop :=
  exists t, In t v /\ key t = k /\ c = Trip.id t.

(** ** Sample data *)

Definition example_table : OMap.t threshold :=
  [ ("label", {| min := Fin 6; max := Fin 12 |}) ].

(** The node kinds that are drawn at a zoom level: the keys of the
    threshold table whose opacity is positive there. *)
Definition activeKinds (zoom : jsnum) : list string :=
  filter (fun kind => gt (getLayerOpacity kind zoom) (Fin 0))
         (OMap.keys ZOOM_THRESHOLDS).

(** A runtime whose random source always returns 0 (the base-36 rendering
    of 0 is "0", of which nothing is left from position 2 on). *)
Definition rt0 : runtime :=
  {| Math_random := fun _ => 0%R; toString36 := fun _ => EmptyString |}.

Definition row_engineering : row :=
  {| Business_Dept := Some "Engineering";
     Carbon_Emission := JNum (Fin 500);
     Trip_ID := Some "T1";
     Purpose := Some "Training";
     Shipping_Type := Some "Air";
     Departure_City := Some "NYC";
     Arrival_City := Some "SF";
     Net_Costs := JNum (Fin 120) |}.

Definition search_highlight (ms : list node) : layer :=
  {| class := ScatterplotLayer;
     id := "search-highlight";
     data := ms;
     pickable := false;
     opacity := None |}.

Definition text_layer_ids : list string :=
  [ "purpose-highlight-layer"; "transport-highlight-layer";
    "route-highlight-layer"; "trip-layer"; "transport-label-layer";
    "route-label-layer"; "purpose-label-layer"; "department-circle-layer";
    "department-text-layer" ].

Definition nodes_engineering : list node :=
  nodes (processEmissionsData rt0 [row_engineering]).

Definition purpose_highlight_empty : layer :=
  {| class := ScatterplotLayer;
     id := "purpose-highlight-layer";
     data := [];
     pickable := false;
     opacity := Some (Fin 0.2) |}.

Definition row_sales : row :=
  {| Business_Dept := Some "Sales";
     Carbon_Emission := JNum (Fin 100);
     Trip_ID := Some "T2";
     Purpose := Some "Customer Visit";
     Shipping_Type := Some "Rail";
     Departure_City := Some "Paris";
     Arrival_City := Some "Lyon";
     Net_Costs := JNum (Fin 80) |}.

Definition row_sales_300 : row :=
  {| Business_Dept := Some "Sales";
     Carbon_Emission := JNum (Fin 300);
     Trip_ID := Some "T3";
     Purpose := Some "Customer Visit";
     Shipping_Type := Some "Rail";
     Departure_City := Some "Paris";
     Arrival_City := Some "Nice";
     Net_Costs := JNum (Fin 95) |}.

(** [row_sales] with the department cell missing. *)
Definition row_no_department : row :=
  {| Business_Dept := None;
     Carbon_Emission := JNum (Fin 100);
     Trip_ID := Some "T2";
     Purpose := Some "Customer Visit";
     Shipping_Type := Some "Rail";
     Departure_City := Some "Paris";
     Arrival_City := Some "Lyon";
     Net_Costs := JNum (Fin 80) |}.

(** [row_sales] with an emission of 0. *)
Definition row_zero_emission : row :=
  {| Business_Dept := Some "Sales";
     Carbon_Emission := JNum (Fin 0);
     Trip_ID := Some "T2";
     Purpose := Some "Customer Visit";
     Shipping_Type := Some "Rail";
     Departure_City := Some "Paris";
     Arrival_City := Some "Lyon";
     Net_Costs := JNum (Fin 80) |}.

(** [row_sales] with text in the emission cell. *)
Definition row_text_emission : row :=
  {| Business_Dept := Some "Sales";
     Carbon_Emission := JStr "N/A";
     Trip_ID := Some "T2";
     Purpose := Some "Customer Visit";
     Shipping_Type := Some "Rail";
     Departure_City := Some "Paris";
     Arrival_City := Some "Lyon";
     Net_Costs := JNum (Fin 80) |}.

Definition dummy_node : node :=
  DeptNode (new_department EmptyString).

(** The trip node of [nodes_engineering]. *)
Definition trip_engineering : Trip.t :=
  match nth 4 nodes_engineering dummy_node with
  | TripNode t => t
  | _ =>
      Trip.mk EmptyString EmptyString EmptyString EmptyString EmptyString
        EmptyString (Fin 0) JUndefined (Rgb []) 0%R 0%R None
  end.

(** Two departments and purposes whose names run into each other once
    joined by underscores. *)
Definition row_a_b : row :=
  {| Business_Dept := Some "A_B";
     Carbon_Emission := JNum (Fin 1);
     Trip_ID := Some "1";
     Purpose := Some "C";
     Shipping_Type := Some "Air";
     Departure_City := Some "X";
     Arrival_City := Some "Y";
     Net_Costs := JNum (Fin 1) |}.

Definition row_a : row :=
  {| Business_Dept := Some "A";
     Carbon_Emission := JNum (Fin 1);
     Trip_ID := Some "2";
     Purpose := Some "B_C";
     Shipping_Type := Some "Air";
     Departure_City := Some "X";
     Arrival_City := Some "Y";
     Net_Costs := JNum (Fin 1) |}.

(** ** The layer list, layer by layer *)

(** The one-element list [a] when [b] holds, the empty list otherwise. *)
Definition when {A : Type} (b : bool) (a : A) : list A :=
  if b then [a] else [].

(** Some node of [nodes] has the given type. *)
Definition has_type (nodeType : string) (nodes : list node) : bool :=
  negb (List.length (of_type nodeType nodes) =? 0).

Definition group_layer (class : layerClass) (id nodeType : string)
    (opacity : option jsnum) (nodes : list node) : layer :=
  Build_layer class id (of_type nodeType nodes) false opacity.

Definition marker_layer (class : layerClass) (id nodeType : string)
    (opacity : option jsnum) (nodes : list node) : layer :=
  Build_layer class id (of_type nodeType nodes) true opacity.

(** The layers of [createAllTextLayers], each with the condition under
    which it is part of the list. *)
Definition layer_table (nodes : list node) (zoom : jsnum) : list layer :=
  let deptOpacity := getLayerOpacity "department" zoom in
  let tripOpacity := getLayerOpacity "trip" zoom in
  (when (ge zoom (Fin 4))
     (group_layer ScatterplotLayer "purpose-highlight-layer" "purpose-group"
        (Some (Fin 0.2)) nodes)
   ++ when (ge zoom (Fin 6))
        (group_layer ScatterplotLayer "transport-highlight-layer"
           "transport-group" (Some (Fin 0.3)) nodes)
   ++ when (ge zoom (Fin 7.5))
        (group_layer ScatterplotLayer "route-highlight-layer" "route-group"
           (Some (Fin 0.4)) nodes)
   ++ when (gt tripOpacity (Fin 0) && has_type "trip" nodes)
        (marker_layer ScatterplotLayer "trip-layer" "trip"
           (Some tripOpacity) nodes)
   ++ when (ge zoom (Fin 6) && lt zoom (Fin 12))
        (group_layer TextLayer "transport-label-layer" "transport-group"
           None nodes)
   ++ when (ge zoom (Fin 7.5))
        (group_layer TextLayer "route-label-layer" "route-group" None nodes)
   ++ when (ge zoom (Fin 4) && lt zoom (Fin 12))
        (group_layer TextLayer "purpose-label-layer" "purpose-group"
           None nodes)
   ++ when (gt deptOpacity (Fin 0) && has_type "department" nodes)
        (marker_layer ScatterplotLayer "department-circle-layer" "department"
           (Some deptOpacity) nodes)
   ++ when (gt deptOpacity (Fin 0) && has_type "department" nodes)
        (marker_layer TextLayer "department-text-layer" "department"
           None nodes))%list.

(** [l1] is [l2] with some elements left out, order kept. *)
Fixpoint subsequence (l1 l2 : list string) : bool :=
  match l1, l2 with
  | [], _ => true
  | _ :: _, [] => false
  | a :: r1, b :: r2 =>
      if String.eqb a b then subsequence r1 r2 else subsequence l1 r2
  end.

(** The node type a layer draws, by layer identifier. *)
Definition layer_node_type (layerId : string) : string :=
  if String.eqb layerId "purpose-highlight-layer" then "purpose-group"
  else if String.eqb layerId "purpose-label-layer" then "purpose-group"
  else if String.eqb layerId "transport-highlight-layer" then "transport-group"
  else if String.eqb layerId "transport-label-layer" then "transport-group"
  else if String.eqb layerId "route-highlight-layer" then "route-group"
  else if String.eqb layerId "route-label-layer" then "route-group"
  else if String.eqb layerId "trip-layer" then "trip"
  else "department".

Definition dummy_layer : layer :=
  Build_layer TextLayer EmptyString [] false None.

(** The layers drawn for [nodes_engineering] at zoom 5. *)
Definition layers_engineering : list layer :=
  createAllTextLayers nodes_engineering (Fin 5).


(** ** The trips read from the rows, and what a trip node keeps of its row *)

Definition trips_of (rt : runtime) (rawData : list row) : list Trip.t :=
  st_trips (fold_left (process_row rt) rawData init_state).

(** [deptPositions] of [positionNodes]. *)
Definition positions_of (placed : list Dept.t) : OMap.t (R * R) :=
  fold_left (fun m dept => OMap.set m (Dept.name dept)
                             (Dept.x dept, Dept.y dept))
            placed [].

Definition trip_record : Type :=
  (string * string * string * string * jsnum * jsval * colour)%type.

(** Department, purpose, transport mode, route, emissions, cost and
    colour of a trip. *)
Definition trip_data (t : Trip.t) : trip_record :=
  (Trip.department t, Trip.purpose t, Trip.transportMode t, Trip.route t,
   Trip.emissions t, Trip.cost t, Trip.color t).

(** The same seven values, read from a row. *)
Definition row_data (r : row) : trip_record :=
  (row_department r,
   text_or (Purpose r) "Other",
   text_or (Shipping_Type r) "Other",
   text_or (Departure_City r) "Unknown" ++ " → "
   ++ text_or (Arrival_City r) "Unknown",
   row_emission r,
   (if truthy (Net_Costs r) then Net_Costs r else JNum (Fin 0)),
   getDepartmentColor (row_department r)).

Definition trip_records (out : list node) : list trip_record :=
  flat_map (fun n => match n with
                     | TripNode t => [trip_data t]
                     | _ => []
                     end) out.

(** What [processEmissionsData] pushes after the department nodes. *)
Definition below (rt : runtime) (rawData : list row) : list node :=
  fst (forEach
         (position_dept_group rt
            (positions_of (departments (processEmissionsData rt rawData))))
         (group_departments (trips_of rt rawData)) 0
         (st_draws (fold_left (process_row rt) rawData init_state))).

(** [t] is one of the trips of group [g]. *)
Definition member_of (g : Group.t) (t : Trip.t) : Prop :=
  Group.department g = Trip.department t
  /\ ((Group.type g = "purpose-group" /\ Group.name g = Trip.purpose t)
      \/ (Group.type g = "transport-group"
          /\ Group.purpose g = Some (Trip.purpose t)
          /\ Group.name g = transport_key t)
      \/ route_group_of g t).

(** A group node has the colour of its department and at least one of
    the trips of [v] as a member. *)
Definition grounded (v : list Trip.t) (n : node) : Prop :=
  match n with
  | GroupNode g =>
      Group.color g = getDepartmentColor (Group.department g)
      /\ exists t, In t v /\ member_of g t
  | _ => True
  end.

(** The department a node belongs to: its own name for a department
    node, the [department] field otherwise. *)
Definition owner (n : node) : string :=
  match n with
  | DeptNode d => Dept.name d
  | GroupNode g => Group.department g
  | TripNode t => Trip.department t
  end.

(** Two departments with two purposes, modes and routes. *)
Definition rows_sample : list row :=
  [ row_engineering; row_sales; row_no_department; row_sales_300 ].

Definition nodes_sample : list node :=
  nodes (processEmissionsData rt0 rows_sample).

(** ** Search *)

(** The node matches the (lowercased) search term in its name, its
    department or its route. *)
Definition hit (term : string) (n : node) : bool :=
  field_includes (Node.name n) term
  || field_includes (Node.department n) term
  || field_includes (Node.route n) term.

(** ** What does not depend on the random source *)

(** The node with the coordinates of a trip set aside. *)
Definition settled (n : node) : node :=
  match n with
  | TripNode t =>
      TripNode
        {| Trip.id := Trip.id t;
           Trip.type := Trip.type t;
           Trip.department := Trip.department t;
           Trip.purpose := Trip.purpose t;
           Trip.transportMode := Trip.transportMode t;
           Trip.route := Trip.route t;
           Trip.emissions := Trip.emissions t;
           Trip.cost := Trip.cost t;
           Trip.color := Trip.color t;
           Trip.x := 0%R; Trip.y := 0%R;
           Trip.textSize := Trip.textSize t |}
  | other => other
  end.

(** A runtime whose random source always returns 1/4. *)
Definition rt_quarter : runtime :=
  {| Math_random := fun _ => (1 / 4)%R; toString36 := fun _ => "i" |}.

Definition nodes_quarter : list node :=
  nodes (processEmissionsData rt_quarter rows_sample).

(** The second trip node of [nodes_quarter], a trip of the first of two
    routes. *)
Definition trip_quarter : Trip.t :=
  match nth 9 nodes_quarter dummy_node with
  | TripNode t => t
  | _ =>
      Trip.mk EmptyString EmptyString EmptyString EmptyString EmptyString
        EmptyString (Fin 0) JUndefined (Rgb []) 0%R 0%R None
  end.

(** ** Groups around their parents *)

(** [siblings > 1 ? base : 0]: the radius of the circle on which the
    groups of one parent are laid out. *)
Definition ring_radius (base : R) (siblings : nat) : R :=
  if 1 <? siblings then base else 0%R.

(** [index * ((2 * Math.PI) / (siblings || 1))] *)
Definition ring_angle (index siblings : nat) : R :=
  (INR index * (2 * PI / INR (or_one siblings)))%R.

(** [x = cx + rho * Math.cos(angle)] and [y = cy + rho * Math.sin(angle)] *)
Definition placed_at (cx cy rho angle x y : R) : Prop :=
  x = (cx + rho * cos angle)%R /\ y = (cy + rho * sin angle)%R.

(** The purposes of the trips of a department, the transport modes of
    the trips of a department and purpose, and the routes of the trips of
    a department, purpose and transport mode, each listed once in the
    order of first occurrence. *)
Definition purposes_of (deptName : string) (v : list Trip.t) : list string :=
  first_seen (map Trip.purpose (under Trip.department deptName v)).

Definition transports_of (deptName purpose : string) (v : list Trip.t)
  : list string :=
  first_seen
    (map transport_key
       (under Trip.purpose purpose (under Trip.department deptName v))).

Definition routes_of (deptName purpose transport : string) (v : list Trip.t)
  : list string :=
  first_seen
    (map route_key
       (under transport_key transport
          (under Trip.purpose purpose (under Trip.department deptName v)))).

(** [g] is the purpose group number [i] of department [d], placed on the
    circle of radius [DEPT_CLUSTER_RADIUS] around it. *)
Definition around_department (v : list Trip.t) (g : Group.t) (d : Dept.t)
  : Prop :=
  Dept.name d = Group.department g
  /\ exists i,
       let purposes := purposes_of (Group.department g) v in
       nth_error purposes i = Some (Group.name g)
       /\ placed_at (Dept.x d) (Dept.y d) DEPT_CLUSTER_RADIUS
            (ring_angle i (List.length purposes)) (Group.x g) (Group.y g).

(** [g] is the transport group number [j] of the purpose group [pg],
    placed on its circle (of radius 0 when it is the only one). *)
Definition around_purpose (v : list Trip.t) (g pg : Group.t) : Prop :=
  Group.type pg = "purpose-group"
  /\ Group.department pg = Group.department g
  /\ Group.purpose g = Some (Group.name pg)
  /\ exists j,
       let transports :=
         transports_of (Group.department g) (Group.name pg) v in
       nth_error transports j = Some (Group.name g)
       /\ placed_at (Group.x pg) (Group.y pg)
            (ring_radius (PURPOSE_GROUP_RADIUS * 0.65)
               (List.length transports))
            (ring_angle j (List.length transports))
            (Group.x g) (Group.y g).

(** [g] is the route group number [k] of the transport group [tg],
    placed on its circle (of radius 0 when it is the only one). *)
Definition around_transport (v : list Trip.t) (g tg : Group.t) : Prop :=
  Group.type tg = "transport-group"
  /\ Group.department tg = Group.department g
  /\ Group.purpose tg = Group.purpose g
  /\ Group.transport g = Some (Group.name tg)
  /\ exists purpose k,
       let routes :=
         routes_of (Group.department g) purpose (Group.name tg) v in
       Group.purpose g = Some purpose
       /\ nth_error routes k = Some (Group.name g)
       /\ placed_at (Group.x tg) (Group.y tg)
            (ring_radius (TRANSPORT_GROUP_RADIUS * 0.6)
               (List.length routes))
            (ring_angle k (List.length routes))
            (Group.x g) (Group.y g).

(** What the loop over the transport modes of one purpose pushes: no
    purpose group; transport groups of that department and purpose
    around [(px, py)]; route groups with their transport group. *)
Definition transport_level (v : list Trip.t) (deptName purpose : string)
    (px py : R) (transports : list string) (out : list node) : Prop :=
  forall g, In (GroupNode g) out ->
    Group.type g <> "purpose-group"
    /\ (Group.type g = "transport-group" ->
        Group.department g = deptName
        /\ Group.purpose g = Some purpose
        /\ exists j,
             nth_error transports j = Some (Group.name g)
             /\ placed_at px py
                  (ring_radius (PURPOSE_GROUP_RADIUS * 0.65)
                     (List.length transports))
                  (ring_angle j (List.length transports))
                  (Group.x g) (Group.y g))
    /\ (Group.type g = "route-group" ->
        exists tg, In (GroupNode tg) out /\ around_transport v g tg).

(** What the loop over the purposes of one department pushes. *)
Definition purpose_level (v : list Trip.t) (deptName : string)
    (cx cy : R) (purposes : list string) (out : list node) : Prop :=
  forall g, In (GroupNode g) out ->
    (Group.type g = "purpose-group" ->
     Group.department g = deptName
     /\ exists i,
          nth_error purposes i = Some (Group.name g)
          /\ placed_at cx cy DEPT_CLUSTER_RADIUS
               (ring_angle i (List.length purposes))
               (Group.x g) (Group.y g))
    /\ (Group.type g = "transport-group" ->
        exists pg, In (GroupNode pg) out /\ around_purpose v g pg)
    /\ (Group.type g = "route-group" ->
        exists tg, In (GroupNode tg) out /\ around_transport v g tg).

(** Every purpose group of [out] has its department among [placed],
    every transport group its purpose group in [out], and every route
    group its transport group in [out]. *)
Definition nested (v : list Trip.t) (placed : list Dept.t)
    (out : list node) : Prop :=
  forall g, In (GroupNode g) out ->
    (Group.type g = "purpose-group" ->
     exists d, In d placed /\ around_department v g d)
    /\ (Group.type g = "transport-group" ->
        exists pg, In (GroupNode pg) out /\ around_purpose v g pg)
    /\ (Group.type g = "route-group" ->
        exists tg, In (GroupNode tg) out /\ around_transport v g tg).

(* ================================================================= *)
(** * Properties *)

(** ** The model on the scenarios of the specification *)

Example Number_of_text :
  Number (JStr "N/A") = NaN /\ Number (JStr "12px") = NaN
  /\ Number (JStr EmptyString) = Fin 0 /\ Number (JStr " 42 ") = Fin 42
  /\ Number (JStr "0x1F") = Fin 31 /\ Number (JStr "-Infinity") = NegInf
  /\ Number (JStr "1e3") = Fin 1000 /\ Number (JStr ".") = NaN.
Proof. repeat split; vm_compute; reflexivity. Qed.

(** Scenario 1: one row gives one department (500, one trip), one purpose
    group, one transport group, one route group and one trip. *)
Example scenario_single_row :
  map (fun n => (Node.id n, Node.type n, Node.emissions n, Node.tripCount n))
      (nodes (processEmissionsData rt0 [row_engineering]))
  = [ ("dept_Engineering", "department", Some (Fin 500), Some 1);
      ("group_Engineering_Training", "purpose-group", None, None);
      ("trans_Engineering_Training_Air", "transport-group", None, None);
      ("route_Engineering_Training_Air_0", "route-group", None, None);
      ("trip_T1", "trip", Some (Fin 500), None) ]
  /\ counts (processEmissionsData rt0 [row_engineering])
     = {| c_departments := 1; c_trips := 1 |}.
Proof. split; vm_compute; reflexivity. Qed.

(** Scenario 2: two rows of one department, 100 and 300, give a single
    department with 400 and two trips. *)
Example scenario_shared_department :
  map (fun d => (Dept.name d, Dept.emissions d, Dept.tripCount d))
      (departments (processEmissionsData rt0 [row_sales; row_sales_300]))
  = [ ("Sales", Fin 400, 2) ]
  /\ totalEmissions (processEmissionsData rt0 [row_sales; row_sales_300])
     = Fin 400
  /\ counts (processEmissionsData rt0 [row_sales; row_sales_300])
     = {| c_departments := 1; c_trips := 2 |}.
Proof. repeat split; vm_compute; reflexivity. Qed.
(** ** Level of detail *)

Section Comparisons.
Local Open Scope Q_scope.

Lemma lt_Fin (x y : Q) : lt (Fin x) (Fin y) = true <-> x < y.
Proof.
  simpl. rewrite negb_true_iff. split; intro H.
  - apply Qnot_le_lt. intro C. apply Qle_bool_iff in C. congruence.
  - destruct (Qle_bool y x) eqn:E; [|reflexivity].
    apply Qle_bool_iff in E. lra.
Qed.

Lemma le_Fin (x y : Q) : le (Fin x) (Fin y) = true <-> x <= y.
Proof. simpl. apply Qle_bool_iff. Qed.

Lemma lt_Fin_false (x y : Q) : lt (Fin x) (Fin y) = false <-> y <= x.
Proof.
  simpl. rewrite negb_false_iff. apply Qle_bool_iff.
Qed.

Lemma le_Fin_false (x y : Q) : le (Fin x) (Fin y) = false <-> y < x.
Proof.
  simpl. split; intro H.
  - apply Qnot_le_lt. intro C. apply Qle_bool_iff in C. congruence.
  - destruct (Qle_bool x y) eqn:E; [|reflexivity].
    apply Qle_bool_iff in E. lra.
Qed.
End Comparisons.

Lemma fade_value (m z : Q) :
  div (sub (Fin m) (Fin z)) (Fin 0.5) = Fin ((m - z) / 0.5).
Proof. reflexivity. Qed.

Lemma fade_bounds (m z : Q) :
  (m - 0.5 < z)%Q -> (z < m)%Q -> (0 < (m - z) / 0.5 < 1)%Q.
Proof.
  intros H1 H2. unfold Qdiv. change (/ 0.5)%Q with (10 # 5)%Q. lra.
Qed.

Lemma opacity_in_range (t : threshold) (zoom : jsnum) :
  exists q, opacity_in t zoom = Fin q /\ (0 <= q <= 1)%Q.
Proof.
  destruct t as [mn mx]. unfold opacity_in. simpl min; simpl max.
  destruct (lt zoom mn) eqn:E1; [exists 0%Q; split; [reflexivity|lra]|].
  destruct (ge zoom mx) eqn:E2; [exists 0%Q; split; [reflexivity|lra]|].
  destruct (gt zoom (sub mx (Fin 0.5))) eqn:E3;
    [|exists 1%Q; split; [reflexivity|lra]].
  destruct mx as [| | |m]; destruct zoom as [| | |z]; simpl in E2, E3;
    try discriminate.
  exists ((m - z) / 0.5)%Q. split; [apply fade_value|].
  apply le_Fin_false in E2. apply negb_true_iff, le_Fin_false in E3.
  pose proof (fade_bounds E3 E2). lra.
Qed.

Lemma opacity_in_outside (t : threshold) (zoom : jsnum) :
  lt zoom (min t) = true \/ ge zoom (max t) = true ->
  opacity_in t zoom = Fin 0.
Proof.
  unfold opacity_in. intros [H|H].
  - now rewrite H.
  - rewrite H. now destruct (lt zoom (min t)).
Qed.

Lemma le_lt_false (a b : jsnum) : le a b = true -> lt b a = false.
Proof.
  destruct a as [| | |x], b as [| | |y]; simpl; try congruence.
  intros H. now rewrite H.
Qed.

Lemma lt_le_false (a b : jsnum) : lt a b = true -> le b a = false.
Proof.
  destruct a as [| | |x], b as [| | |y]; simpl; try congruence.
  intros H. now apply negb_true_iff in H.
Qed.

Lemma opacity_in_unbounded (t : threshold) (zoom : jsnum) :
  max t = Infinity -> le (min t) zoom = true -> lt zoom (max t) = true ->
  opacity_in t zoom = Fin 1.
Proof.
  intros Hmax Hmin Hlt. unfold opacity_in.
  rewrite (le_lt_false _ _ Hmin). unfold ge. rewrite (lt_le_false _ _ Hlt).
  rewrite Hmax. unfold Infinity. simpl sub.
  now destruct zoom.
Qed.

Lemma opacity_in_finite (t : threshold) (m z : Q) :
  max t = Fin m -> le (min t) (Fin z) = true -> (z < m)%Q ->
  opacity_in t (Fin z) =
    if Qle_bool z (m - 0.5) then Fin 1 else Fin ((m - z) / 0.5).
Proof.
  intros Hmax Hmin Hlt. unfold opacity_in.
  rewrite (le_lt_false _ _ Hmin), Hmax. unfold ge.
  assert (E : le (Fin m) (Fin z) = false) by now apply le_Fin_false.
  rewrite E. simpl. now destruct (Qle_bool z (m - 0.5)).
Qed.

Lemma property_of_own {V : Type} (obj : OMap.t V) (key : string) (v : V) :
  OMap.get obj key = Some v -> property_of obj key = Own v.
Proof. unfold property_of. now intros ->. Qed.

Lemma reference_max (kind : string) (t : threshold) :
  OMap.get ZOOM_THRESHOLDS kind = Some t -> max t = Infinity.
Proof.
  unfold ZOOM_THRESHOLDS. simpl. intros H.
  repeat match type of H with
         | (if ?c then _ else _) = _ => destruct c
         end; inversion H; reflexivity.
Qed.

(** C4. For a node kind that has a threshold entry, the opacity is a
    number between 0 and 1; it is 0 when the zoom is below [min] or at or
    above [max]; with an unbounded [max] it is 1 everywhere in the window;
    with a finite [max] it is 1 up to [max - 0.5] and then the linear fade
    [(max - zoom) / 0.5] over the last half unit before [max].
    [getLayerOpacity] is that function on [ZOOM_THRESHOLDS], where every
    [max] is unbounded: for each of its kinds it is 0 below [min] and 1
    from [min] on. *)
Theorem getLayerOpacity_window :
  forall (table : OMap.t threshold) (kind : string) (t : threshold)
         (zoom : jsnum),
    OMap.get table kind = Some t ->
    (exists q, layerOpacity table kind zoom = Fin q /\ (0 <= q <= 1)%Q) /\
    (lt zoom (min t) = true \/ ge zoom (max t) = true ->
     layerOpacity table kind zoom = Fin 0) /\
    (max t = Infinity -> le (min t) zoom = true -> lt zoom (max t) = true ->
     layerOpacity table kind zoom = Fin 1) /\
    (forall m z : Q,
       max t = Fin m -> zoom = Fin z -> le (min t) zoom = true ->
       ((z <= m - 0.5)%Q -> layerOpacity table kind zoom = Fin 1) /\
       ((m - 0.5 < z < m)%Q ->
        layerOpacity table kind zoom = Fin ((m - z) / 0.5) /\
        (0 < (m - z) / 0.5 < 1)%Q)) /\
    (table = ZOOM_THRESHOLDS ->
     getLayerOpacity kind zoom = layerOpacity table kind zoom
     /\ (exists q, getLayerOpacity kind zoom = Fin q /\ (0 <= q <= 1)%Q)
     /\ (lt zoom (min t) = true \/ ge zoom (max t) = true ->
         getLayerOpacity kind zoom = Fin 0)
     /\ max t = Infinity
     /\ (le (min t) zoom = true -> lt zoom Infinity = true ->
         getLayerOpacity kind zoom = Fin 1)).
Proof.
  intros table kind t zoom Hget.
  assert (Hwin :
    (exists q, layerOpacity table kind zoom = Fin q /\ (0 <= q <= 1)%Q) /\
    (lt zoom (min t) = true \/ ge zoom (max t) = true ->
     layerOpacity table kind zoom = Fin 0) /\
    (max t = Infinity -> le (min t) zoom = true -> lt zoom (max t) = true ->
     layerOpacity table kind zoom = Fin 1)).
  { unfold layerOpacity. rewrite (property_of_own _ _ Hget).
    split; [apply opacity_in_range|].
    split; [apply opacity_in_outside|apply opacity_in_unbounded]. }
  destruct Hwin as (W1 & W2 & W3).
  split; [exact W1|]. split; [exact W2|]. split; [exact W3|]. split.
  - unfold layerOpacity. rewrite (property_of_own _ _ Hget).
    intros m z Hmax -> Hmin. split.
    + intros Hz. rewrite (opacity_in_finite t Hmax Hmin) by lra.
      apply Qle_bool_iff in Hz. now rewrite Hz.
    + intros [Hz1 Hz2]. rewrite (opacity_in_finite t Hmax Hmin) by lra.
      assert (E : Qle_bool z (m - 0.5) = false).
      { change (le (Fin z) (Fin (m - 0.5)) = false). now apply le_Fin_false. }
      rewrite E. split; [reflexivity|]. now apply fade_bounds.
  - intros ->. change (getLayerOpacity kind zoom)
      with (layerOpacity ZOOM_THRESHOLDS kind zoom).
    pose proof (reference_max _ Hget) as Hmax.
    split; [reflexivity|]. split; [exact W1|]. split; [exact W2|].
    split; [exact Hmax|]. intros Hmin Hlt. apply W3; [exact Hmax|exact Hmin|].
    now rewrite Hmax.
Qed.

(** The reference table: every entry is unbounded above, so the opacity of
    each of the five kinds is 0 below its [min] and 1 from [min] on. *)
Lemma getLayerOpacity_reference (kind : string) (t : threshold) (z : Q) :
  OMap.get ZOOM_THRESHOLDS kind = Some t ->
  getLayerOpacity kind (Fin z) = if lt (Fin z) (min t) then Fin 0 else Fin 1.
Proof.
  unfold getLayerOpacity, layerOpacity. intros H.
  rewrite (property_of_own _ _ H).
  pose proof (reference_max _ H) as Hmax.
  unfold opacity_in. rewrite Hmax. simpl.
  now destruct (lt (Fin z) (min t)).
Qed.

Lemma getLayerOpacity_window_witness :
  (layerOpacity example_table "label" (Fin 11.75) = Fin ((12 - 11.75) / 0.5)
   /\ layerOpacity example_table "label" (Fin 12) = Fin 0)
  /\ getLayerOpacity "trip" (Fin 5) = Fin 1
  /\ getLayerOpacity "trip" (Fin 3) = Fin 0.
Proof.
  split; [|split].
  - pose proof (@getLayerOpacity_window example_table "label"
                  {| min := Fin 6; max := Fin 12 |} (Fin 11.75) eq_refl)
      as (_ & _ & _ & H & _).
    destruct (H 12%Q 11.75%Q eq_refl eq_refl eq_refl) as [_ H2].
    split.
    + apply H2. split; reflexivity.
    + pose proof (@getLayerOpacity_window example_table "label"
                    {| min := Fin 6; max := Fin 12 |} (Fin 12) eq_refl)
        as (_ & H0 & _).
      apply H0. right. reflexivity.
  - pose proof (@getLayerOpacity_window ZOOM_THRESHOLDS "trip"
                  {| min := Fin 4; max := Infinity |} (Fin 5) eq_refl)
      as (_ & _ & _ & _ & H).
    destruct (H eq_refl) as (_ & _ & _ & _ & H1).
    apply H1; reflexivity.
  - pose proof (@getLayerOpacity_window ZOOM_THRESHOLDS "trip"
                  {| min := Fin 4; max := Infinity |} (Fin 3) eq_refl)
      as (_ & _ & _ & _ & H).
    destruct (H eq_refl) as (_ & _ & H0 & _).
    apply H0. left. reflexivity.
Defined.

(** C5. With the reference thresholds the kinds with positive opacity are
    exactly the department kind at zoom 3, include department, trip and
    purpose at zoom 5, and include all five kinds at zoom 8. *)
Theorem activeKinds_scenario :
  (forall kind, In kind (activeKinds (Fin 3)) <-> kind = "department") /\
  incl ["department"; "trip"; "purpose"] (activeKinds (Fin 5)) /\
  incl ["department"; "trip"; "purpose"; "transport"; "route"]
       (activeKinds (Fin 8)).
Proof.
  split; [|split].
  - intros kind. change (activeKinds (Fin 3)) with ["department"].
    simpl. intuition congruence.
  - change (activeKinds (Fin 5)) with ["department"; "trip"; "purpose"].
    apply incl_refl.
  - change (activeKinds (Fin 8))
      with ["department"; "trip"; "purpose"; "transport"; "route"].
    apply incl_refl.
Qed.

(** ** Scene composition *)

Lemma getLayers_highlight (ms : list node) (zoom : jsnum) (nodes : list node) :
  ms <> [] ->
  App.getLayers (Some ms) zoom nodes
  = search_highlight ms :: createAllTextLayers nodes zoom.
Proof.
  intros Hne. unfold App.getLayers, createSearchHighlightLayer.
  destruct ms as [|m ms']; [congruence|]. reflexivity.
Qed.

Lemma push_Forall (P : layer -> Prop) (layers : list layer) (l : option layer) :
  Forall P layers -> (forall v, l = Some v -> P v) -> Forall P (push layers l).
Proof.
  intros H Hl. destruct l as [v|]; simpl; [|assumption].
  apply Forall_app. split; [assumption|]. constructor; [now apply Hl|constructor].
Qed.

Ltac layer_id :=
  let v := fresh "v" in let E := fresh "E" in
  intros v E;
  repeat match type of E with
         | (if ?c then _ else _) = _ => destruct c
         | _ => progress (cbv beta delta
                  [createTextLayer createDepartmentNodeLayer createTripLayer
                   createPurposeHighlightLayer createPurposeLabelLayer
                   createTransportHighlightLayer createTransportLabelLayer
                   createRouteHighlightLayer createRouteLabelLayer] in E)
         | _ => progress (cbv zeta in E)
         end;
  try discriminate; inversion E; subst; simpl; tauto.

Lemma createAllTextLayers_ids (nodes : list node) (zoom : jsnum) :
  Forall (fun l => In (id l) text_layer_ids) (createAllTextLayers nodes zoom).
Proof.
  unfold createAllTextLayers. cbv zeta.
  repeat match goal with
         | |- Forall _ (if ?c then _ else _) => destruct c
         | |- Forall _ (push _ _) => apply push_Forall; [|layer_id]
         | |- Forall _ [] => constructor
         end.
Qed.

Lemma last_cons_ne {A} (a b : A) (l : list A) (d : A) :
  last (a :: b :: l) d = last (b :: l) a.
Proof.
  revert a b d. induction l as [|c l IH]; intros a b d; [reflexivity|].
  change (last (a :: b :: c :: l) d) with (last (b :: c :: l) d).
  rewrite IH. symmetry. apply IH.
Qed.

(** C2 (as the code has it). With a non-empty highlight set the
    search-highlight layer is the first element of the layer list, so it is
    drawn first, beneath every other layer; its descriptor does not depend
    on the zoom and sets no opacity below the default.  It is the last
    element exactly when no other layer is drawn. *)
Theorem getLayers_highlight_first :
  forall (ms : list node) (zoom : jsnum) (nodes : list node),
    ms <> [] ->
    hd_error (App.getLayers (Some ms) zoom nodes) = Some (search_highlight ms)
    /\ tl (App.getLayers (Some ms) zoom nodes) = createAllTextLayers nodes zoom
    /\ opacity (search_highlight ms) = None
    /\ (forall zoom', createSearchHighlightLayer (Some ms) zoom'
                      = createSearchHighlightLayer (Some ms) zoom)
    /\ (forall d, id (last (App.getLayers (Some ms) zoom nodes) d)
                  = "search-highlight"
                  <-> createAllTextLayers nodes zoom = []).
Proof.
  intros ms zoom nodes Hne. rewrite (getLayers_highlight zoom nodes Hne).
  repeat split; try reflexivity.
  - intros H.
    pose proof (createAllTextLayers_ids nodes zoom) as Hids.
    destruct (createAllTextLayers nodes zoom) as [|l ls]; [reflexivity|].
    exfalso. rewrite last_cons_ne in H.
    assert (Hin : In (last (l :: ls) (search_highlight ms)) (l :: ls)).
    { clear. generalize (search_highlight ms). revert l.
      induction ls as [|b ls IH]; intros l d; [now left|].
      rewrite last_cons_ne. right. apply IH. }
    rewrite Forall_forall in Hids. apply Hids in Hin. rewrite H in Hin.
    simpl in Hin. intuition discriminate.
  - intros ->. reflexivity.
Qed.

Lemma getLayers_highlight_first_witness :
  hd_error (App.getLayers (Some nodes_engineering) (Fin 0) nodes_engineering)
  = Some (search_highlight nodes_engineering).
Proof.
  apply (@getLayers_highlight_first nodes_engineering (Fin 0)
           nodes_engineering).
  vm_compute. discriminate.
Defined.

(** C2, as stated, fails: after one row has been processed and with every
    node matched by the search, the list at zoom 0 is the highlight layer
    followed by the department circle and label layers, and its last
    element is the department label layer. *)
Lemma highlight_layer_not_last :
  nodes_engineering <> [] /\
  map id (App.getLayers (Some nodes_engineering) (Fin 0) nodes_engineering)
  = ["search-highlight"; "department-circle-layer"; "department-text-layer"]
  /\ id (last (App.getLayers (Some nodes_engineering) (Fin 0)
                nodes_engineering) (search_highlight []))
     <> "search-highlight".
Proof.
  split; [vm_compute; discriminate|].
  split; [vm_compute; reflexivity|].
  vm_compute. discriminate.
Qed.

Lemma ge_Fin_trans_false (zoom : jsnum) (a b : Q) :
  (a <= b)%Q -> ge zoom (Fin a) = false -> ge zoom (Fin b) = false.
Proof.
  intros Hab. unfold ge. destruct zoom as [| | |z]; simpl; try congruence.
  intros H. change (le (Fin a) (Fin z) = false) in H.
  change (le (Fin b) (Fin z) = false).
  apply le_Fin_false in H. apply le_Fin_false. lra.
Qed.

Lemma empty_scene_below_4 (zoom : jsnum) :
  ge zoom (Fin 4) = false -> App.getLayers None zoom [] = [].
Proof.
  intros H. unfold App.getLayers, createAllTextLayers. cbv zeta.
  rewrite H.
  rewrite (@ge_Fin_trans_false zoom 4 6) by (lra || assumption).
  rewrite (@ge_Fin_trans_false zoom 4 7.5) by (lra || assumption).
  simpl.
  repeat match goal with
         | |- (if ?c then _ else _) = _ => destruct c
         end; reflexivity.
Qed.

Lemma push_hd (layers : list layer) (l : option layer) (v : layer) :
  hd_error layers = Some v -> hd_error (push layers l) = Some v.
Proof.
  destruct layers as [|a r]; [discriminate|]. now destruct l.
Qed.

Lemma empty_scene_from_4 (zoom : jsnum) :
  ge zoom (Fin 4) = true ->
  hd_error (App.getLayers None zoom []) = Some purpose_highlight_empty.
Proof.
  intros H4.
  pose proof (le_lt_false _ _ H4) as L4.
  destruct (ge zoom (Fin 6)) eqn:H6;
    [pose proof (le_lt_false _ _ H6) as L6|];
    (destruct (ge zoom (Fin 7.5)) eqn:H7;
       [pose proof (le_lt_false _ _ H7) as L7|]);
    destruct (lt zoom (Fin 12)) eqn:L12;
    destruct (gt (getLayerOpacity "trip" zoom) (Fin 0)) eqn:Ht;
    destruct (gt (getLayerOpacity "department" zoom) (Fin 0)) eqn:Hd;
    unfold App.getLayers, createAllTextLayers, createPurposeHighlightLayer,
      createPurposeLabelLayer, createTransportHighlightLayer,
      createTransportLabelLayer, createRouteHighlightLayer,
      createRouteLabelLayer;
    rewrite ?H4, ?H6, ?H7, ?L4, ?L6, ?L7, ?L12, ?Ht, ?Hd; reflexivity.
Qed.

(** C8 on the code. Empty input gives an empty node set, no department,
    no trip and zero total emissions, and the layer list for that node set
    is empty as long as the zoom is not 4 or more.  From zoom 4 on the
    list is not empty: the purpose, transport and route layers are created
    without looking at whether any node is left after filtering (the trip
    and department layers do look), so at zoom 5 the list holds the
    purpose highlight and purpose label layers, both with no data. *)
Theorem empty_input_scene :
  forall rt : runtime,
    processEmissionsData rt []
    = {| nodes := []; departments := []; totalEmissions := Fin 0;
         counts := {| c_departments := 0; c_trips := 0 |} |}
    /\ (forall zoom, ge zoom (Fin 4) = false ->
                     App.getLayers None zoom (nodes (processEmissionsData rt []))
                     = [])
    /\ (forall zoom, ge zoom (Fin 4) = true ->
                     hd_error (App.getLayers None zoom
                                 (nodes (processEmissionsData rt [])))
                     = Some purpose_highlight_empty)
    /\ map (fun l => (id l, data l))
           (App.getLayers None (Fin 5) (nodes (processEmissionsData rt [])))
       = [("purpose-highlight-layer", []); ("purpose-label-layer", [])].
Proof.
  intros rt. split; [reflexivity|].
  change (nodes (processEmissionsData rt [])) with (@nil node).
  split; [apply empty_scene_below_4|].
  split; [apply empty_scene_from_4|].
  reflexivity.
Qed.

(* ================================================================= *)
(** ** Insertion-ordered maps and grouping *)

Section OMapFacts.
Context {V : Type}.
Implicit Types (m : OMap.t V) (k : string) (v : V).

Lemma get_set m k v k' :
  OMap.get (OMap.set m k v) k' = if String.eqb k k' then Some v else OMap.get m k'.
Proof.
  induction m as [|[k0 v0] m IH]; simpl.
  - reflexivity.
  - destruct (String.eqb_spec k0 k) as [->|Hne]; simpl.
    + destruct (String.eqb k k'); reflexivity.
    + rewrite IH. destruct (String.eqb_spec k0 k') as [->|Hne'].
      * apply String.eqb_neq in Hne. rewrite String.eqb_sym in Hne.
        now rewrite Hne.
      * reflexivity.
Qed.

Lemma has_In m k : OMap.has m k = true <-> In k (OMap.keys m).
Proof.
  unfold OMap.has. induction m as [|[k0 v0] m IH]; simpl.
  - split; [discriminate|tauto].
  - destruct (String.eqb_spec k0 k) as [->|Hne].
    + split; auto.
    + rewrite IH. split; [auto|]. intros [H|H]; [congruence|assumption].
Qed.

Lemma keys_set m k v :
  OMap.keys (OMap.set m k v)
  = if OMap.has m k then OMap.keys m else (OMap.keys m ++ [k])%list.
Proof.
  unfold OMap.has. induction m as [|[k0 v0] m IH]; simpl.
  - reflexivity.
  - destruct (String.eqb_spec k0 k) as [->|Hne]; simpl.
    + reflexivity.
    + rewrite IH. now destruct (OMap.get m k).
Qed.

Lemma get_In m k v : OMap.get m k = Some v -> In (k, v) m.
Proof.
  induction m as [|[k0 v0] m IH]; simpl; [discriminate|].
  destruct (String.eqb_spec k0 k) as [->|Hne].
  - intros [= ->]. now left.
  - intros H. right. now apply IH.
Qed.

Lemma get_None m k : OMap.get m k = None <-> ~ In k (OMap.keys m).
Proof.
  rewrite <- has_In. unfold OMap.has.
  destruct (OMap.get m k); split; congruence.
Qed.

(** Two maps with the same keys in the same order, none repeated, and
    the same value under every key are equal. *)
Lemma omap_ext m1 m2 :
  OMap.keys m1 = OMap.keys m2 -> NoDup (OMap.keys m1) ->
  (forall k, OMap.get m1 k = OMap.get m2 k) -> m1 = m2.
Proof.
  revert m2. induction m1 as [|[k1 v1] m1 IH]; intros [|[k2 v2] m2];
    simpl; try discriminate; [reflexivity|].
  intros [= <- Hk] Hnd Hget. inversion Hnd as [|? ? Hnin Hnd']; subst.
  pose proof (Hget k1) as H1. rewrite String.eqb_refl in H1.
  injection H1 as <-. f_equal. apply IH; [assumption..|].
  intros k. specialize (Hget k).
  destruct (String.eqb_spec k1 k) as [->|Hne]; [|assumption].
  transitivity (@None V); [|symmetry].
  - now apply get_None.
  - apply get_None. now rewrite <- Hk.
Qed.
End OMapFacts.

Lemma get_map_keys {W : Type} (F : string -> W) (ks : list string) (k : string) :
  OMap.get (map (fun k => (k, F k)) ks) k
  = if existsb (String.eqb k) ks then Some (F k) else None.
Proof.
  induction ks as [|k0 ks IH]; simpl; [reflexivity|].
  rewrite (String.eqb_sym k k0).
  destruct (String.eqb_spec k0 k) as [->|Hne]; [reflexivity|assumption].
Qed.

Lemma keys_map_keys {W : Type} (F : string -> W) (ks : list string) :
  OMap.keys (map (fun k => (k, F k)) ks) = ks.
Proof.
  unfold OMap.keys. rewrite map_map. simpl. apply map_id.
Qed.

Lemma existsb_eqb_In (k : string) (l : list string) :
  existsb (String.eqb k) l = true <-> In k l.
Proof.
  rewrite existsb_exists. split.
  - intros (x & Hx & E). apply String.eqb_eq in E. now subst.
  - intros H. exists k. split; [assumption|apply String.eqb_refl].
Qed.

(** *** First-seen order *)

Lemma first_seen_In (l : list string) (k : string) :
  In k (first_seen l) <-> In k l.
Proof.
  induction l as [|a l IH]; simpl; [tauto|].
  rewrite filter_In, IH, negb_true_iff, String.eqb_neq.
  destruct (string_dec a k) as [->|Hne]; [tauto|].
  split; [tauto|]. intros [H|H]; [congruence|]. right. split; congruence.
Qed.

Lemma first_seen_NoDup (l : list string) : NoDup (first_seen l).
Proof.
  induction l as [|a l IH]; simpl; constructor.
  - rewrite filter_In, String.eqb_refl. simpl. intros [_ H]. discriminate.
  - now apply NoDup_filter.
Qed.

Lemma first_seen_snoc (l : list string) (k : string) :
  first_seen (l ++ [k])
  = if existsb (String.eqb k) l then first_seen l
    else (first_seen l ++ [k])%list.
Proof.
  induction l as [|a l IH]; simpl; [reflexivity|].
  rewrite IH. destruct (existsb (String.eqb k) l) eqn:E.
  - now rewrite orb_true_r.
  - rewrite orb_false_r, filter_app. simpl.
    destruct (String.eqb k a); simpl; [now rewrite app_nil_r|reflexivity].
Qed.

Lemma existsb_first_seen (l : list string) (k : string) :
  existsb (String.eqb k) (first_seen l) = existsb (String.eqb k) l.
Proof.
  apply eq_true_iff_eq. rewrite !existsb_eqb_In. apply first_seen_In.
Qed.

(** *** Buckets *)

Section BucketFacts.
Context {A : Type} (key : A -> string).

Lemma under_snoc (k : string) (l : list A) (a : A) :
  under key k (l ++ [a])
  = if String.eqb (key a) k then (under key k l ++ [a])%list
    else under key k l.
Proof.
  unfold under. rewrite filter_app. simpl.
  destruct (String.eqb (key a) k); [reflexivity|apply app_nil_r].
Qed.

Lemma keys_bucket (l : list A) :
  OMap.keys (bucket key l) = first_seen (map key l).
Proof. apply keys_map_keys. Qed.

Lemma get_bucket (l : list A) (k : string) :
  OMap.get (bucket key l) k
  = if existsb (String.eqb k) (map key l) then Some (under key k l)
    else None.
Proof.
  unfold bucket. now rewrite get_map_keys, existsb_first_seen.
Qed.

Lemma under_nil (l : list A) (k : string) :
  existsb (String.eqb k) (map key l) = false -> under key k l = [].
Proof.
  unfold under. induction l as [|a l IH]; simpl; [reflexivity|].
  rewrite orb_false_iff. intros [H1 H2]. rewrite String.eqb_sym in H1.
  rewrite H1. now apply IH.
Qed.
End BucketFacts.

Section MapValues.
Context {V W : Type} (G : string -> V -> W).

Lemma keys_map_values (m : OMap.t V) :
  OMap.keys (map_values G m) = OMap.keys m.
Proof.
  unfold map_values, OMap.keys. rewrite map_map. reflexivity.
Qed.

Lemma get_map_values (m : OMap.t V) (k : string) :
  OMap.get (map_values G m) k = option_map (G k) (OMap.get m k).
Proof.
  induction m as [|[k0 v0] m IH]; simpl; [reflexivity|].
  destruct (String.eqb_spec k0 k) as [->|Hne]; [reflexivity|assumption].
Qed.
End MapValues.

(** Filing one more element: a map that holds, under each key, the fold
    of [step] over the bucket of that key is kept up to date by one
    [alter] per element, the way the source does it. *)
Section Nest.
Context {A W : Type} (key : A -> string).
Variable init : string -> W.
Variable step : W -> A -> W.

Lemma nest_snoc (l : list A) (a : A) :
  map_values (folded init step) (bucket key (l ++ [a]))
  = OMap.alter (map_values (folded init step) (bucket key l)) (key a) (init (key a))
      (fun w => step w a).
Proof.
  apply omap_ext.
  - unfold OMap.alter. rewrite keys_set, !keys_map_values, !keys_bucket.
    rewrite map_app. simpl. rewrite first_seen_snoc.
    destruct (existsb (String.eqb (key a)) (map key l)) eqn:E.
    + assert (H : OMap.has (map_values (folded init step) (bucket key l)) (key a) = true).
      { apply has_In. rewrite keys_map_values, keys_bucket.
        rewrite first_seen_In, <- existsb_eqb_In. exact E. }
      now rewrite H.
    + assert (H : OMap.has (map_values (folded init step) (bucket key l)) (key a) = false).
      { apply not_true_is_false. intros C. apply has_In in C.
        rewrite keys_map_values, keys_bucket in C.
        rewrite first_seen_In, <- existsb_eqb_In in C. congruence. }
      now rewrite H.
  - rewrite keys_map_values, keys_bucket. apply first_seen_NoDup.
  - intros k. unfold OMap.alter.
    rewrite get_set, !get_map_values, !get_bucket, map_app. simpl.
    rewrite existsb_app. simpl. rewrite orb_false_r.
    rewrite under_snoc.
    destruct (String.eqb_spec (key a) k) as [<-|Hne].
    + rewrite String.eqb_refl, orb_true_r. simpl. f_equal.
      unfold folded. rewrite fold_left_app. simpl. f_equal.
      destruct (existsb (String.eqb (key a)) (map key l)) eqn:E;
        [reflexivity|].
      simpl. now rewrite (under_nil key l (key a) E).
    + assert (E : String.eqb k (key a) = false).
      { apply String.eqb_neq. congruence. }
      rewrite E, orb_false_r. reflexivity.
Qed.

Lemma nest_fold (l : list A) (m0 : OMap.t W) :
  m0 = [] ->
  fold_left (fun m a => OMap.alter m (key a) (init (key a))
                          (fun w => step w a)) l m0
  = map_values (folded init step) (bucket key l).
Proof.
  intros ->. induction l as [|a l IH] using rev_ind; [reflexivity|].
  rewrite fold_left_app. simpl. rewrite IH. symmetry. apply nest_snoc.
Qed.
End Nest.

(* ================================================================= *)
(** ** Record aggregation *)

Section Aggregation.
Variable rt : runtime.

Lemma process_row_skipped (st : state) (r : row) :
  skipped r = true -> process_row rt st r = st.
Proof. unfold process_row. now intros ->. Qed.

Lemma fold_processed (rows : list row) (st : state) :
  fold_left (process_row rt) rows st
  = fold_left (process_row rt) (processed rows) st.
Proof.
  revert st. induction rows as [|r rows IH]; intros st; [reflexivity|].
  simpl. unfold processed in *. simpl.
  destruct (skipped r) eqn:E; simpl.
  - rewrite process_row_skipped by assumption. apply IH.
  - apply IH.
Qed.

Lemma processed_skip (pre post : list row) (r : row) :
  skipped r = true -> processed (pre ++ r :: post) = processed (pre ++ post).
Proof.
  intros H. unfold processed. rewrite !filter_app. simpl. now rewrite H.
Qed.

Lemma processed_keep (pre post : list row) (r : row) :
  skipped r = false ->
  processed (pre ++ r :: post) = (processed pre ++ r :: processed post)%list.
Proof.
  intros H. unfold processed. rewrite !filter_app. simpl. now rewrite H.
Qed.

(** A skipped row leaves no trace in the result. *)
Lemma processEmissionsData_skip (pre post : list row) (r : row) :
  skipped r = true ->
  processEmissionsData rt (pre ++ r :: post)
  = processEmissionsData rt (pre ++ post).
Proof.
  intros H. unfold processEmissionsData.
  rewrite (fold_processed (pre ++ r :: post)),
          (fold_processed (pre ++ post)).
  rewrite processed_skip by assumption. reflexivity.
Qed.

Lemma st_departments_step (st : state) (r : row) :
  skipped r = false ->
  st_departments (process_row rt st r) = dept_alter (st_departments st) r.
Proof.
  unfold process_row. intros ->.
  destruct (Trip_ID r) as [v|]; [destruct (str_truthy v)|]; reflexivity.
Qed.

Lemma st_totalEmissions_step (st : state) (r : row) :
  skipped r = false ->
  st_totalEmissions (process_row rt st r)
  = add (st_totalEmissions st) (row_emission r).
Proof.
  unfold process_row. intros ->.
  destruct (Trip_ID r) as [v|]; [destruct (str_truthy v)|]; reflexivity.
Qed.

Lemma st_trips_step (st : state) (r : row) :
  skipped r = false ->
  exists t, st_trips (process_row rt st r) = (st_trips st ++ [t])%list
            /\ Trip.department t = row_department r
            /\ Trip.emissions t = row_emission r
            /\ Trip.id t = "trip_" ++ match Trip_ID r with
                                       | Some v =>
                                           if str_truthy v then v
                                           else toString36 rt (Math_random rt (st_draws st))
                                       | None => toString36 rt (Math_random rt (st_draws st))
                                       end
            /\ Trip.purpose t = text_or (Purpose r) "Other"
            /\ Trip.transportMode t = text_or (Shipping_Type r) "Other"
            /\ Trip.type t = "trip".
Proof.
  unfold process_row. intros ->.
  destruct (Trip_ID r) as [v|]; [destruct (str_truthy v)|];
    eexists; repeat split; reflexivity.
Qed.

Lemma st_departments_fold_gen (rows : list row) (st : state) :
  st_departments (fold_left (process_row rt) rows st)
  = fold_left dept_alter (processed rows) (st_departments st).
Proof.
  revert st. induction rows as [|r rows IH]; intros st; [reflexivity|].
  simpl. unfold processed in *. simpl. rewrite IH.
  destruct (skipped r) eqn:E; simpl.
  - now rewrite process_row_skipped.
  - now rewrite st_departments_step.
Qed.

Lemma st_departments_fold (rows : list row) :
  st_departments (fold_left (process_row rt) rows init_state)
  = map_values (folded new_department dept_step)
      (bucket row_department (processed rows)).
Proof.
  rewrite st_departments_fold_gen.
  apply (nest_fold row_department new_department dept_step). reflexivity.
Qed.

Lemma st_totalEmissions_fold (rows : list row) (st : state) :
  st_totalEmissions (fold_left (process_row rt) rows st)
  = fold_left add (map row_emission (processed rows)) (st_totalEmissions st).
Proof.
  revert st. induction rows as [|r rows IH]; intros st; [reflexivity|].
  simpl. unfold processed in *. simpl. rewrite IH.
  destruct (skipped r) eqn:E; simpl.
  - now rewrite process_row_skipped.
  - now rewrite st_totalEmissions_step.
Qed.

Lemma st_trips_length (rows : list row) (st : state) :
  List.length (st_trips (fold_left (process_row rt) rows st))
  = List.length (st_trips st) + List.length (processed rows).
Proof.
  revert st. induction rows as [|r rows IH]; intros st; simpl; [lia|].
  rewrite IH. unfold processed. simpl.
  destruct (skipped r) eqn:E; simpl.
  - now rewrite process_row_skipped.
  - destruct (st_trips_step st r E) as (t & -> & _).
    rewrite length_app. simpl. lia.
Qed.

Lemma counts_trips (rows : list row) :
  c_trips (counts (processEmissionsData rt rows))
  = List.length (processed rows).
Proof.
  unfold processEmissionsData.
  destruct (positionNodes _ _ _ _) as [ns n']. simpl.
  now rewrite st_trips_length.
Qed.

Lemma fold_dept_step (v : list row) (w : Dept.t) :
  let d := fold_left dept_step v w in
  Dept.name d = Dept.name w /\
  Dept.id d = Dept.id w /\
  Dept.type d = Dept.type w /\
  Dept.emissions d = fold_left add (map row_emission v) (Dept.emissions w) /\
  Dept.tripCount d = Dept.tripCount w + List.length v.
Proof.
  revert w. induction v as [|r v IH]; intros w; simpl.
  - repeat split; auto.
  - destruct (IH (dept_step w r)) as (H1 & H2 & H3 & H4 & H5).
    simpl in *. repeat split; try assumption. lia.
Qed.

(** What the fold stores for a department. *)
Lemma folded_department (deptName : string) (v : list row) :
  let d := folded new_department dept_step deptName v in
  Dept.name d = deptName /\
  Dept.id d = "dept_" ++ deptName /\
  Dept.type d = "department" /\
  Dept.emissions d = sum (map row_emission v) /\
  Dept.tripCount d = List.length v.
Proof. apply (fold_dept_step v (new_department deptName)). Qed.
End Aggregation.

(* ================================================================= *)
(** ** Grouping and layout *)

Section ForEachFacts.
Context {A B : Type} (body : A -> nat -> nat -> list B * nat).

(** A property of output lists that holds of the empty list and is
    kept by concatenation holds of what a loop pushes as soon as it
    holds of what each iteration pushes. *)
Lemma forEach_closed (Loc : list B -> Prop) (arr : list A) :
  Loc [] ->
  (forall l1 l2, Loc l1 -> Loc l2 -> Loc (l1 ++ l2)%list) ->
  (forall a i n, In a arr -> Loc (fst (body a i n))) ->
  forall i n, Loc (fst (forEach body arr i n)).
Proof.
  intros Hnil Happ. induction arr as [|a arr IH]; intros Hbody i n; simpl.
  - exact Hnil.
  - specialize (Hbody a i n (or_introl eq_refl)) as Ha.
    destruct (body a i n) as [out n1].
    specialize (IH (fun a' i' n' H => Hbody a' i' n' (or_intror H)) (S i) n1).
    destruct (forEach body arr (S i) n1) as [outs n2]. simpl in *.
    now apply Happ.
Qed.

Lemma forEach_Forall (P : B -> Prop) (arr : list A) :
  (forall a i n, In a arr -> Forall P (fst (body a i n))) ->
  forall i n, Forall P (fst (forEach body arr i n)).
Proof.
  apply (forEach_closed (Forall P)); [constructor|].
  intros l1 l2 H1 H2. apply Forall_app. now split.
Qed.
End ForEachFacts.

(** *** The nested maps built by [group_trip] *)

Lemma map_values_ext {V W : Type} (F G : string -> V -> W) (m : OMap.t V) :
  (forall k v, F k v = G k v) -> map_values F m = map_values G m.
Proof.
  intros H. unfold map_values. apply map_ext. intros [k v]. simpl.
  now rewrite H.
Qed.

Lemma map_values_id {V : Type} (m : OMap.t V) :
  map_values (fun _ v => v) m = m.
Proof.
  unfold map_values. rewrite <- (map_id m) at 2. apply map_ext.
  now intros [k v].
Qed.

Lemma fold_snoc {A : Type} (v : list A) (acc : list A) :
  fold_left (fun l a => (l ++ [a])%list) v acc = (acc ++ v)%list.
Proof.
  revert acc. induction v as [|a v IH]; intros acc; simpl.
  - now rewrite app_nil_r.
  - rewrite IH, <- app_assoc. reflexivity.
Qed.

Lemma fold_route_step (v : list Trip.t) :
  fold_left route_step v [] = group_routes v.
Proof.
  unfold route_step, group_routes.
  rewrite (nest_fold route_key (fun _ => []) (fun l a => (l ++ [a])%list))
    by reflexivity.
  rewrite <- (map_values_id (bucket route_key v)) at 2.
  apply map_values_ext. intros k l. unfold folded. now rewrite fold_snoc.
Qed.

Lemma fold_transport_step (v : list Trip.t) :
  fold_left transport_step v [] = group_transports v.
Proof.
  unfold transport_step, group_transports.
  rewrite (nest_fold transport_key (fun _ => []) route_step) by reflexivity.
  apply map_values_ext. intros k l. apply fold_route_step.
Qed.

Lemma fold_purpose_step (v : list Trip.t) :
  fold_left purpose_step v [] = group_purposes v.
Proof.
  unfold purpose_step, group_purposes.
  rewrite (nest_fold Trip.purpose (fun _ => []) transport_step) by reflexivity.
  apply map_values_ext. intros k l. apply fold_transport_step.
Qed.

(** The nested maps are the trips filed by department, then purpose, then
    transport mode, then route, keys in first-seen order at every level. *)
Lemma fold_group_trip (trips : list Trip.t) :
  fold_left group_trip trips [] = group_departments trips.
Proof.
  change (fold_left group_trip trips [])
    with (fold_left (fun g trip =>
                       OMap.alter g (Trip.department trip) []
                         (fun pm => purpose_step pm trip)) trips []).
  unfold group_departments.
  rewrite (nest_fold Trip.department (fun _ => []) purpose_step) by reflexivity.
  apply map_values_ext. intros k l. apply fold_purpose_step.
Qed.

Lemma In_grouped {V : Type} (key : Trip.t -> string) (G : list Trip.t -> V)
    (v : list Trip.t) (k : string) (m : V) :
  In (k, m) (map_values (fun _ => G) (bucket key v)) ->
  m = G (under key k v) /\ In k (first_seen (map key v)).
Proof.
  unfold map_values, bucket. rewrite map_map. simpl. rewrite in_map_iff.
  intros (k' & [= -> <-] & Hin). now split.
Qed.

Lemma get_grouped {V : Type} (key : Trip.t -> string) (G : list Trip.t -> V)
    (v : list Trip.t) (k : string) (m : V) :
  OMap.get (map_values (fun _ => G) (bucket key v)) k = Some m ->
  m = G (under key k v).
Proof.
  intros H. apply get_In in H. now apply In_grouped in H.
Qed.

Lemma under_In {A : Type} (key : A -> string) (k : string) (l : list A) (a : A) :
  In a (under key k l) <-> In a l /\ key a = k.
Proof. unfold under. now rewrite filter_In, String.eqb_eq. Qed.

Lemma under_incl {A : Type} (key : A -> string) (k : string) (l : list A) :
  incl (under key k l) l.
Proof. intros a H. now apply under_In in H. Qed.

Section LaidOut.
Variable rt : runtime.

Lemma laid_out_nil (v : list Trip.t) : laid_out rt v [].
Proof. intros n []. Qed.

Lemma laid_out_app (v : list Trip.t) (l1 l2 : list node) :
  laid_out rt v l1 -> laid_out rt v l2 -> laid_out rt v (l1 ++ l2).
Proof.
  intros H1 H2 n Hin. apply in_app_or in Hin.
  destruct Hin as [Hin|Hin]; [specialize (H1 n Hin)|specialize (H2 n Hin)];
    destruct n as [d|g|t']; try assumption.
  - destruct H1 as (t & k & g & Ht & Hg & Hr & E).
    exists t, k, g. split; [assumption|]. split; [apply in_or_app; now left|].
    split; assumption.
  - destruct H2 as (t & k & g & Ht & Hg & Hr & E).
    exists t, k, g. split; [assumption|]. split; [apply in_or_app; now right|].
    split; assumption.
Qed.

Lemma laid_out_incl (v v' : list Trip.t) (l : list node) :
  incl v v' -> laid_out rt v l -> laid_out rt v' l.
Proof.
  intros Hincl H n Hin. specialize (H n Hin).
  destruct n as [d|g|t']; try assumption.
  destruct H as (t & k & g & Ht & Hg & Hr & E).
  exists t, k, g. split; [now apply Hincl|]. split; [assumption|].
  split; assumption.
Qed.

Lemma laid_out_cons (v : list Trip.t) (g0 : Group.t) (l : list node) :
  group_shape g0 -> laid_out rt v l -> laid_out rt v (GroupNode g0 :: l).
Proof.
  intros Hs H.
  change (GroupNode g0 :: l) with ([GroupNode g0] ++ l)%list.
  intros n Hin. apply in_app_or in Hin. destruct Hin as [[<-|[]]|Hin].
  - exact Hs.
  - specialize (H n Hin). destruct n as [d|g|t']; try assumption.
    destruct H as (t & k & g & Ht & Hg & Hr & E).
    exists t, k, g. split; [assumption|]. split; [now right|].
    split; assumption.
Qed.

Lemma laid_out_forEach {A : Type} (v : list Trip.t)
    (body : A -> nat -> nat -> list node * nat) (arr : list A) (i n : nat) :
  (forall a i n, In a arr -> laid_out rt v (fst (body a i n))) ->
  laid_out rt v (fst (forEach body arr i n)).
Proof.
  intros H. apply (forEach_closed body (laid_out rt v));
    [apply laid_out_nil|apply laid_out_app|exact H].
Qed.

Lemma position_trips_In (routeX routeY : R) (tripList : list Trip.t) (n : nat) :
  Forall (fun x => exists t k, In t tripList
                               /\ x = TripNode (place_trip rt routeX routeY t k))
         (fst (position_trips rt routeX routeY tripList n)).
Proof.
  unfold position_trips. apply forEach_Forall.
  intros t i k Hin. constructor; [|constructor]. now exists t, k.
Qed.

Lemma position_route_laid_out (deptName purpose transport : string)
    (transportX transportY : R) (v : list Trip.t) (routes : list string)
    (route : string) (k n : nat) :
  (forall t, In t v -> Trip.department t = deptName
                       /\ Trip.purpose t = purpose
                       /\ transport_key t = transport) ->
  laid_out rt v
    (fst (position_route rt deptName purpose transport transportX transportY
            (group_routes v) routes route k n)).
Proof.
  intros Hv. unfold position_route. cbv zeta.
  match goal with
  | |- context [GroupNode ?g] => set (group := g)
  end.
  assert (Hs : group_shape group) by (right; right; now split).
  destruct (OMap.get (group_routes v) route) as [tripList|] eqn:E.
  - match goal with
    | |- context [position_trips rt ?x ?y ?l ?n] =>
        pose proof (position_trips_In x y l n) as HF;
        destruct (position_trips rt x y l n) as [placed n']
    end.
    simpl fst in *. intros x [<-|Hin]; [exact Hs|].
    rewrite Forall_forall in HF.
    destruct (HF x Hin) as (t & j & Ht & ->).
    unfold group_routes in E. rewrite get_bucket in E.
    destruct (existsb _ _); [|discriminate]. injection E as <-.
    apply under_In in Ht. destruct Ht as [Ht Hk].
    destruct (Hv t Ht) as (H1 & H2 & H3).
    exists t, j, group. split; [assumption|]. split; [now left|].
    split; [|reflexivity].
    unfold route_group_of. simpl. rewrite H1, H2, H3, Hk. tauto.
  - simpl. intros x [<-|[]]. exact Hs.
Qed.

Lemma position_transport_laid_out (deptName purpose : string)
    (purposeX purposeY : R) (v : list Trip.t) (transports : list string)
    (transport : string) (j n : nat) :
  (forall t, In t v -> Trip.department t = deptName
                       /\ Trip.purpose t = purpose) ->
  laid_out rt v
    (fst (position_transport rt deptName purpose purposeX purposeY
            (group_transports v) transports transport j n)).
Proof.
  intros Hv. unfold position_transport. cbv zeta.
  match goal with
  | |- context [GroupNode ?g] => set (group := g)
  end.
  assert (Hs : group_shape group) by (right; left; now split).
  destruct (OMap.get (group_transports v) transport) as [rm|] eqn:E.
  - apply get_grouped in E. subst rm.
    match goal with
    | |- context [forEach ?b ?l ?i ?n] =>
        assert (HL : laid_out rt (under transport_key transport v)
                       (fst (forEach b l i n)));
        [|destruct (forEach b l i n) as [below n']]
    end.
    + apply laid_out_forEach. intros route k m _.
      apply position_route_laid_out. intros t Ht.
      apply under_In in Ht. destruct Ht as [Ht Hk].
      destruct (Hv t Ht). auto.
    + simpl fst in *. apply laid_out_cons; [exact Hs|].
      eapply laid_out_incl; [apply under_incl|exact HL].
  - simpl. intros x [<-|[]]. exact Hs.
Qed.

Lemma position_purpose_laid_out (deptName : string) (deptPos : R * R)
    (v : list Trip.t) (purposes : list string) (purpose : string)
    (i n : nat) :
  (forall t, In t v -> Trip.department t = deptName) ->
  laid_out rt v
    (fst (position_purpose rt deptName deptPos (group_purposes v) purposes
            purpose i n)).
Proof.
  intros Hv. unfold position_purpose. cbv zeta.
  match goal with
  | |- context [GroupNode ?g] => set (group := g)
  end.
  assert (Hs : group_shape group) by (left; now split).
  destruct (OMap.get (group_purposes v) purpose) as [tm|] eqn:E.
  - apply get_grouped in E. subst tm.
    match goal with
    | |- context [forEach ?b ?l ?i ?n] =>
        assert (HL : laid_out rt (under Trip.purpose purpose v)
                       (fst (forEach b l i n)));
        [|destruct (forEach b l i n) as [below n']]
    end.
    + apply laid_out_forEach. intros transport j m _.
      apply position_transport_laid_out. intros t Ht.
      apply under_In in Ht. destruct Ht as [Ht Hk]. auto.
    + simpl fst in *. apply laid_out_cons; [exact Hs|].
      eapply laid_out_incl; [apply under_incl|exact HL].
  - simpl. intros x [<-|[]]. exact Hs.
Qed.

Lemma position_dept_group_laid_out (deptPositions : OMap.t (R * R))
    (v : list Trip.t) (entry : string * purposeMap) (i n : nat) :
  In entry (group_departments v) ->
  laid_out rt v (fst (position_dept_group rt deptPositions entry i n)).
Proof.
  destruct entry as [deptName pm]. intros Hin.
  apply In_grouped in Hin. destruct Hin as [-> _].
  unfold position_dept_group.
  destruct (OMap.get deptPositions deptName) as [deptPos|];
    [|apply laid_out_nil].
  eapply laid_out_incl; [apply (under_incl Trip.department deptName)|].
  apply laid_out_forEach. intros purpose j m _.
  apply position_purpose_laid_out. intros t Ht.
  now apply under_In in Ht.
Qed.

(** What [positionNodes] returns: the departments, placed, in the order
    of the map, followed by group and trip nodes. *)
Lemma positionNodes_nodes (departments : OMap.t Dept.t)
    (trips : list Trip.t) (n : nat) :
  exists below,
    fst (positionNodes rt departments trips n)
    = (map DeptNode (place_departments (OMap.values departments) 0)
         ++ below)%list
    /\ laid_out rt trips below.
Proof.
  unfold positionNodes. cbv zeta. rewrite fold_group_trip.
  match goal with
  | |- context [forEach ?b ?l ?i ?n] =>
      assert (HL : laid_out rt trips (fst (forEach b l i n)));
      [|destruct (forEach b l i n) as [below n']]
  end.
  - apply laid_out_forEach. intros entry i m Hin.
    now apply position_dept_group_laid_out.
  - exists below. split; [reflexivity|exact HL].
Qed.
End LaidOut.

(* ================================================================= *)
(** ** The result of [processEmissionsData] *)

Lemma place_departments_nth (l : list Dept.t) (i0 i : nat) :
  nth_error (place_departments l i0) i
  = option_map (fun d => place_department d (i0 + i)) (nth_error l i).
Proof.
  revert i0 i. induction l as [|d l IH]; intros i0 [|i]; simpl;
    try reflexivity.
  - now rewrite Nat.add_0_r.
  - rewrite IH. now rewrite Nat.add_succ_comm.
Qed.

Section Result.
Variable rt : runtime.

Lemma result_departments (rows : list row) :
  departments (processEmissionsData rt rows)
  = place_departments (map (dept_record rows) (dept_names rows)) 0
  /\ c_departments (counts (processEmissionsData rt rows))
     = List.length (dept_names rows).
Proof.
  unfold processEmissionsData.
  destruct (positionNodes _ _ _ _) as [ns n']. simpl.
  rewrite st_departments_fold. unfold OMap.size, OMap.values, map_values,
    bucket. rewrite !map_map, !length_map. simpl. split; reflexivity.
Qed.

(** The total is the sum over all processed rows, in input order. *)
Lemma result_totalEmissions (rows : list row) :
totalEmissions (processEmissionsData rt rows)
= sum (map row_emission (processed rows)).
Proof.
unfold processEmissionsData.
destruct (positionNodes _ _ _ _) as [ns n']. simpl.
apply st_totalEmissions_fold.
Qed.

Lemma result_nodes (rows : list row) :
  exists below,
    nodes (processEmissionsData rt rows)
    = (map DeptNode (departments (processEmissionsData rt rows))
         ++ below)%list
    /\ laid_out rt (st_trips (fold_left (process_row rt) rows init_state))
         below.
Proof.
  unfold processEmissionsData.
  match goal with
  | |- context [positionNodes rt ?d ?t ?n] =>
      destruct (positionNodes_nodes rt d t n) as (below & E & HL);
      destruct (positionNodes rt d t n) as [ns n']
  end.
  simpl in *. exists below. split; assumption.
Qed.

(** Every trip kept by the loop was made from a processed row. *)
Lemma st_trips_rows (rows : list row) (st : state) (t : Trip.t) :
  In t (st_trips (fold_left (process_row rt) rows st)) ->
  In t (st_trips st)
  \/ exists r, In r (processed rows)
               /\ Trip.department t = row_department r
               /\ Trip.emissions t = row_emission r.
Proof.
  revert st. induction rows as [|r rows IH]; intros st; simpl; [now left|].
  intros H. apply IH in H. unfold processed. simpl.
  destruct (skipped r) eqn:E; simpl.
  - rewrite process_row_skipped in H by assumption. exact H.
  - destruct H as [H|(r' & Hr' & H)].
    + destruct (st_trips_step rt st r E) as (t0 & E0 & Hd & He & _).
      rewrite E0 in H. apply in_app_or in H. destruct H as [H|[<-|[]]].
      * now left.
      * right. exists r. auto.
    + right. exists r'. auto.
Qed.

Lemma dept_record_fields (rows : list row) (deptName : string) (i : nat) :
  let d := place_department (dept_record rows deptName) i in
  Dept.name d = deptName /\
  Dept.id d = "dept_" ++ deptName /\
  Dept.type d = "department" /\
  Dept.emissions d = sum (map row_emission (rows_of deptName rows)) /\
  Dept.tripCount d = List.length (rows_of deptName rows) /\
  Dept.x d = (spacing * sqrt (INR i) * cos (INR i * angleIncrement))%R /\
  Dept.y d = (spacing * sqrt (INR i) * sin (INR i * angleIncrement))%R.
Proof.
  destruct (folded_department deptName (rows_of deptName rows))
    as (H1 & H2 & H3 & H4 & H5).
  simpl. repeat split; assumption.
Qed.

Lemma In_departments (rows : list row) (d : Dept.t) :
  In d (departments (processEmissionsData rt rows)) ->
  exists i deptName,
    nth_error (dept_names rows) i = Some deptName
    /\ d = place_department (dept_record rows deptName) i.
Proof.
  destruct (result_departments rows) as [-> _]. intros H.
  apply In_nth_error in H. destruct H as [i H].
  rewrite place_departments_nth, nth_error_map in H. simpl in H.
  destruct (nth_error (dept_names rows) i) as [deptName|] eqn:E;
    [|discriminate].
  injection H as <-. now exists i, deptName.
Qed.

Lemma result_group_shape (rows : list row) (g : Group.t) :
  In (GroupNode g) (nodes (processEmissionsData rt rows)) -> group_shape g.
Proof.
  destruct (result_nodes rows) as (below & -> & HL). intros Hin.
  apply in_app_or in Hin. destruct Hin as [Hin|Hin].
  - apply in_map_iff in Hin. destruct Hin as (d & [=] & _).
  - exact (HL _ Hin).
Qed.
End Result.

(* ================================================================= *)
(** ** Node identifiers *)

Lemma no_underscore_app (a b : string) :
  no_underscore (a ++ String underscore b) -> False.
Proof.
  induction a as [|c a IH]; simpl.
  - intros [H _]. now apply H.
  - intros [_ H]. now apply IH.
Qed.

(** A string cut at its first underscore. *)
Lemma split_first (a a' x x' : string) :
  no_underscore a -> no_underscore a' ->
  a ++ String underscore x = a' ++ String underscore x' ->
  a = a' /\ x = x'.
Proof.
  revert a'. induction a as [|c a IH]; intros [|c' a']; simpl.
  - intros _ _ [= ->]. now split.
  - intros _ [H _] [= E _]. now symmetry in E.
  - intros [H _] _ [= E _]. contradiction.
  - intros [_ Ha] [_ Ha'] [= -> E].
    destruct (IH a' Ha Ha' E) as [-> ->]. now split.
Qed.

(** A string cut at its last underscore. *)
Lemma split_last (a a' x x' : string) :
  no_underscore x -> no_underscore x' ->
  a ++ String underscore x = a' ++ String underscore x' ->
  a = a' /\ x = x'.
Proof.
  intros Hx Hx'. revert a'. induction a as [|c a IH]; intros [|c' a']; simpl.
  - intros [= ->]. now split.
  - intros [= _ E]. subst x. exfalso. exact (no_underscore_app _ _ Hx).
  - intros [= _ E]. subst x'. exfalso. exact (no_underscore_app _ _ Hx').
  - intros [= -> E]. destruct (IH a' E) as [-> ->]. now split.
Qed.

Lemma append_inv_head (a x x' : string) : a ++ x = a ++ x' -> x = x'.
Proof.
  induction a as [|c a IH]; simpl; [auto|]. intros [= E]. now apply IH.
Qed.

Lemma string_of_uint_no_underscore (d : Decimal.uint) :
  no_underscore (NilEmpty.string_of_uint d).
Proof.
  induction d; simpl; try split; try assumption; try exact I;
    unfold underscore; discriminate.
Qed.

Lemma string_of_nat_no_underscore (k : nat) : no_underscore (string_of_nat k).
Proof. apply string_of_uint_no_underscore. Qed.

Lemma string_of_nat_inj (k k' : nat) :
  string_of_nat k = string_of_nat k' -> k = k'.
Proof.
  unfold string_of_nat. intros E.
  apply DecimalNat.Unsigned.to_uint_inj.
  assert (H : Some (Nat.to_uint k) = Some (Nat.to_uint k')).
  { rewrite <- !NilEmpty.usu. now rewrite E. }
  now injection H.
Qed.

Lemma split_first_sep (a a' x x' : string) :
  no_underscore a -> no_underscore a' ->
  a ++ "_" ++ x = a' ++ "_" ++ x' -> a = a' /\ x = x'.
Proof. exact (split_first a a' x x'). Qed.

Lemma split_last_sep (a a' x x' : string) :
  no_underscore x -> no_underscore x' ->
  a ++ "_" ++ x = a' ++ "_" ++ x' -> a = a' /\ x = x'.
Proof. exact (@split_last a a' x x'). Qed.

Lemma keys_grouped {V : Type} (key : Trip.t -> string) (G : list Trip.t -> V)
    (v : list Trip.t) :
  OMap.keys (map_values (fun _ => G) (bucket key v)) = first_seen (map key v).
Proof. now rewrite keys_map_values, keys_bucket. Qed.

Section ForEachIds.
Context {A C : Type} (f : node -> C).
Variable body : A -> nat -> nat -> list node * nat.
Variable shape : A -> nat -> C -> Prop.

(** Identifiers pushed by a loop: when each iteration pushes distinct
    identifiers that all satisfy [shape a i], and no identifier satisfies [shape]
    at two different positions of the array, the loop as a whole pushes
    distinct identifiers, each satisfying [shape] at some position. *)
Lemma forEach_ids (arr : list A) (i0 n0 : nat) :
  (forall a i n, In a arr ->
     NoDup (map f (fst (body a i n)))
     /\ forall c, In c (map f (fst (body a i n))) -> shape a i c) ->
  (forall i i' a a' c,
     nth_error arr i = Some a -> nth_error arr i' = Some a' -> i <> i' ->
     shape a (i0 + i) c -> shape a' (i0 + i') c -> False) ->
  NoDup (map f (fst (forEach body arr i0 n0)))
  /\ forall c, In c (map f (fst (forEach body arr i0 n0))) ->
       exists i a, nth_error arr i = Some a /\ shape a (i0 + i) c.
Proof.
  revert i0 n0. induction arr as [|a arr IH]; intros i0 n0 Hbody Hdisj; simpl.
  - split; [constructor|intros c []].
  - destruct (Hbody a i0 n0 (or_introl eq_refl)) as [Hnd Hs].
    destruct (body a i0 n0) as [out n1]. simpl in Hnd, Hs.
    destruct (IH (S i0) n1) as [IHnd IHs].
    { intros a' i n Hin. apply Hbody. now right. }
    { intros i i' b b' c Hb Hb' Hne Hc Hc'.
      apply (Hdisj (S i) (S i') b b' c); auto.
      - now rewrite Nat.add_succ_r.
      - now rewrite Nat.add_succ_r. }
    destruct (forEach body arr (S i0) n1) as [outs n2].
    simpl in *. rewrite map_app. split.
    + apply NoDup_app; [assumption..|].
      intros c Hc Hc'. destruct (IHs c Hc') as (i & b & Hb & Hsb).
      apply (Hdisj 0 (S i) a b c); auto.
      * rewrite Nat.add_0_r. now apply Hs.
      * now rewrite Nat.add_succ_r.
    + intros c Hc. apply in_app_or in Hc. destruct Hc as [Hc|Hc].
      * exists 0, a. rewrite Nat.add_0_r. split; [reflexivity|now apply Hs].
      * destruct (IHs c Hc) as (i & b & Hb & Hsb).
        exists (S i), b. rewrite Nat.add_succ_r. now split.
Qed.
End ForEachIds.

Lemma NoDup_map_In_inj {A B : Type} (f : A -> B) (l : list A) (x y : A) :
  NoDup (map f l) -> In x l -> In y l -> f x = f y -> x = y.
Proof.
  induction l as [|a l IH]; simpl; [tauto|].
  intros Hnd Hx Hy E. inversion Hnd as [|? ? Hnin Hnd']; subst.
  destruct Hx as [->|Hx], Hy as [->|Hy].
  - reflexivity.
  - exfalso. apply Hnin. rewrite E. now apply in_map.
  - exfalso. apply Hnin. rewrite <- E. now apply in_map.
  - now apply IH.
Qed.

(** Filing under a key keeps identifiers distinct. *)
Lemma under_NoDup {T U : Type} (key : T -> string) (ident : T -> U)
    (k : string) (v : list T) :
  NoDup (map ident v) -> NoDup (map ident (under key k v)).
Proof.
  unfold under. induction v as [|t v IH]; simpl; [auto|].
  intros Hnd. inversion Hnd as [|? ? Hnin Hnd']; subst.
  destruct (String.eqb (key t) k); simpl; [|now apply IH].
  constructor; [|now apply IH].
  intros Hin. apply Hnin. apply in_map_iff in Hin.
  destruct Hin as (x & E & Hx). apply filter_In in Hx.
  apply in_map_iff. exists x. tauto.
Qed.

Lemma trips_ok_under (key : Trip.t -> string) (k : string) (v : list Trip.t) :
  trips_ok v -> trips_ok (under key k v).
Proof.
  intros [Hnd Hp]. split.
  - now apply under_NoDup.
  - intros t Ht. apply Hp. now apply under_In in Ht.
Qed.

Lemma trips_ok_inj (v : list Trip.t) (t t' : Trip.t) :
  trips_ok v -> In t v -> In t' v -> Trip.id t = Trip.id t' -> t = t'.
Proof. intros [Hnd _]. now apply NoDup_map_In_inj. Qed.

Lemma trip_id_under_mono (key key' : Trip.t -> string) (k k' : string)
    (v : list Trip.t) (c : string) :
  trip_id_under key k (under key' k' v) c ->
  trip_id_under key' k' v c /\ trip_id_under key k v c.
Proof.
  intros (t & Ht & Hk & ->). apply under_In in Ht. destruct Ht as [Ht Hk'].
  split; exists t; auto.
Qed.

(** Identifiers of different kinds differ in their first characters. *)
Ltac differ H :=
  exfalso; unfold group_id, trans_id, route_id in H; simpl in H;
  discriminate H.

Ltac differ_trip H E :=
  exfalso; rewrite E in H; unfold group_id, trans_id, route_id in H;
  simpl in H; discriminate H.

Lemma nth_error_NoDup_eq {A : Type} (l : list A) (i i' : nat) (a : A) :
  NoDup l -> nth_error l i = Some a -> nth_error l i' = Some a -> i = i'.
Proof.
  intros Hnd Hi Hi'. apply (proj1 (NoDup_nth_error l) Hnd).
  - apply nth_error_Some. rewrite Hi. discriminate.
  - now rewrite Hi, Hi'.
Qed.

Section Ids.
Variable rt : runtime.

Lemma position_trips_ids (routeX routeY : R) (tripList : list Trip.t) (n : nat) :
  map Node.id (fst (position_trips rt routeX routeY tripList n))
  = map Trip.id tripList.
Proof.
  unfold position_trips. generalize 0 at 1. revert n.
  induction tripList as [|t l IH]; intros n i; simpl; [reflexivity|].
  specialize (IH (S (S n)) (S i)).
  destruct (forEach _ l (S i) (S (S n))) as [outs n2]. simpl in *.
  now rewrite IH.
Qed.

Lemma position_route_ids (deptName purpose transport : string)
    (transportX transportY : R) (v : list Trip.t) (routes : list string)
    (route : string) (k n : nat) :
  trips_ok v ->
  NoDup (map Node.id
           (fst (position_route rt deptName purpose transport
                   transportX transportY (group_routes v) routes route k n)))
  /\ forall c,
       In c (map Node.id
               (fst (position_route rt deptName purpose transport
                       transportX transportY (group_routes v) routes
                       route k n))) ->
       c = route_id deptName purpose transport k
       \/ trip_id_under route_key route v c.
Proof.
  intros Hok. unfold position_route. cbv zeta.
  destruct (OMap.get (group_routes v) route) as [tripList|] eqn:E.
  - match goal with
    | |- context [position_trips rt ?x ?y ?l ?n] =>
        pose proof (position_trips_ids x y l n) as Hids;
        destruct (position_trips rt x y l n) as [placed n']
    end.
    simpl fst in *. simpl map. rewrite Hids.
    unfold group_routes in E. rewrite get_bucket in E.
    destruct (existsb _ _); [|discriminate]. injection E as <-.
    fold (route_id deptName purpose transport k).
    split.
    + constructor.
      * intros Hin. apply in_map_iff in Hin. destruct Hin as (t & Et & Ht).
        apply under_In in Ht. destruct Ht as [Ht _].
        destruct (proj2 Hok t Ht) as [s Es]. symmetry in Et.
        differ_trip Et Es.
      * apply (trips_ok_under route_key route Hok).
    + intros c [<-|Hin]; [now left|]. right.
      apply in_map_iff in Hin. destruct Hin as (t & <- & Ht).
      apply under_In in Ht. destruct Ht as [Ht Hk]. now exists t.
  - simpl. fold (route_id deptName purpose transport k). split.
    + constructor; [intros []|constructor].
    + intros c [<-|[]]. now left.
Qed.

Lemma In_first_seen_key (key : Trip.t -> string) (v : list Trip.t) (k : string) :
  In k (first_seen (map key v)) -> exists t, In t v /\ key t = k.
Proof.
  rewrite first_seen_In, in_map_iff. intros (t & E & Ht). now exists t.
Qed.

Lemma position_transport_ids (deptName purpose : string)
    (purposeX purposeY : R) (v : list Trip.t) (transports : list string)
    (transport : string) (j n : nat) :
  trips_ok v ->
  NoDup (map Node.id
           (fst (position_transport rt deptName purpose purposeX purposeY
                   (group_transports v) transports transport j n)))
  /\ forall c,
       In c (map Node.id
               (fst (position_transport rt deptName purpose purposeX purposeY
                       (group_transports v) transports transport j n))) ->
       c = trans_id deptName purpose transport
       \/ (exists k, c = route_id deptName purpose transport k)
       \/ trip_id_under transport_key transport v c.
Proof.
  intros Hok. unfold position_transport. cbv zeta.
  destruct (OMap.get (group_transports v) transport) as [rm|] eqn:E.
  - apply get_grouped in E. subst rm.
    set (v' := under transport_key transport v).
    assert (Hok' : trips_ok v') by now apply trips_ok_under.
    match goal with
    | |- context [forEach ?b ?l ?i ?n] =>
        destruct (forEach_ids Node.id b
                    (fun route k c =>
                       c = route_id deptName purpose transport k
                       \/ trip_id_under route_key route v' c) l i n)
          as [Hnd Hs];
        [| |destruct (forEach b l i n) as [below n']]
    end.
    + intros route k m _. now apply position_route_ids.
    + intros i i' a a' c Ha Ha' Hne [Hc|Hc] [Hc'|Hc']; simpl in *.
      * subst c. unfold route_id in Hc'.
        repeat apply append_inv_head in Hc'.
        apply string_of_nat_inj in Hc'. congruence.
      * destruct Hc' as (t & Ht & _ & Et).
        destruct (proj2 Hok' t Ht) as [s Es]. rewrite Hc, Es in Et. differ Et.
      * destruct Hc as (t & Ht & _ & Et).
        destruct (proj2 Hok' t Ht) as [s Es]. rewrite Hc', Es in Et. differ Et.
      * destruct Hc as (t & Ht & Hk & Et), Hc' as (t' & Ht' & Hk' & Et').
        assert (t = t') by (apply (@trips_ok_inj v' t t' Hok'); congruence).
        subst t'. apply Hne.
        apply (@nth_error_NoDup_eq _ (OMap.keys (group_routes v')) i i' a);
          [|assumption|congruence].
        unfold group_routes. rewrite keys_bucket. apply first_seen_NoDup.
    + simpl fst in *. simpl map.
      fold (trans_id deptName purpose transport). split.
      * constructor; [|assumption]. intros Hin.
        destruct (Hs _ Hin) as (i & a & _ & [Hc|(t & Ht & _ & Et)]).
        -- differ Hc.
        -- destruct (proj2 Hok' t Ht) as [s Es]. differ_trip Et Es.
      * intros c [<-|Hin]; [now left|]. right.
        destruct (Hs _ Hin) as (i & a & _ & [Hc|Hc]).
        -- left. now exists (0 + i).
        -- right. now apply trip_id_under_mono in Hc.
  - simpl. fold (trans_id deptName purpose transport). split.
    + constructor; [intros []|constructor].
    + intros c [<-|[]]. now left.
Qed.

Lemma position_purpose_ids (deptName : string) (deptPos : R * R)
    (v : list Trip.t) (purposes : list string) (purpose : string) (i n : nat) :
  trips_ok v ->
  NoDup (map Node.id
           (fst (position_purpose rt deptName deptPos (group_purposes v)
                   purposes purpose i n)))
  /\ forall c,
       In c (map Node.id
               (fst (position_purpose rt deptName deptPos (group_purposes v)
                       purposes purpose i n))) ->
       c = group_id deptName purpose
       \/ (exists t, c = trans_id deptName purpose t)
       \/ (exists t k, c = route_id deptName purpose t k)
       \/ trip_id_under Trip.purpose purpose v c.
Proof.
  intros Hok. unfold position_purpose. cbv zeta.
  destruct (OMap.get (group_purposes v) purpose) as [tm|] eqn:E.
  - apply get_grouped in E. subst tm.
    set (v' := under Trip.purpose purpose v).
    assert (Hok' : trips_ok v') by now apply trips_ok_under.
    match goal with
    | |- context [forEach ?b ?l ?i ?n] =>
        destruct (forEach_ids Node.id b
                    (fun transport (j : nat) c =>
                       c = trans_id deptName purpose transport
                       \/ (exists k, c = route_id deptName purpose transport k)
                       \/ trip_id_under transport_key transport v' c) l i n)
          as [Hnd Hs];
        [| |destruct (forEach b l i n) as [below n']]
    end.
    + intros transport j m _. now apply position_transport_ids.
    + intros j j' a a' c Ha Ha' Hne Hc Hc'.
      assert (Haa : a <> a').
      { intros <-. apply Hne.
        apply (@nth_error_NoDup_eq _ (OMap.keys (group_transports v')) j j' a);
          [|assumption..].
        unfold group_transports. rewrite keys_grouped. apply first_seen_NoDup. }
      destruct Hc as [Hc|[[k Hc]|(t & Ht & Hk & Et)]];
        destruct Hc' as [Hc'|[[k' Hc']|(t' & Ht' & Hk' & Et')]];
        try (destruct (proj2 Hok' t Ht) as [s Es]);
        try (destruct (proj2 Hok' t' Ht') as [s' Es']).
      * rewrite Hc in Hc'. unfold trans_id in Hc'.
        repeat apply append_inv_head in Hc'. congruence.
      * rewrite Hc in Hc'. differ Hc'.
      * rewrite Hc, Es' in Et'. differ Et'.
      * rewrite Hc in Hc'. differ Hc'.
      * rewrite Hc in Hc'. unfold route_id in Hc'.
        do 5 apply append_inv_head in Hc'.
        apply split_last_sep in Hc';
          [tauto|apply string_of_nat_no_underscore..].
      * rewrite Hc, Es' in Et'. differ Et'.
      * rewrite Hc', Es in Et. differ Et.
      * rewrite Hc', Es in Et. differ Et.
      * assert (t = t') by (apply (@trips_ok_inj v' t t' Hok'); congruence).
        congruence.
    + simpl fst in *. simpl map.
      fold (group_id deptName purpose). split.
      * constructor; [|assumption]. intros Hin.
        destruct (Hs _ Hin) as (j & a & _ & [Hc|[[k Hc]|(t & Ht & _ & Et)]]).
        -- differ Hc.
        -- differ Hc.
        -- destruct (proj2 Hok' t Ht) as [s Es]. differ_trip Et Es.
      * intros c [<-|Hin]; [now left|]. right.
        destruct (Hs _ Hin) as (j & a & _ & [Hc|[[k Hc]|Hc]]).
        -- left. now exists a.
        -- right. left. now exists a, k.
        -- right. right. now apply trip_id_under_mono in Hc.
  - simpl. fold (group_id deptName purpose). split.
    + constructor; [intros []|constructor].
    + intros c [<-|[]]. now left.
Qed.

Lemma position_dept_group_ids (deptPositions : OMap.t (R * R))
    (v : list Trip.t) (entry : string * purposeMap) (i n : nat) :
  trips_ok v ->
  (forall t, In t v -> no_underscore (Trip.purpose t)) ->
  In entry (group_departments v) ->
  NoDup (map Node.id (fst (position_dept_group rt deptPositions entry i n)))
  /\ forall c,
       In c (map Node.id
               (fst (position_dept_group rt deptPositions entry i n))) ->
       (exists p, c = group_id (fst entry) p)
       \/ (exists p t, c = trans_id (fst entry) p t)
       \/ (exists p t k, c = route_id (fst entry) p t k)
       \/ trip_id_under Trip.department (fst entry) v c.
Proof.
  intros Hok Hus Hin. destruct entry as [deptName pm].
  apply In_grouped in Hin. destruct Hin as [-> _]. simpl fst.
  unfold position_dept_group.
  destruct (OMap.get deptPositions deptName) as [deptPos|].
  2:{ simpl. split; [constructor|intros c []]. }
  set (v' := under Trip.department deptName v).
  assert (Hok' : trips_ok v') by now apply trips_ok_under.
  match goal with
  | |- context [forEach ?b ?l ?i ?n] =>
      destruct (forEach_ids Node.id b
                  (fun purpose (j : nat) c =>
                     c = group_id deptName purpose
                     \/ (exists t, c = trans_id deptName purpose t)
                     \/ (exists t k, c = route_id deptName purpose t k)
                     \/ trip_id_under Trip.purpose purpose v' c) l i n)
        as [Hnd Hs]
  end.
  - intros purpose j m _. now apply position_purpose_ids.
  - intros j j' a a' c Ha Ha' Hne Hc Hc'.
    assert (Hkeys : OMap.keys (group_purposes v')
                    = first_seen (map Trip.purpose v')).
    { unfold group_purposes. apply keys_grouped. }
    assert (Haa : a <> a').
    { intros <-. apply Hne.
      apply (@nth_error_NoDup_eq _ (OMap.keys (group_purposes v')) j j' a);
        [|assumption..].
      rewrite Hkeys. apply first_seen_NoDup. }
    assert (Hua : no_underscore a).
    { apply nth_error_In in Ha. rewrite Hkeys in Ha.
      apply In_first_seen_key in Ha. destruct Ha as (t & Ht & <-).
      apply Hus. now apply under_In in Ht. }
    assert (Hua' : no_underscore a').
    { apply nth_error_In in Ha'. rewrite Hkeys in Ha'.
      apply In_first_seen_key in Ha'. destruct Ha' as (t & Ht & <-).
      apply Hus. now apply under_In in Ht. }
    destruct Hc as [Hc|[[t1 Hc]|[(t1 & k & Hc)|(t & Ht & Hk & Et)]]];
      destruct Hc' as [Hc'|[[t1' Hc']|[(t1' & k' & Hc')|(t' & Ht' & Hk' & Et')]]];
      try (destruct (proj2 Hok' t Ht) as [s Es]);
      try (destruct (proj2 Hok' t' Ht') as [s' Es']);
      try (rewrite Hc in Hc'; differ Hc');
      try (rewrite Hc, Es' in Et'; differ Et');
      try (rewrite Hc', Es in Et; differ Et).
    + rewrite Hc in Hc'. unfold group_id in Hc'.
      repeat apply append_inv_head in Hc'. congruence.
    + rewrite Hc in Hc'. unfold trans_id in Hc'.
      do 3 apply append_inv_head in Hc'.
      apply split_first_sep in Hc'; tauto.
    + rewrite Hc in Hc'. unfold route_id in Hc'.
      do 3 apply append_inv_head in Hc'.
      apply split_first_sep in Hc'; tauto.
    + assert (t = t') by (apply (@trips_ok_inj v' t t' Hok'); congruence).
      congruence.
  - split; [assumption|]. intros c Hc.
    destruct (Hs _ Hc) as (j & a & _ & [H|[[t H]|[(t & k & H)|H]]]).
    + left. now exists a.
    + right. left. now exists a, t.
    + right. right. left. now exists a, t, k.
    + right. right. right. now apply trip_id_under_mono in H.
Qed.

(** Everything [positionNodes] pushes after the departments. *)
Lemma groups_ids (deptPositions : OMap.t (R * R)) (v : list Trip.t) (n : nat) :
  trips_ok v ->
  (forall t, In t v -> no_underscore (Trip.department t)
                       /\ no_underscore (Trip.purpose t)) ->
  NoDup (map Node.id
           (fst (forEach (position_dept_group rt deptPositions)
                   (group_departments v) 0 n)))
  /\ forall c,
       In c (map Node.id
               (fst (forEach (position_dept_group rt deptPositions)
                       (group_departments v) 0 n))) ->
       (exists d p, c = group_id d p)
       \/ (exists d p t, c = trans_id d p t)
       \/ (exists d p t k, c = route_id d p t k)
       \/ (exists s, c = "trip_" ++ s).
Proof.
  intros Hok Hus.
  destruct (forEach_ids Node.id (position_dept_group rt deptPositions)
              (fun (entry : string * purposeMap) (j : nat) c =>
                 (exists p, c = group_id (fst entry) p)
                 \/ (exists p t, c = trans_id (fst entry) p t)
                 \/ (exists p t k, c = route_id (fst entry) p t k)
                 \/ trip_id_under Trip.department (fst entry) v c)
              (group_departments v) 0 n) as [Hnd Hs].
  - intros entry j m Hin. apply position_dept_group_ids; auto.
    intros t Ht. now apply Hus.
  - intros j j' [a pm] [a' pm'] c Ha Ha' Hne Hc Hc'. simpl fst in *.
    assert (Hkeys : OMap.keys (group_departments v)
                    = first_seen (map Trip.department v)).
    { unfold group_departments. apply keys_grouped. }
    assert (Hka : nth_error (OMap.keys (group_departments v)) j = Some a).
    { unfold OMap.keys. rewrite nth_error_map, Ha. reflexivity. }
    assert (Hka' : nth_error (OMap.keys (group_departments v)) j' = Some a').
    { unfold OMap.keys. rewrite nth_error_map, Ha'. reflexivity. }
    assert (Haa : a <> a').
    { intros <-. apply Hne.
      apply (@nth_error_NoDup_eq _ (OMap.keys (group_departments v)) j j' a);
        [|assumption..].
      rewrite Hkeys. apply first_seen_NoDup. }
    assert (Hua : no_underscore a).
    { apply nth_error_In in Hka. rewrite Hkeys in Hka.
      apply In_first_seen_key in Hka. destruct Hka as (t & Ht & <-).
      now apply Hus. }
    assert (Hua' : no_underscore a').
    { apply nth_error_In in Hka'. rewrite Hkeys in Hka'.
      apply In_first_seen_key in Hka'. destruct Hka' as (t & Ht & <-).
      now apply Hus. }
    destruct Hc as [[p Hc]|[(p & t1 & Hc)|[(p & t1 & k & Hc)|(t & Ht & Hk & Et)]]];
      destruct Hc' as [[p' Hc']|[(p' & t1' & Hc')|[(p' & t1' & k' & Hc')
                                                  |(t' & Ht' & Hk' & Et')]]];
      try (destruct (proj2 Hok t Ht) as [s Es]);
      try (destruct (proj2 Hok t' Ht') as [s' Es']);
      try (rewrite Hc in Hc'; differ Hc');
      try (rewrite Hc, Es' in Et'; differ Et');
      try (rewrite Hc', Es in Et; differ Et).
    + rewrite Hc in Hc'. unfold group_id in Hc'.
      apply append_inv_head in Hc'. apply split_first_sep in Hc'; tauto.
    + rewrite Hc in Hc'. unfold trans_id in Hc'.
      apply append_inv_head in Hc'. apply split_first_sep in Hc'; tauto.
    + rewrite Hc in Hc'. unfold route_id in Hc'.
      apply append_inv_head in Hc'. apply split_first_sep in Hc'; tauto.
    + assert (t = t') by (apply (@trips_ok_inj v t t' Hok); congruence).
      congruence.
  - split; [assumption|]. intros c Hc.
    destruct (Hs _ Hc)
      as (j & [a pm] & _ & [[p H]|[(p & t & H)|[(p & t & k & H)
                                               |(t & Ht & _ & H)]]]);
      simpl fst in *.
    + left. now exists a, p.
    + right. left. now exists a, p, t.
    + right. right. left. now exists a, p, t, k.
    + right. right. right. destruct (proj2 Hok t Ht) as [s Es].
      exists s. congruence.
Qed.
End Ids.

Lemma NoDup_map_injective {A B : Type} (f : A -> B) (l : list A) :
  (forall x y, f x = f y -> x = y) -> NoDup l -> NoDup (map f l).
Proof.
  intros Hinj. induction 1 as [|a l Hnin Hnd IH]; simpl; constructor.
  - intros Hin. apply in_map_iff in Hin. destruct Hin as (x & E & Hx).
    apply Hinj in E. now subst.
  - exact IH.
Qed.

Lemma place_departments_ids (l : list Dept.t) (i0 : nat) :
  map Dept.id (place_departments l i0) = map Dept.id l.
Proof.
  revert i0. induction l as [|d l IH]; intros i0; simpl; [reflexivity|].
  now rewrite IH.
Qed.

Section ResultIds.
Variable rt : runtime.

Lemma positionNodes_ids (departments : OMap.t Dept.t) (trips : list Trip.t)
    (n : nat) :
  trips_ok trips ->
  (forall t, In t trips -> no_underscore (Trip.department t)
                           /\ no_underscore (Trip.purpose t)) ->
  NoDup (map Dept.id (OMap.values departments)) ->
  (forall d, In d (OMap.values departments) ->
             exists s, Dept.id d = "dept_" ++ s) ->
  NoDup (map Node.id (fst (positionNodes rt departments trips n))).
Proof.
  intros Hok Hus Hnd Hpre. unfold positionNodes. cbv zeta.
  rewrite fold_group_trip.
  match goal with
  | |- context [forEach (position_dept_group rt ?dp) ?l 0 ?n] =>
      destruct (groups_ids rt dp n Hok Hus) as [Hg Hs];
      destruct (forEach (position_dept_group rt dp) l 0 n) as [below n']
  end.
  simpl fst in *. rewrite map_app, map_map. simpl.
  change (map (fun x => Dept.id x) ?l) with (map Dept.id l).
  rewrite place_departments_ids. apply NoDup_app; [assumption..|].
  intros c Hc Hc'. apply in_map_iff in Hc. destruct Hc as (d & <- & Hd).
  destruct (Hpre d Hd) as [s Es].
  destruct (Hs _ Hc') as [(a & p & H)|[(a & p & t & H)|[(a & p & t & k & H)
                                                        |(s' & H)]]];
    rewrite Es in H.
  - differ H.
  - differ H.
  - differ H.
  - simpl in H. discriminate H.
Qed.

Lemma st_trips_fields (rows : list row) (st : state) :
  (forall r, In r (processed rows) -> text_truthy (Trip_ID r) = true) ->
  map Trip.id (st_trips (fold_left (process_row rt) rows st))
  = (map Trip.id (st_trips st)
       ++ map trip_id_of (processed rows))%list
  /\ forall t, In t (st_trips (fold_left (process_row rt) rows st)) ->
       In t (st_trips st)
       \/ exists r, In r (processed rows)
                    /\ Trip.department t = row_department r
                    /\ Trip.purpose t = text_or (Purpose r) "Other".
Proof.
  revert st. induction rows as [|r rows IH]; intros st Hid; simpl.
  - split; [now rewrite app_nil_r|now left].
  - unfold processed in *. simpl in *.
    destruct (skipped r) eqn:E; simpl in *.
    + rewrite process_row_skipped by assumption. now apply IH.
    + destruct (IH (process_row rt st r)) as [IH1 IH2]; [auto|].
      destruct (st_trips_step rt st r E)
        as (t0 & E0 & Hd & _ & Hi & Hp & _).
      rewrite E0 in *. split.
      * rewrite IH1, map_app, <- app_assoc. simpl. f_equal. f_equal.
        rewrite Hi. specialize (Hid r (or_introl eq_refl)).
        unfold trip_id_of, text_truthy, text_or in *.
        destruct (Trip_ID r) as [x|]; [|discriminate]. now rewrite Hid.
      * intros t Ht. destruct (IH2 t Ht) as [H|(r' & Hr' & H)].
        -- apply in_app_or in H. destruct H as [H|[<-|[]]]; [now left|].
           right. exists r. auto.
        -- right. exists r'. auto.
Qed.
End ResultIds.

(* ================================================================= *)
(** ** Aggregates, skipped rows and department placement *)

(** C1 (as the code has it). Every department node carries the sum of the
    emissions of the rows assigned to it, added in input order, and their
    number; every trip node carries the emission of one of the rows of its
    department.  Purpose, transport and route group nodes carry no
    emissions and no count at all: they are one of the three group kinds,
    each with its fixed radius. *)
Theorem department_sum_invariant :
  forall (rt : runtime) (rawData : list row) (n : node),
    In n (nodes (processEmissionsData rt rawData)) ->
    match n with
    | DeptNode d =>
        Node.type n = "department"
        /\ Dept.emissions d
           = sum (map row_emission (rows_of (Dept.name d) rawData))
        /\ Dept.tripCount d = List.length (rows_of (Dept.name d) rawData)
    | GroupNode g =>
        group_shape g /\ Node.emissions n = None /\ Node.tripCount n = None
    | TripNode t =>
        exists r, In r (rows_of (Trip.department t) rawData)
                  /\ Trip.emissions t = row_emission r
    end.
Proof.
  intros rt rows n Hin.
  destruct (result_nodes rt rows) as (below & E & HL).
  rewrite E in Hin. apply in_app_or in Hin. destruct Hin as [Hin|Hin].
  - apply in_map_iff in Hin. destruct Hin as (d & <- & Hd).
    apply In_departments in Hd. destruct Hd as (i & deptName & _ & ->).
    destruct (dept_record_fields rows deptName i)
      as (H1 & _ & H3 & H4 & H5 & _).
    rewrite H1. auto.
  - specialize (HL n Hin). destruct n as [d|g|t']; [contradiction|auto|].
    destruct HL as (t & k & g & Ht & _ & _ & ->).
    apply st_trips_rows in Ht. destruct Ht as [[]|(r & Hr & Hd & He)].
    exists r. split; [|exact He].
    unfold rows_of. apply under_In. simpl. auto.
Qed.

Lemma department_sum_invariant_witness :
  match nth 0 nodes_engineering dummy_node with
  | DeptNode d =>
      Node.type (nth 0 nodes_engineering dummy_node) = "department"
      /\ Dept.emissions d
         = sum (map row_emission (rows_of (Dept.name d) [row_engineering]))
      /\ Dept.tripCount d
         = List.length (rows_of (Dept.name d) [row_engineering])
  | GroupNode g =>
      group_shape g
      /\ Node.emissions (nth 0 nodes_engineering dummy_node) = None
      /\ Node.tripCount (nth 0 nodes_engineering dummy_node) = None
  | TripNode t =>
      exists r, In r (rows_of (Trip.department t) [row_engineering])
                /\ Trip.emissions t = row_emission r
  end.
Proof.
  apply (@department_sum_invariant rt0 [row_engineering]
           (nth 0 nodes_engineering dummy_node)).
  apply nth_In. vm_compute. lia.
Defined.

(** C1, as stated, fails at the group levels: after the single row of
    Scenario 1 the purpose, transport and route group nodes have no
    emissions field, although the one trip below them carries 500, and
    their radius is a constant that is not that sum. *)
Lemma group_nodes_carry_no_sum :
  map (fun n => (Node.type n, Node.emissions n)) nodes_engineering
  = [ ("department", Some (Fin 500)); ("purpose-group", None);
      ("transport-group", None); ("route-group", None);
      ("trip", Some (Fin 500)) ]
  /\ ~ (forall n, In n nodes_engineering ->
                  Node.type n = "purpose-group" ->
                  Node.emissions n = Some (Fin 500))
  /\ (forall g, In (GroupNode g) nodes_engineering ->
                Group.radius g <> 500%R).
Proof.
  split; [vm_compute; reflexivity|]. split.
  - intros H.
    specialize (H (nth 1 nodes_engineering dummy_node)).
    assert (Hin : In (nth 1 nodes_engineering dummy_node) nodes_engineering)
      by (apply nth_In; vm_compute; lia).
    specialize (H Hin eq_refl). vm_compute in H. discriminate.
  - intros g Hin.
    pose proof (@result_group_shape rt0 [row_engineering] g Hin) as Hs.
    unfold group_shape, PURPOSE_GROUP_RADIUS, TRANSPORT_GROUP_RADIUS,
      ROUTE_GROUP_RADIUS in Hs.
    destruct Hs as [[_ ->]|[[_ ->]|[_ ->]]]; lra.
Qed.

(** C7. A row whose department cell is missing (or empty) is skipped: the
    whole result (nodes, departments, total emissions, counts) is the one
    obtained without the row, and the number of trips processed is one
    less than with a complete row [r'] in its place. *)
Theorem missing_department_skipped :
  forall (rt : runtime) (pre post : list row) (r r' : row),
    text_truthy (Business_Dept r) = false ->
    skipped r' = false ->
    processEmissionsData rt (pre ++ r :: post)
    = processEmissionsData rt (pre ++ post)
    /\ S (c_trips (counts (processEmissionsData rt (pre ++ r :: post))))
       = c_trips (counts (processEmissionsData rt (pre ++ r' :: post))).
Proof.
  intros rt pre post r r' Hr Hr'.
  assert (Hs : skipped r = true) by (unfold skipped; now rewrite Hr).
  split; [now apply processEmissionsData_skip|].
  rewrite !counts_trips, processed_skip, processed_keep by assumption.
  unfold processed. rewrite filter_app, !length_app. simpl. lia.
Qed.

Lemma missing_department_skipped_witness :
  processEmissionsData rt0 ([row_engineering] ++ row_no_department :: [])
  = processEmissionsData rt0 ([row_engineering] ++ [])
  /\ S (c_trips (counts (processEmissionsData rt0
                           ([row_engineering] ++ row_no_department :: []))))
     = c_trips (counts (processEmissionsData rt0
                          ([row_engineering] ++ row_sales :: []))).
Proof.
  apply (@missing_department_skipped rt0 [row_engineering] []
           row_no_department row_sales); reflexivity.
Defined.

(** C6. Departments come in the order in which the processed rows first
    mention them, and the [i]-th one (from 0) is the [i]-th node, placed at
    [x = r cos theta], [y = r sin theta] with [r = 700 sqrt i] and
    [theta = i * 137.508] degrees in radians.  The placed departments do not
    depend on the random source, so running the layout again on the same
    input gives the same department positions. *)
Theorem department_placement :
  forall (rt : runtime) (rawData : list row) (i : nat) (deptName : string),
    nth_error (dept_names rawData) i = Some deptName ->
    exists d,
      nth_error (nodes (processEmissionsData rt rawData)) i = Some (DeptNode d)
      /\ nth_error (departments (processEmissionsData rt rawData)) i = Some d
      /\ Dept.name d = deptName
      /\ Dept.x d = (700 * sqrt (INR i)
                     * cos (INR i * (137.508 * (PI / 180))))%R
      /\ Dept.y d = (700 * sqrt (INR i)
                     * sin (INR i * (137.508 * (PI / 180))))%R
      /\ forall rt', departments (processEmissionsData rt' rawData)
                     = departments (processEmissionsData rt rawData).
Proof.
  intros rt rows i deptName Hi.
  exists (place_department (dept_record rows deptName) i).
  destruct (dept_record_fields rows deptName i) as (H1 & _ & _ & _ & _ & Hx & Hy).
  assert (Hd : nth_error (departments (processEmissionsData rt rows)) i
               = Some (place_department (dept_record rows deptName) i)).
  { destruct (result_departments rt rows) as [-> _].
    rewrite place_departments_nth, nth_error_map, Hi. reflexivity. }
  split; [|split; [exact Hd|]].
  - destruct (result_nodes rt rows) as (below & -> & _).
    rewrite nth_error_app1.
    + rewrite nth_error_map, Hd. reflexivity.
    + rewrite length_map. apply nth_error_Some. rewrite Hd. discriminate.
  - split; [exact H1|]. split; [exact Hx|]. split; [exact Hy|].
    intros rt'. destruct (result_departments rt rows) as [-> _].
    destruct (result_departments rt' rows) as [-> _]. reflexivity.
Qed.

Lemma department_placement_witness :
  exists d,
    nth_error (nodes (processEmissionsData rt0 [row_engineering; row_sales])) 1
    = Some (DeptNode d)
    /\ nth_error (departments
                    (processEmissionsData rt0 [row_engineering; row_sales])) 1
       = Some d
    /\ Dept.name d = "Sales"
    /\ Dept.x d = (700 * sqrt (INR 1) * cos (INR 1 * (137.508 * (PI / 180))))%R
    /\ Dept.y d = (700 * sqrt (INR 1) * sin (INR 1 * (137.508 * (PI / 180))))%R
    /\ forall rt', departments
                     (processEmissionsData rt' [row_engineering; row_sales])
                   = departments
                       (processEmissionsData rt0 [row_engineering; row_sales]).
Proof.
  apply (@department_placement rt0 [row_engineering; row_sales] 1 "Sales").
  reflexivity.
Defined.

(** ** Uniqueness of identifiers *)

Lemma NoDup_map_compat {A B C : Type} (f : A -> B) (g : A -> C) (l : list A) :
  (forall x y, In x l -> In y l -> g x = g y -> f x = f y) ->
  NoDup (map f l) -> NoDup (map g l).
Proof.
  induction l as [|a l IH]; simpl; intros Hc Hnd; [constructor|].
  inversion Hnd as [|? ? Hnin Hnd']; subst. constructor.
  - intros Hin. apply in_map_iff in Hin. destruct Hin as (x & E & Hx).
    apply Hnin. rewrite <- (Hc x a); auto. now apply in_map.
  - apply IH; auto.
Qed.

Lemma dept_ids (rt : runtime) (rows : list row) :
  map Dept.id
    (OMap.values
       (map (fun kv => (fst kv, with_radius (snd kv)))
          (st_departments (fold_left (process_row rt) rows init_state))))
  = map (fun k => "dept_" ++ k) (dept_names rows).
Proof.
  rewrite st_departments_fold. unfold OMap.values, map_values, bucket,
    dept_names. rewrite !map_map. apply map_ext. intros k. simpl.
  apply (folded_department k).
Qed.

(** C3 (as the code has it). The identifiers of all nodes are pairwise
    distinct when every processed row carries a trip identifier, these
    are pairwise distinct, and no department name or purpose contains an
    underscore. *)
Theorem node_ids_distinct :
  forall (rt : runtime) (rawData : list row),
    (forall r, In r (processed rawData) ->
       text_truthy (Trip_ID r) = true
       /\ no_underscore (row_department r)
       /\ no_underscore (text_or (Purpose r) "Other")) ->
    NoDup (map Trip_ID (processed rawData)) ->
    NoDup (map Node.id (nodes (processEmissionsData rt rawData))).
Proof.
  intros rt rows Hrows Hids.
  assert (Htid : forall r, In r (processed rows) ->
                           text_truthy (Trip_ID r) = true).
  { intros r Hr. now apply Hrows. }
  destruct (st_trips_fields rt rows init_state Htid) as [Eids Hfields].
  simpl in Eids.
  assert (Hok : trips_ok (st_trips (fold_left (process_row rt) rows init_state))).
  { split.
    - rewrite Eids. revert Hids. apply NoDup_map_compat.
      intros x y Hx Hy E. unfold trip_id_of in E.
      apply append_inv_head in E.
      pose proof (Htid x Hx) as Tx. pose proof (Htid y Hy) as Ty.
      unfold text_truthy, text_or in *.
      destruct (Trip_ID x) as [a|], (Trip_ID y) as [b|]; try discriminate.
      rewrite Tx, Ty in E. now subst.
    - intros t Ht. apply (in_map Trip.id) in Ht. rewrite Eids in Ht.
      apply in_map_iff in Ht. destruct Ht as (r & E & _).
      exists (text_or (Trip_ID r) EmptyString). now rewrite <- E. }
  unfold processEmissionsData.
  match goal with
  | |- context [positionNodes rt ?d ?t ?n] =>
      pose proof (@positionNodes_ids rt d t n Hok) as H;
      destruct (positionNodes rt d t n) as [ns n']
  end.
  simpl in *. apply H.
  - intros t Ht. destruct (Hfields t Ht) as [[]|(r & Hr & -> & ->)].
    split; now apply Hrows.
  - rewrite dept_ids. apply NoDup_map_injective.
    + intros x y E. now apply append_inv_head in E.
    + apply first_seen_NoDup.
  - intros d Hd. apply (in_map Dept.id) in Hd. rewrite dept_ids in Hd.
    apply in_map_iff in Hd. destruct Hd as (k & <- & _). now exists k.
Qed.

Lemma node_ids_distinct_witness :
  NoDup (map Node.id
           (nodes (processEmissionsData rt0 [row_engineering; row_sales]))).
Proof.
  apply (@node_ids_distinct rt0 [row_engineering; row_sales]).
  - intros r [<-|[<-|[]]]; simpl; repeat split;
      unfold underscore; discriminate.
  - simpl. repeat constructor; simpl; intuition discriminate.
Defined.

Lemma NoDup_repeat {A : Type} (l1 l2 l3 : list A) (a : A) :
  ~ NoDup (l1 ++ a :: l2 ++ a :: l3).
Proof.
  intros H. apply NoDup_remove_2 in H. apply H.
  apply in_or_app. right. apply in_or_app. right. now left.
Qed.

(** C3, as stated, fails: two rows that carry the same trip identifier
    give two trip nodes with the same [id]. *)
Lemma duplicate_trip_ids :
  map Node.id
    (nodes (processEmissionsData rt0 [row_engineering; row_engineering]))
  = [ "dept_Engineering"; "group_Engineering_Training";
      "trans_Engineering_Training_Air"; "route_Engineering_Training_Air_0";
      "trip_T1"; "trip_T1" ]
  /\ ~ NoDup (map Node.id
                (nodes (processEmissionsData rt0
                          [row_engineering; row_engineering]))).
Proof.
  assert (E : map Node.id
                (nodes (processEmissionsData rt0
                          [row_engineering; row_engineering]))
              = [ "dept_Engineering"; "group_Engineering_Training";
                  "trans_Engineering_Training_Air";
                  "route_Engineering_Training_Air_0"; "trip_T1"; "trip_T1" ])
    by (vm_compute; reflexivity).
  split; [exact E|]. rewrite E.
  apply (NoDup_repeat
           [ "dept_Engineering"; "group_Engineering_Training";
             "trans_Engineering_Training_Air";
             "route_Engineering_Training_Air_0" ] [] [] "trip_T1").
Qed.

(** Distinct trip identifiers alone are not enough: with underscores in
    the names, two different purpose groups get the same [id]. *)
Lemma underscore_collision :
  NoDup (map Trip_ID (processed [row_a_b; row_a]))
  /\ ~ NoDup (map Node.id (nodes (processEmissionsData rt0 [row_a_b; row_a]))).
Proof.
  split.
  - simpl. repeat constructor; simpl; intuition discriminate.
  - assert (E : map Node.id (nodes (processEmissionsData rt0 [row_a_b; row_a]))
                = [ "dept_A_B"; "dept_A"; "group_A_B_C"; "trans_A_B_C_Air";
                    "route_A_B_C_Air_0"; "trip_1"; "group_A_B_C";
                    "trans_A_B_C_Air"; "route_A_B_C_Air_0"; "trip_2" ])
      by (vm_compute; reflexivity).
    rewrite E.
    apply (NoDup_repeat [ "dept_A_B"; "dept_A" ]
             [ "trans_A_B_C_Air"; "route_A_B_C_Air_0"; "trip_1" ]
             [ "trans_A_B_C_Air"; "route_A_B_C_Air_0"; "trip_2" ]
             "group_A_B_C").
Qed.

(* ================================================================= *)
(** * Further properties *)

(** ** The layer list *)

Lemma gt_le_false (a b : jsnum) : gt a b = true -> le a b = false.
Proof. unfold gt. apply lt_le_false. Qed.

(** [createAllTextLayers] builds the table, entry by entry. *)
Lemma createAllTextLayers_table (nodes : list node) (zoom : jsnum) :
  createAllTextLayers nodes zoom = layer_table nodes zoom.
Proof.
  unfold layer_table, has_type. cbv zeta.
  destruct (ge zoom (Fin 4)) eqn:H4;
    [pose proof (le_lt_false _ _ H4) as L4|];
    (destruct (ge zoom (Fin 6)) eqn:H6;
       [pose proof (le_lt_false _ _ H6) as L6|]);
    (destruct (ge zoom (Fin 7.5)) eqn:H7;
       [pose proof (le_lt_false _ _ H7) as L7|]);
    destruct (lt zoom (Fin 12)) eqn:L12;
    (destruct (gt (getLayerOpacity "trip" zoom) (Fin 0)) eqn:Ht;
       [pose proof (gt_le_false _ _ Ht) as Lt|]);
    (destruct (gt (getLayerOpacity "department" zoom) (Fin 0)) eqn:Hd;
       [pose proof (gt_le_false _ _ Hd) as Ld|]);
    unfold createAllTextLayers, createPurposeHighlightLayer,
      createPurposeLabelLayer, createTransportHighlightLayer,
      createTransportLabelLayer, createRouteHighlightLayer,
      createRouteLabelLayer, createTripLayer, createDepartmentNodeLayer,
      createTextLayer;
    rewrite ?H4, ?H6, ?H7, ?L4, ?L6, ?L7, ?L12, ?Ht, ?Hd, ?Lt, ?Ld;
    destruct (List.length (of_type "trip" nodes) =? 0);
    destruct (List.length (of_type "department" nodes) =? 0);
    reflexivity.
Qed.

Lemma In_when {A : Type} (b : bool) (a x : A) :
  In x (when b a) <-> b = true /\ x = a.
Proof.
  unfold when. destruct b; simpl; intuition (congruence || discriminate).
Qed.

Lemma subsequence_In (l1 l2 : list string) (a : string) :
  subsequence l1 l2 = true -> In a l1 -> In a l2.
Proof.
  revert l1. induction l2 as [|b l2 IH]; intros [|c l1]; simpl;
    try tauto; try discriminate.
  destruct (String.eqb_spec c b) as [->|Hne]; intros H [<-|Hin].
  - now left.
  - right. now apply (IH l1).
  - right. apply (IH (c :: l1)); [assumption|now left].
  - right. apply (IH (c :: l1)); [assumption|now right].
Qed.

Lemma subsequence_NoDup (l1 l2 : list string) :
  subsequence l1 l2 = true -> NoDup l2 -> NoDup l1.
Proof.
  revert l1. induction l2 as [|b l2 IH]; intros [|c l1]; simpl;
    try (intros; constructor); try discriminate.
  - inversion H0; subst.
    destruct (String.eqb_spec c b) as [->|Hne].
    + intros Hin. apply H3. now apply (subsequence_In l1 l2).
    + intros Hin. pose proof (IH (c :: l1) H H4) as Hnd.
      now inversion Hnd.
  - inversion H0; subst.
    destruct (String.eqb_spec c b) as [->|Hne].
    + now apply IH.
    + pose proof (IH (c :: l1) H H4) as Hnd. now inversion Hnd.
Qed.

Lemma text_layer_ids_NoDup : NoDup text_layer_ids.
Proof.
  unfold text_layer_ids.
  repeat (constructor; [simpl; intuition discriminate|]). constructor.
Qed.

Lemma layer_table_ids_ordered (nodes : list node) (zoom : jsnum) :
  subsequence (map id (layer_table nodes zoom)) text_layer_ids = true.
Proof.
  unfold layer_table. cbv zeta.
  destruct (ge zoom (Fin 4)), (ge zoom (Fin 6)), (ge zoom (Fin 7.5)),
    (lt zoom (Fin 12)),
    (gt (getLayerOpacity "trip" zoom) (Fin 0) && has_type "trip" nodes),
    (gt (getLayerOpacity "department" zoom) (Fin 0)
     && has_type "department" nodes); reflexivity.
Qed.

(** X1. Whatever the nodes and the zoom, the layers come in one fixed
    bottom-to-top order (some may be missing), and no two layers of the
    list have the same identifier. *)
Theorem createAllTextLayers_fixed_order :
  forall (nodes : list node) (zoom : jsnum),
    subsequence (map id (createAllTextLayers nodes zoom)) text_layer_ids = true
    /\ NoDup (map id (createAllTextLayers nodes zoom)).
Proof.
  intros nodes zoom. rewrite createAllTextLayers_table.
  pose proof (layer_table_ids_ordered nodes zoom) as H.
  split; [exact H|].
  exact (@subsequence_NoDup _ _ H text_layer_ids_NoDup).
Qed.

Lemma In_layer_table (nodes : list node) (zoom : jsnum) (l : layer) :
  In l (layer_table nodes zoom) ->
  exists (c : layerClass) (i t : string) (o : option jsnum) (p : bool),
    l = Build_layer c i (of_type t nodes) p o
    /\ t = layer_node_type i
    /\ In i text_layer_ids
    /\ (p = true <->
        In i ["trip-layer"; "department-circle-layer";
              "department-text-layer"])
    /\ (p = true -> has_type t nodes = true).
Proof.
  unfold layer_table. cbv zeta. rewrite !in_app_iff, !In_when.
  unfold group_layer, marker_layer.
  intros [H|[H|[H|[H|[H|[H|[H|[H|H]]]]]]]]; destruct H as [Hc ->];
    try (apply andb_true_iff in Hc; destruct Hc as [Hc1 Hc2]);
    do 5 eexists; (split; [reflexivity|]);
    (split; [reflexivity|]); (split; [simpl; tauto|]);
    (split; [simpl; intuition discriminate|]);
    first [discriminate | intros _; assumption].
Qed.

(** X2. Only the trip markers, the department circles and the department
    labels can be picked; the purpose, transport and route backgrounds and
    labels never intercept a pick. *)
Theorem pickable_layers :
  forall (nodes : list node) (zoom : jsnum) (l : layer),
    In l (createAllTextLayers nodes zoom) ->
    (pickable l = true <->
     In (id l) ["trip-layer"; "department-circle-layer";
                "department-text-layer"]).
Proof.
  intros nodes zoom l Hin. rewrite createAllTextLayers_table in Hin.
  destruct (In_layer_table _ _ _ Hin) as (c & i & t & o & p & -> & _ & _ & H & _).
  exact H.
Qed.

(** X3. Every layer draws exactly the nodes of one type, the type that
    goes with its identifier, in the order of the node list; a layer that
    can be picked is never empty. *)
Theorem layer_data_by_type :
  forall (nodes : list node) (zoom : jsnum) (l : layer),
    In l (createAllTextLayers nodes zoom) ->
    data l = of_type (layer_node_type (id l)) nodes
    /\ (forall n, In n (data l) <->
                  In n nodes /\ Node.type n = layer_node_type (id l))
    /\ (pickable l = true -> data l <> []).
Proof.
  intros nodes zoom l Hin. rewrite createAllTextLayers_table in Hin.
  destruct (In_layer_table _ _ _ Hin)
    as (c & i & t & o & p & -> & -> & _ & _ & H).
  simpl. split; [reflexivity|]. split.
  - intros n. unfold of_type. now rewrite filter_In, String.eqb_eq.
  - intros Hp E. specialize (H Hp). unfold has_type in H. now rewrite E in H.
Qed.

Lemma layer_table_ids (nodes : list node) (zoom : jsnum) :
  map id (layer_table nodes zoom)
  = (when (ge zoom (Fin 4)) "purpose-highlight-layer"
     ++ when (ge zoom (Fin 6)) "transport-highlight-layer"
     ++ when (ge zoom (Fin 7.5)) "route-highlight-layer"
     ++ when (gt (getLayerOpacity "trip" zoom) (Fin 0)
              && has_type "trip" nodes) "trip-layer"
     ++ when (ge zoom (Fin 6) && lt zoom (Fin 12)) "transport-label-layer"
     ++ when (ge zoom (Fin 7.5)) "route-label-layer"
     ++ when (ge zoom (Fin 4) && lt zoom (Fin 12)) "purpose-label-layer"
     ++ when (gt (getLayerOpacity "department" zoom) (Fin 0)
              && has_type "department" nodes) "department-circle-layer"
     ++ when (gt (getLayerOpacity "department" zoom) (Fin 0)
              && has_type "department" nodes) "department-text-layer")%list.
Proof.
  unfold layer_table. cbv zeta. rewrite !map_app. unfold when.
  repeat match goal with
         | |- context [if ?c then _ else _] => destruct c
         end; reflexivity.
Qed.

Ltac in_ids :=
  rewrite !in_app_iff, !In_when;
  intuition (try discriminate; try assumption).

Lemma opacity_positive (kind : string) (t : threshold) (z : Q) :
  OMap.get ZOOM_THRESHOLDS kind = Some t ->
  gt (getLayerOpacity kind (Fin z)) (Fin 0) = negb (lt (Fin z) (min t)).
Proof.
  intros H. rewrite (@getLayerOpacity_reference kind t z H).
  now destruct (lt (Fin z) (min t)).
Qed.

Lemma ge_Fin (z a : Q) : ge (Fin z) (Fin a) = true <-> (a <= z)%Q.
Proof. unfold ge. apply le_Fin. Qed.

Lemma not_lt_Fin (z a : Q) : negb (lt (Fin z) (Fin a)) = true <-> (a <= z)%Q.
Proof. rewrite negb_true_iff. apply lt_Fin_false. Qed.

Lemma layer_present (nodes : list node) (zoom : jsnum) :
  let ids := map id (createAllTextLayers nodes zoom) in
  (In "purpose-highlight-layer" ids <-> ge zoom (Fin 4) = true)
  /\ (In "purpose-label-layer" ids
      <-> ge zoom (Fin 4) = true /\ lt zoom (Fin 12) = true)
  /\ (In "transport-highlight-layer" ids <-> ge zoom (Fin 6) = true)
  /\ (In "transport-label-layer" ids
      <-> ge zoom (Fin 6) = true /\ lt zoom (Fin 12) = true)
  /\ (In "route-highlight-layer" ids <-> ge zoom (Fin 7.5) = true)
  /\ (In "route-label-layer" ids <-> ge zoom (Fin 7.5) = true)
  /\ (In "trip-layer" ids
      <-> gt (getLayerOpacity "trip" zoom) (Fin 0) = true
          /\ has_type "trip" nodes = true)
  /\ (In "department-circle-layer" ids
      <-> gt (getLayerOpacity "department" zoom) (Fin 0) = true
          /\ has_type "department" nodes = true)
  /\ (In "department-text-layer" ids
      <-> gt (getLayerOpacity "department" zoom) (Fin 0) = true
          /\ has_type "department" nodes = true).
Proof.
  cbv zeta. rewrite createAllTextLayers_table, layer_table_ids.
  rewrite <- !andb_true_iff.
  repeat split; try (intros H; revert H); in_ids.
Qed.

(** X4. The schedule of the layers at a finite zoom [z]: purpose
    backgrounds from 4 and purpose labels on [4, 12); transport backgrounds
    from 6 and transport labels on [6, 12); route backgrounds and labels
    from 7.5; trip markers from 4 when there is a trip; department circles
    and labels from 0 when there is a department.  Below zoom 0 no layer is
    drawn at all. *)
Theorem layer_schedule :
  forall (nodes : list node) (z : Q),
    let ids := map id (createAllTextLayers nodes (Fin z)) in
    (In "purpose-highlight-layer" ids <-> (4 <= z)%Q)
    /\ (In "purpose-label-layer" ids <-> (4 <= z)%Q /\ (z < 12)%Q)
    /\ (In "transport-highlight-layer" ids <-> (6 <= z)%Q)
    /\ (In "transport-label-layer" ids <-> (6 <= z)%Q /\ (z < 12)%Q)
    /\ (In "route-highlight-layer" ids <-> (7.5 <= z)%Q)
    /\ (In "route-label-layer" ids <-> (7.5 <= z)%Q)
    /\ (In "trip-layer" ids <-> (4 <= z)%Q /\ has_type "trip" nodes = true)
    /\ (In "department-circle-layer" ids
        <-> (0 <= z)%Q /\ has_type "department" nodes = true)
    /\ (In "department-text-layer" ids
        <-> (0 <= z)%Q /\ has_type "department" nodes = true)
    /\ ((z < 0)%Q -> createAllTextLayers nodes (Fin z) = []).
Proof.
  intros nodes z.
  pose proof (layer_present nodes (Fin z)) as H. cbv zeta in *.
  rewrite (@opacity_positive "trip" {| min := Fin 4; max := Infinity |} z
             eq_refl) in H.
  rewrite (@opacity_positive "department" {| min := Fin 0; max := Infinity |}
             z eq_refl) in H.
  simpl min in H. rewrite !ge_Fin, !lt_Fin, !not_lt_Fin in H.
  destruct H as (H1 & H2 & H3 & H4 & H5 & H6 & H7 & H8 & H9).
  repeat (split; [assumption|]).
  intros H0.
  destruct (createAllTextLayers nodes (Fin z)) as [|l ls] eqn:E;
    [reflexivity|exfalso].
  pose proof (createAllTextLayers_ids nodes (Fin z)) as Hids.
  rewrite E in Hids. inversion Hids as [|? ? Hl _]; subst.
  simpl map in *. unfold text_layer_ids in Hl. simpl in Hl.
  assert (Hin : In (id l) (id l :: map id ls)) by now left.
  destruct Hl as [Hl|[Hl|[Hl|[Hl|[Hl|[Hl|[Hl|[Hl|[Hl|[]]]]]]]]]];
    rewrite <- Hl in *;
    [apply H1 in Hin|apply H3 in Hin|apply H5 in Hin|apply H7 in Hin
    |apply H4 in Hin|apply H6 in Hin|apply H2 in Hin|apply H8 in Hin
    |apply H9 in Hin]; lra.
Qed.

Lemma pickable_layers_witness :
  pickable (nth 1 layers_engineering dummy_layer) = true
  <-> In (id (nth 1 layers_engineering dummy_layer))
         ["trip-layer"; "department-circle-layer"; "department-text-layer"].
Proof.
  apply (@pickable_layers nodes_engineering (Fin 5)
           (nth 1 layers_engineering dummy_layer)).
  apply nth_In. vm_compute. lia.
Defined.

Lemma layer_data_by_type_witness :
  data (nth 1 layers_engineering dummy_layer)
  = of_type (layer_node_type (id (nth 1 layers_engineering dummy_layer)))
      nodes_engineering
  /\ (forall n, In n (data (nth 1 layers_engineering dummy_layer)) <->
                In n nodes_engineering
                /\ Node.type n
                   = layer_node_type
                       (id (nth 1 layers_engineering dummy_layer)))
  /\ (pickable (nth 1 layers_engineering dummy_layer) = true ->
      data (nth 1 layers_engineering dummy_layer) <> []).
Proof.
  apply (@layer_data_by_type nodes_engineering (Fin 5)
           (nth 1 layers_engineering dummy_layer)).
  apply nth_In. vm_compute. lia.
Defined.

(** X5. When a department layer is drawn, the list ends with the
    department circles followed at once by the department labels, both
    over the same department nodes, so that no other layer comes between
    a circle and its label or above the labels. *)
Theorem department_label_on_circle :
  forall (nodes : list node) (zoom : jsnum),
    In "department-circle-layer" (map id (createAllTextLayers nodes zoom))
    \/ In "department-text-layer" (map id (createAllTextLayers nodes zoom)) ->
    exists below,
      createAllTextLayers nodes zoom
      = (below
         ++ [ marker_layer ScatterplotLayer "department-circle-layer"
                "department" (Some (getLayerOpacity "department" zoom)) nodes;
              marker_layer TextLayer "department-text-layer" "department"
                None nodes ])%list
      /\ ~ In "department-circle-layer" (map id below)
      /\ ~ In "department-text-layer" (map id below).
Proof.
  intros nodes zoom H.
  assert (Hc : gt (getLayerOpacity "department" zoom) (Fin 0)
               && has_type "department" nodes = true).
  { apply andb_true_iff.
    destruct (layer_present nodes zoom) as (_ & _ & _ & _ & _ & _ & _ & H8 & H9).
    destruct H as [H|H]; [now apply H8|now apply H9]. }
  rewrite createAllTextLayers_table. unfold layer_table. cbv zeta.
  rewrite Hc. unfold when at 8 9.
  eexists. rewrite !app_assoc. split.
  - rewrite <- app_assoc. simpl app at 1. reflexivity.
  - rewrite !map_app. unfold when.
    repeat match goal with
           | |- context [if ?c then _ else _] => destruct c
           end; simpl; intuition discriminate.
Qed.

Lemma department_label_on_circle_witness :
  exists below,
    createAllTextLayers nodes_engineering (Fin 5)
    = (below
       ++ [ marker_layer ScatterplotLayer "department-circle-layer"
              "department" (Some (getLayerOpacity "department" (Fin 5)))
              nodes_engineering;
            marker_layer TextLayer "department-text-layer" "department"
              None nodes_engineering ])%list
    /\ ~ In "department-circle-layer" (map id below)
    /\ ~ In "department-text-layer" (map id below).
Proof.
  apply (@department_label_on_circle nodes_engineering (Fin 5)).
  left. vm_compute. tauto.
Defined.

Lemma ge_Fin_trans (zoom : jsnum) (a b : Q) :
  (a <= b)%Q -> ge zoom (Fin b) = true -> ge zoom (Fin a) = true.
Proof.
  intros Hab H. destruct (ge zoom (Fin a)) eqn:E; [reflexivity|].
  rewrite (@ge_Fin_trans_false zoom a b Hab E) in H. discriminate.
Qed.

(** X6. The legend follows the layers: its title is "Route Clusters"
    exactly when the route backgrounds are drawn, "Transport Modes" when
    the transport backgrounds are drawn but not the route ones, "Trip
    Purposes" when the purpose backgrounds are drawn but not the transport
    ones, and "Department Clusters" when no purpose background is drawn. *)
Theorem legend_follows_layers :
  forall (nodes : list node) (zoom : jsnum),
    let ids := map id (createAllTextLayers nodes zoom) in
    let title := App.legendTitle (App.updateLayerIndicator zoom) in
    (title = "Route Clusters" <-> In "route-highlight-layer" ids)
    /\ (title = "Transport Modes"
        <-> In "transport-highlight-layer" ids
            /\ ~ In "route-highlight-layer" ids)
    /\ (title = "Trip Purposes"
        <-> In "purpose-highlight-layer" ids
            /\ ~ In "transport-highlight-layer" ids)
    /\ (title = "Department Clusters"
        <-> ~ In "purpose-highlight-layer" ids).
Proof.
  intros nodes zoom.
  destruct (layer_present nodes zoom) as (H1 & _ & H3 & _ & H5 & _).
  cbv zeta in *. rewrite H1, H3, H5. unfold App.updateLayerIndicator.
  destruct (ge zoom (Fin 7.5)) eqn:G7.
  - assert (G6 : ge zoom (Fin 6) = true)
      by (apply (@ge_Fin_trans zoom 6 7.5); [lra|assumption]).
    assert (G4 : ge zoom (Fin 4) = true)
      by (apply (@ge_Fin_trans zoom 4 7.5); [lra|assumption]).
    rewrite G6, G4. simpl. intuition discriminate.
  - destruct (ge zoom (Fin 6)) eqn:G6.
    + assert (G4 : ge zoom (Fin 4) = true)
        by (apply (@ge_Fin_trans zoom 4 6); [lra|assumption]).
      rewrite G4. simpl. intuition discriminate.
    + destruct (ge zoom (Fin 4)) eqn:G4; simpl; intuition discriminate.
Qed.

Lemma lt_Fin_mono (z1 z2 : Q) (m : jsnum) :
  (z1 <= z2)%Q -> lt (Fin z1) m = false -> lt (Fin z2) m = false.
Proof.
  intros Hz. destruct m as [| | |q]; try (simpl; congruence).
  rewrite !lt_Fin_false. lra.
Qed.

(** X7. With the reference thresholds the fade is never taken: at a finite
    zoom every name has opacity 0 or 1; a name that is neither a kind of
    the table nor a member every object inherits has opacity 0; an
    inherited name (constructor, toString, ...) has opacity 1 at every
    zoom; and a name that is visible at some zoom stays visible at every
    larger finite zoom. *)
Theorem reference_opacity_steps :
  forall (kind : string) (z1 z2 : Q),
    (z1 <= z2)%Q ->
    (getLayerOpacity kind (Fin z1) = Fin 0
     \/ getLayerOpacity kind (Fin z1) = Fin 1)
    /\ (property_of ZOOM_THRESHOLDS kind = Missing ->
        getLayerOpacity kind (Fin z1) = Fin 0)
    /\ (property_of ZOOM_THRESHOLDS kind = Inherited ->
        forall zoom, getLayerOpacity kind zoom = Fin 1)
    /\ (getLayerOpacity kind (Fin z1) = Fin 1 ->
        getLayerOpacity kind (Fin z2) = Fin 1).
Proof.
  intros kind z1 z2 Hz.
  destruct (OMap.get ZOOM_THRESHOLDS kind) as [t|] eqn:E.
  - rewrite (@getLayerOpacity_reference kind t z1 E),
            (@getLayerOpacity_reference kind t z2 E).
    rewrite (property_of_own _ _ E).
    destruct (lt (Fin z1) (min t)) eqn:L1.
    + split; [now left|]. repeat split; discriminate.
    + rewrite (@lt_Fin_mono z1 z2 (min t) Hz L1).
      split; [now right|]. split; [discriminate|].
      split; [discriminate|reflexivity].
  - unfold getLayerOpacity, layerOpacity, property_of. rewrite E.
    destruct (existsb (String.eqb kind) Object_prototype_names).
    + split; [now right|]. split; [discriminate|].
      split; [reflexivity|reflexivity].
    + split; [now left|]. split; [reflexivity|].
      split; discriminate.
Qed.

Lemma reference_opacity_steps_witness :
  (getLayerOpacity "route" (Fin 8) = Fin 0
   \/ getLayerOpacity "route" (Fin 8) = Fin 1)
  /\ (property_of ZOOM_THRESHOLDS "route" = Missing ->
      getLayerOpacity "route" (Fin 8) = Fin 0)
  /\ (property_of ZOOM_THRESHOLDS "route" = Inherited ->
      forall zoom, getLayerOpacity "route" zoom = Fin 1)
  /\ (getLayerOpacity "route" (Fin 8) = Fin 1 ->
      getLayerOpacity "route" (Fin 20) = Fin 1).
Proof.
  apply (@reference_opacity_steps "route" 8%Q 20%Q). vm_compute. discriminate.
Defined.
(* ================================================================= *)
(** ** Trips through grouping and layout *)

Section ForEachPerm.
Context {A B C : Type} (body : A -> nat -> nat -> list B * nat).
Variable f : B -> list C.
Variable G : A -> list C.

Lemma forEach_flat_map (arr : list A) :
  (forall a i n, In a arr ->
     Permutation (flat_map f (fst (body a i n))) (G a)) ->
  forall i n,
    Permutation (flat_map f (fst (forEach body arr i n))) (flat_map G arr).
Proof.
  induction arr as [|a arr IH]; intros H i n; simpl; [constructor|].
  pose proof (H a i n (or_introl eq_refl)) as Ha.
  destruct (body a i n) as [out n1] eqn:E1.
  specialize (IH (fun a' i' n' Hin => H a' i' n' (or_intror Hin)) (S i) n1).
  destruct (forEach body arr (S i) n1) as [outs n2]. simpl in *.
  rewrite flat_map_app. apply Permutation_app; assumption.
Qed.
End ForEachPerm.

Lemma flat_map_insert {A : Type} (F : string -> list A) (ka : string) (a : A)
    (ks : list string) :
  NoDup ks ->
  Permutation
    (flat_map (fun k => if String.eqb ka k then (F k ++ [a])%list else F k) ks)
    (if existsb (String.eqb ka) ks then (flat_map F ks ++ [a])%list
     else flat_map F ks).
Proof.
  induction ks as [|k ks IH]; intros Hnd; simpl; [constructor|].
  inversion Hnd as [|? ? Hk Hks]; subst. specialize (IH Hks).
  destruct (String.eqb ka k) eqn:E; simpl.
  - apply String.eqb_eq in E. subst k.
    destruct (existsb (String.eqb ka) ks) eqn:Ex.
    + apply existsb_eqb_In in Ex. contradiction.
    + rewrite <- !app_assoc. apply Permutation_app_head.
      etransitivity; [apply Permutation_app_head, IH|].
      apply Permutation_app_comm.
  - destruct (existsb (String.eqb ka) ks).
    + rewrite <- app_assoc. apply Permutation_app_head, IH.
    + apply Permutation_app_head, IH.
Qed.

(** Filing a list under its keys loses and repeats nothing. *)
Lemma bucket_complete {A : Type} (key : A -> string) (l : list A) :
  Permutation (flat_map (fun k => under key k l) (first_seen (map key l))) l.
Proof.
  induction l as [|a l IH] using rev_ind; [constructor|].
  rewrite map_app. simpl map. rewrite first_seen_snoc.
  pose proof (flat_map_insert (fun k => under key k l) (key a) a
                (first_seen_NoDup (map key l))) as HI.
  rewrite existsb_first_seen in HI.
  destruct (existsb (String.eqb (key a)) (map key l)) eqn:Ex.
  - erewrite flat_map_ext by (intros k; apply under_snoc).
    etransitivity; [apply HI|]. apply Permutation_app_tail, IH.
  - rewrite flat_map_app. simpl. rewrite app_nil_r.
    rewrite under_snoc, String.eqb_refl. rewrite (under_nil key l _ Ex).
    simpl. apply Permutation_app_tail.
    erewrite flat_map_ext by (intros k; apply under_snoc).
    etransitivity; [apply HI|]. exact IH.
Qed.

Lemma bucket_complete_map {A C : Type} (key : A -> string) (g : A -> C)
    (l : list A) :
  Permutation (flat_map (fun k => map g (under key k l))
                 (first_seen (map key l)))
              (map g l).
Proof.
  etransitivity; [|apply Permutation_map, (bucket_complete key l)].
  induction (first_seen (map key l)) as [|k ks IH]; simpl; [constructor|].
  rewrite map_app. apply Permutation_app_head, IH.
Qed.

Section Conservation.
Variable rt : runtime.

Lemma position_trips_records (rx ry : R) (l : list Trip.t) (n : nat) :
  trip_records (fst (position_trips rt rx ry l n)) = map trip_data l.
Proof.
  unfold position_trips. generalize 0 as i. revert n.
  induction l as [|t l IH]; intros n i; simpl; [reflexivity|].
  specialize (IH (S (S n)) (S i)).
  destruct (forEach _ l (S i) (S (S n))) as [outs n2]. simpl in *.
  unfold trip_records in *. simpl. now rewrite IH.
Qed.

Lemma position_route_records (deptName purpose transport : string)
    (tx ty : R) (v : list Trip.t) (routes : list string) (route : string)
    (k n : nat) :
  Permutation
    (trip_records
       (fst (position_route rt deptName purpose transport tx ty
               (group_routes v) routes route k n)))
    (map trip_data (under route_key route v)).
Proof.
  unfold position_route, group_routes. cbv zeta. rewrite get_bucket.
  destruct (existsb _ _) eqn:Ex.
  - match goal with
    | |- context [position_trips rt ?x ?y ?l ?n] =>
        pose proof (position_trips_records x y l n) as H;
        destruct (position_trips rt x y l n) as [placed n']
    end.
    simpl in *. unfold trip_records in *. simpl. rewrite H. reflexivity.
  - rewrite (under_nil _ _ _ Ex). simpl. constructor.
Qed.

Lemma get_grouped_None {V : Type} (key : Trip.t -> string)
    (G : list Trip.t -> V) (v : list Trip.t) (k : string) :
  OMap.get (map_values (fun _ => G) (bucket key v)) k = None ->
  under key k v = [].
Proof.
  rewrite get_map_values, get_bucket.
  destruct (existsb _ _) eqn:Ex; [discriminate|].
  intros _. now apply under_nil.
Qed.

Lemma position_transport_records (deptName purpose : string)
    (px py : R) (v : list Trip.t) (transports : list string)
    (transport : string) (j n : nat) :
  Permutation
    (trip_records
       (fst (position_transport rt deptName purpose px py
               (group_transports v) transports transport j n)))
    (map trip_data (under transport_key transport v)).
Proof.
  unfold position_transport. cbv zeta.
  destruct (OMap.get (group_transports v) transport) as [rm|] eqn:E.
  - apply get_grouped in E. subst rm.
    match goal with
    | |- context [forEach ?b ?l ?i ?n] =>
        pose proof (@forEach_flat_map _ _ _ b
                      (fun x => match x with
                                | TripNode t => [trip_data t]
                                | _ => []
                                end)
                      (fun route =>
                         map trip_data
                           (under route_key route
                              (under transport_key transport v))) l) as HP;
        destruct (forEach b l i n) as [below n'] eqn:EF
    end.
    simpl fst. unfold trip_records. simpl flat_map.
    etransitivity.
    + match type of EF with
      | forEach ?b ?l ?i ?n = _ =>
          specialize (HP (fun a i' n' _ =>
                            position_route_records _ _ _ _ _ _ _ a i' n')
                         i n);
          rewrite EF in HP
      end.
      exact HP.
    + unfold group_routes. rewrite keys_bucket. apply bucket_complete_map.
  - rewrite (get_grouped_None _ _ _ _ E). simpl. constructor.
Qed.

Lemma position_purpose_records (deptName : string) (deptPos : R * R)
    (v : list Trip.t) (purposes : list string) (purpose : string)
    (i n : nat) :
  Permutation
    (trip_records
       (fst (position_purpose rt deptName deptPos (group_purposes v)
               purposes purpose i n)))
    (map trip_data (under Trip.purpose purpose v)).
Proof.
  unfold position_purpose. cbv zeta.
  destruct (OMap.get (group_purposes v) purpose) as [tm|] eqn:E.
  - apply get_grouped in E. subst tm.
    match goal with
    | |- context [forEach ?b ?l ?i ?n] =>
        pose proof (@forEach_flat_map _ _ _ b
                      (fun x => match x with
                                | TripNode t => [trip_data t]
                                | _ => []
                                end)
                      (fun transport =>
                         map trip_data
                           (under transport_key transport
                              (under Trip.purpose purpose v))) l) as HP;
        destruct (forEach b l i n) as [below n'] eqn:EF
    end.
    simpl fst. unfold trip_records. simpl flat_map.
    etransitivity.
    + match type of EF with
      | forEach ?b ?l ?i ?n = _ =>
          specialize (HP (fun a i' n' _ =>
                            position_transport_records _ _ _ _ _ _ a i' n')
                         i n);
          rewrite EF in HP
      end.
      exact HP.
    + unfold group_transports. rewrite keys_map_values, keys_bucket.
      apply bucket_complete_map.
  - rewrite (get_grouped_None _ _ _ _ E). simpl. constructor.
Qed.

Lemma position_dept_group_records (deptPositions : OMap.t (R * R))
    (v : list Trip.t) (entry : string * purposeMap) (i n : nat) :
  (forall t, In t v -> OMap.get deptPositions (Trip.department t) <> None) ->
  In entry (group_departments v) ->
  Permutation
    (trip_records (fst (position_dept_group rt deptPositions entry i n)))
    (map trip_data (under Trip.department (fst entry) v)).
Proof.
  destruct entry as [deptName pm]. intros Hpos Hin.
  apply In_grouped in Hin. destruct Hin as [-> Hk].
  unfold position_dept_group. simpl fst.
  destruct (OMap.get deptPositions deptName) as [deptPos|] eqn:E.
  - etransitivity.
    + apply (@forEach_flat_map _ _ _ _ _
               (fun purpose =>
                  map trip_data
                    (under Trip.purpose purpose
                       (under Trip.department deptName v)))).
      intros a i' n' _. apply position_purpose_records.
    + unfold group_purposes. rewrite keys_map_values, keys_bucket.
      apply bucket_complete_map.
  - exfalso. apply first_seen_In, in_map_iff in Hk.
    destruct Hk as (t & <- & Ht). exact (Hpos t Ht E).
Qed.

Lemma flat_map_keys {V C : Type} (F : string -> list C) (m : OMap.t V) :
  flat_map (fun entry => F (fst entry)) m = flat_map F (OMap.keys m).
Proof.
  unfold OMap.keys. induction m as [|[k x] m IH]; simpl; [reflexivity|].
  now rewrite IH.
Qed.

Lemma trip_records_departments (l : list Dept.t) :
  trip_records (map DeptNode l) = [].
Proof. induction l; simpl; auto. Qed.

Lemma positionNodes_records (departments : OMap.t Dept.t)
    (trips : list Trip.t) (n : nat) :
  (forall t, In t trips ->
     OMap.get (positions_of (place_departments (OMap.values departments) 0))
       (Trip.department t) <> None) ->
  Permutation (trip_records (fst (positionNodes rt departments trips n)))
              (map trip_data trips).
Proof.
  intros Hpos. unfold positionNodes. cbv zeta. rewrite fold_group_trip.
  match goal with
  | |- context [forEach ?b ?l ?i ?n] =>
      pose proof (@forEach_flat_map _ _ _ b
                    (fun x => match x with
                              | TripNode t => [trip_data t]
                              | _ => []
                              end)
                    (fun entry =>
                       map trip_data
                         (under Trip.department (fst entry) trips)) l
                    (fun a i' n' Ha =>
                       @position_dept_group_records _ trips a i' n' Hpos Ha)
                    i n) as HP;
      destruct (forEach b l i n) as [below n']
  end.
  simpl fst in *. unfold trip_records. rewrite flat_map_app.
  fold (trip_records (map DeptNode
                        (place_departments (OMap.values departments) 0))).
  rewrite trip_records_departments. simpl.
  etransitivity; [exact HP|].
  rewrite (flat_map_keys (fun k => map trip_data
                                     (under Trip.department k trips))).
  unfold group_departments. rewrite keys_map_values, keys_bucket.
  apply bucket_complete_map.
Qed.
End Conservation.

Section Scene.
Variable rt : runtime.

Lemma process_row_trip (st : state) (r : row) :
  skipped r = false ->
  exists t, st_trips (process_row rt st r) = (st_trips st ++ [t])%list
            /\ trip_data t = row_data r.
Proof.
  intros E. unfold process_row. rewrite E. cbv zeta.
  destruct (Trip_ID r) as [v|]; [destruct (str_truthy v)|];
    (eexists; split; [reflexivity|reflexivity]).
Qed.

Lemma st_trips_data (rows : list row) (st : state) :
  map trip_data (st_trips (fold_left (process_row rt) rows st))
  = (map trip_data (st_trips st) ++ map row_data (processed rows))%list.
Proof.
  revert st. induction rows as [|r rows IH]; intros st; simpl.
  - now rewrite app_nil_r.
  - rewrite IH. unfold processed. simpl. destruct (skipped r) eqn:E; simpl.
    + now rewrite process_row_skipped by assumption.
    + destruct (process_row_trip st r E) as (t & -> & Ht).
      rewrite map_app, <- app_assoc. simpl. now rewrite Ht.
Qed.

Lemma trips_of_data (rows : list row) :
  map trip_data (trips_of rt rows) = map row_data (processed rows).
Proof. unfold trips_of. now rewrite st_trips_data. Qed.

Lemma trips_of_row (rows : list row) (t : Trip.t) :
  In t (trips_of rt rows) ->
  exists r, In r (processed rows) /\ trip_data t = row_data r.
Proof.
  intros H. apply (in_map trip_data) in H. rewrite trips_of_data in H.
  apply in_map_iff in H. destruct H as (r & E & Hr). now exists r.
Qed.

Lemma values_with_radius (rows : list row) :
  OMap.values
    (map (fun kv : string * Dept.t => (fst kv, with_radius (snd kv)))
       (st_departments (fold_left (process_row rt) rows init_state)))
  = map (dept_record rows) (dept_names rows).
Proof.
  rewrite st_departments_fold. unfold OMap.values, map_values, bucket.
  rewrite !map_map. reflexivity.
Qed.

Lemma result_scene (rows : list row) :
  nodes (processEmissionsData rt rows)
  = (map DeptNode (departments (processEmissionsData rt rows))
       ++ below rt rows)%list.
Proof.
  unfold below. destruct (result_departments rt rows) as [-> _].
  unfold processEmissionsData, positionNodes. cbv zeta.
  rewrite fold_group_trip, values_with_radius.
  fold (trips_of rt rows).
  fold (positions_of
          (place_departments (map (dept_record rows) (dept_names rows)) 0)).
  destruct (forEach _ _ _ _) as [out n']. reflexivity.
Qed.
End Scene.

(** *** The table of department positions *)

Lemma positions_kept (l : list Dept.t) (m : OMap.t (R * R)) (k : string) :
  OMap.get m k <> None ->
  OMap.get (fold_left (fun m dept => OMap.set m (Dept.name dept)
                                       (Dept.x dept, Dept.y dept)) l m) k
  <> None.
Proof.
  revert m. induction l as [|d l IH]; intros m H; simpl; [exact H|].
  apply IH. rewrite get_set. destruct (String.eqb _ _); [discriminate|exact H].
Qed.

Lemma positions_of_has (placed : list Dept.t) (k : string) :
  In k (map Dept.name placed) -> OMap.get (positions_of placed) k <> None.
Proof.
  unfold positions_of. generalize (@nil (string * (R * R))).
  induction placed as [|d l IH]; intros m; simpl; [tauto|].
  intros [<-|H].
  - apply positions_kept. rewrite get_set, String.eqb_refl. discriminate.
  - now apply IH.
Qed.

Lemma positions_of_get (placed : list Dept.t) (k : string) (pos : R * R) :
  OMap.get (positions_of placed) k = Some pos ->
  exists d, In d placed /\ Dept.name d = k /\ pos = (Dept.x d, Dept.y d).
Proof.
  unfold positions_of.
  assert (G : forall m,
             OMap.get (fold_left (fun m dept =>
                                    OMap.set m (Dept.name dept)
                                      (Dept.x dept, Dept.y dept)) placed m) k
             = Some pos ->
             OMap.get m k = Some pos
             \/ exists d, In d placed /\ Dept.name d = k
                          /\ pos = (Dept.x d, Dept.y d)).
  { induction placed as [|d l IH]; intros m; simpl; [now left|].
    intros H. apply IH in H. destruct H as [H|(d' & H1 & H2)].
    - rewrite get_set in H. destruct (String.eqb _ _) eqn:E.
      + apply String.eqb_eq in E. injection H as <-. right. exists d. auto.
      + now left.
    - right. exists d'. tauto. }
  intros H. apply G in H. destruct H as [H|H]; [discriminate|exact H].
Qed.

Lemma place_departments_names (l : list Dept.t) (i : nat) :
  map Dept.name (place_departments l i) = map Dept.name l.
Proof.
  revert i. induction l as [|d l IH]; intros i; simpl; [reflexivity|].
  now rewrite IH.
Qed.

Lemma dept_record_name (rows : list row) (deptName : string) :
  Dept.name (dept_record rows deptName) = deptName.
Proof.
  exact (proj1 (folded_department deptName (rows_of deptName rows))).
Qed.

Lemma departments_names (rt : runtime) (rows : list row) :
  map Dept.name (departments (processEmissionsData rt rows))
  = dept_names rows.
Proof.
  destruct (result_departments rt rows) as [-> _].
  rewrite place_departments_names, map_map.
  rewrite (map_ext _ (fun k => k)) by apply dept_record_name.
  apply map_id.
Qed.

Lemma trips_of_positioned (rt : runtime) (rows : list row) (t : Trip.t) :
  In t (trips_of rt rows) ->
  OMap.get (positions_of (departments (processEmissionsData rt rows)))
    (Trip.department t) <> None.
Proof.
  intros H. apply positions_of_has. rewrite departments_names.
  apply trips_of_row in H. destruct H as (r & Hr & E).
  unfold dept_names. apply first_seen_In.
  assert (Ed : Trip.department t = row_department r)
    by (unfold trip_data, row_data in E; congruence).
  rewrite Ed. now apply in_map.
Qed.

Lemma below_records (rt : runtime) (rows : list row) :
  Permutation (trip_records (below rt rows)) (map trip_data (trips_of rt rows)).
Proof.
  unfold below.
  etransitivity.
  - apply (@forEach_flat_map _ _ _ _ _
             (fun entry => map trip_data
                             (under Trip.department (fst entry)
                                (trips_of rt rows)))).
    intros a i n Ha. apply position_dept_group_records; [|exact Ha].
    apply trips_of_positioned.
  - rewrite (flat_map_keys (fun k => map trip_data
                                       (under Trip.department k
                                          (trips_of rt rows)))).
    unfold group_departments. rewrite keys_map_values, keys_bucket.
    apply bucket_complete_map.
Qed.

Lemma nodes_records (rt : runtime) (rows : list row) :
  Permutation (trip_records (nodes (processEmissionsData rt rows)))
              (map row_data (processed rows)).
Proof.
  rewrite result_scene. unfold trip_records at 1. rewrite flat_map_app.
  fold (trip_records (map DeptNode (departments (processEmissionsData rt rows)))).
  rewrite trip_records_departments. simpl.
  rewrite <- (trips_of_data rt). apply below_records.
Qed.

(** X8. No trip is lost or repeated by grouping and layout: the trip
    nodes of the result are, up to order, the processed rows, each with
    its department, purpose (default Other), transport mode (default
    Other), route (cities defaulting to Unknown), emissions, cost
    (default 0) and the colour of its department; their number is
    [counts.trips]. *)
Theorem trips_conserved :
  forall (rt : runtime) (rawData : list row),
    Permutation (trip_records (nodes (processEmissionsData rt rawData)))
                (map row_data (processed rawData))
    /\ List.length (trip_records (nodes (processEmissionsData rt rawData)))
       = c_trips (counts (processEmissionsData rt rawData)).
Proof.
  intros rt rawData. split; [apply nodes_records|].
  rewrite (Permutation_length (nodes_records rt rawData)).
  rewrite length_map. symmetry. apply counts_trips.
Qed.
(* ================================================================= *)

(** ** Groups and their members *)

Section Grounded.
Variable rt : runtime.

Lemma grounded_incl (v v' : list Trip.t) (out : list node) :
  incl v v' -> Forall (grounded v) out -> Forall (grounded v') out.
Proof.
  intros Hi. apply Forall_impl. intros [d|g|t]; simpl; auto.
  intros (Hc & t & Ht & Hm). split; [exact Hc|]. exists t. auto.
Qed.

Lemma position_trips_grounded (v : list Trip.t) (rx ry : R)
    (l : list Trip.t) (n : nat) :
  Forall (grounded v) (fst (position_trips rt rx ry l n)).
Proof.
  eapply Forall_impl; [|apply position_trips_In].
  intros x (t & k & _ & ->). exact I.
Qed.

Lemma key_seen (key : Trip.t -> string) (v : list Trip.t) (k : string) :
  In k (first_seen (map key v)) -> exists t, In t v /\ key t = k.
Proof.
  intros H. apply first_seen_In, in_map_iff in H.
  destruct H as (t & E & Ht). now exists t.
Qed.

Lemma position_route_grounded (deptName purpose transport : string)
    (tx ty : R) (v : list Trip.t) (routes : list string) (route : string)
    (k n : nat) :
  (forall t, In t v -> Trip.department t = deptName
                       /\ Trip.purpose t = purpose
                       /\ transport_key t = transport) ->
  In route (first_seen (map route_key v)) ->
  Forall (grounded v)
    (fst (position_route rt deptName purpose transport tx ty
            (group_routes v) routes route k n)).
Proof.
  intros Hv Hk. unfold position_route. cbv zeta.
  match goal with
  | |- context [GroupNode ?g] => set (group := g)
  end.
  assert (Hg : grounded v (GroupNode group)).
  { split; [reflexivity|]. destruct (@key_seen _ _ _ Hk) as (t & Ht & E).
    destruct (Hv t Ht) as (H1 & H2 & H3).
    exists t. split; [exact Ht|]. split; [now simpl|].
    right. right. unfold route_group_of. simpl.
    rewrite H1, H2, H3, E. tauto. }
  destruct (OMap.get (group_routes v) route) as [tripList|].
  - match goal with
    | |- context [position_trips rt ?x ?y ?l ?n] =>
        pose proof (position_trips_grounded v x y l n) as HF;
        destruct (position_trips rt x y l n) as [placed n']
    end.
    simpl fst in *. now constructor.
  - simpl. now constructor.
Qed.

Lemma position_transport_grounded (deptName purpose : string)
    (px py : R) (v : list Trip.t) (transports : list string)
    (transport : string) (j n : nat) :
  (forall t, In t v -> Trip.department t = deptName
                       /\ Trip.purpose t = purpose) ->
  In transport (first_seen (map transport_key v)) ->
  Forall (grounded v)
    (fst (position_transport rt deptName purpose px py
            (group_transports v) transports transport j n)).
Proof.
  intros Hv Hk. unfold position_transport. cbv zeta.
  match goal with
  | |- context [GroupNode ?g] => set (group := g)
  end.
  assert (Hg : grounded v (GroupNode group)).
  { split; [reflexivity|]. destruct (@key_seen _ _ _ Hk) as (t & Ht & E).
    destruct (Hv t Ht) as (H1 & H2).
    exists t. split; [exact Ht|]. split; [now simpl|].
    right. left. simpl. rewrite H2, E. tauto. }
  destruct (OMap.get (group_transports v) transport) as [rm|] eqn:E.
  - apply get_grouped in E. subst rm.
    match goal with
    | |- context [forEach ?b ?l ?i ?n] =>
        assert (HL : Forall (grounded (under transport_key transport v))
                       (fst (forEach b l i n)));
        [|destruct (forEach b l i n) as [out n']]
    end.
    + apply forEach_Forall. intros route k m Hr.
      unfold group_routes in Hr. rewrite keys_bucket in Hr.
      apply position_route_grounded; [|exact Hr]. intros t Ht.
      apply under_In in Ht. destruct Ht as [Ht Ek].
      destruct (Hv t Ht). auto.
    + simpl fst in *. constructor; [exact Hg|].
      eapply grounded_incl; [apply under_incl|exact HL].
  - simpl. now constructor.
Qed.

Lemma position_purpose_grounded (deptName : string) (deptPos : R * R)
    (v : list Trip.t) (purposes : list string) (purpose : string)
    (i n : nat) :
  (forall t, In t v -> Trip.department t = deptName) ->
  In purpose (first_seen (map Trip.purpose v)) ->
  Forall (grounded v)
    (fst (position_purpose rt deptName deptPos (group_purposes v) purposes
            purpose i n)).
Proof.
  intros Hv Hk. unfold position_purpose. cbv zeta.
  match goal with
  | |- context [GroupNode ?g] => set (group := g)
  end.
  assert (Hg : grounded v (GroupNode group)).
  { split; [reflexivity|]. destruct (@key_seen _ _ _ Hk) as (t & Ht & E).
    exists t. split; [exact Ht|]. split; [simpl; now rewrite (Hv t Ht)|].
    left. simpl. rewrite E. tauto. }
  destruct (OMap.get (group_purposes v) purpose) as [tm|] eqn:E.
  - apply get_grouped in E. subst tm.
    match goal with
    | |- context [forEach ?b ?l ?i ?n] =>
        assert (HL : Forall (grounded (under Trip.purpose purpose v))
                       (fst (forEach b l i n)));
        [|destruct (forEach b l i n) as [out n']]
    end.
    + apply forEach_Forall. intros transport j m Hr.
      unfold group_transports in Hr.
      rewrite keys_map_values, keys_bucket in Hr.
      apply position_transport_grounded; [|exact Hr]. intros t Ht.
      apply under_In in Ht. destruct Ht as [Ht Ek]. auto.
    + simpl fst in *. constructor; [exact Hg|].
      eapply grounded_incl; [apply under_incl|exact HL].
  - simpl. now constructor.
Qed.

Lemma position_dept_group_grounded (deptPositions : OMap.t (R * R))
    (v : list Trip.t) (entry : string * purposeMap) (i n : nat) :
  In entry (group_departments v) ->
  Forall (grounded v) (fst (position_dept_group rt deptPositions entry i n)).
Proof.
  destruct entry as [deptName pm]. intros Hin.
  apply In_grouped in Hin. destruct Hin as [-> _].
  unfold position_dept_group.
  destruct (OMap.get deptPositions deptName) as [deptPos|];
    [|constructor].
  eapply grounded_incl; [apply (under_incl Trip.department deptName)|].
  apply forEach_Forall. intros purpose j m Hr.
  unfold group_purposes in Hr. rewrite keys_map_values, keys_bucket in Hr.
  apply position_purpose_grounded; [|exact Hr]. intros t Ht.
  now apply under_In in Ht.
Qed.

Lemma below_grounded (rows : list row) :
  Forall (grounded (trips_of rt rows)) (below rt rows).
Proof.
  unfold below. apply forEach_Forall. intros entry i n Hin.
  now apply position_dept_group_grounded.
Qed.
End Grounded.

Lemma In_trip_records (out : list node) (rec : trip_record) :
  In rec (trip_records out)
  <-> exists t, In (TripNode t) out /\ trip_data t = rec.
Proof.
  unfold trip_records. rewrite in_flat_map. split.
  - intros ([d|g|t] & Hin & H); simpl in H; try contradiction.
    destruct H as [<-|[]]. now exists t.
  - intros (t & Hin & <-). exists (TripNode t). split; [exact Hin|now left].
Qed.

Lemma member_of_data (g : Group.t) (t t' : Trip.t) :
  trip_data t = trip_data t' -> member_of g t -> member_of g t'.
Proof.
  intros E.
  assert (Hd : Trip.department t = Trip.department t')
    by (unfold trip_data in E; congruence).
  assert (Hp : Trip.purpose t = Trip.purpose t')
    by (unfold trip_data in E; congruence).
  assert (Hm : Trip.transportMode t = Trip.transportMode t')
    by (unfold trip_data in E; congruence).
  assert (Hr : Trip.route t = Trip.route t')
    by (unfold trip_data in E; congruence).
  unfold member_of, route_group_of, transport_key, route_key.
  now rewrite Hd, Hp, Hm, Hr.
Qed.

Section Integrity.
Variable rt : runtime.

Lemma In_below (rows : list row) (n : node) :
  In n (nodes (processEmissionsData rt rows)) ->
  match n with
  | DeptNode d => In d (departments (processEmissionsData rt rows))
  | _ => In n (below rt rows)
  end.
Proof.
  destruct (result_nodes rt rows) as (out & E & HL).
  pose proof E as E'. rewrite result_scene in E'.
  apply app_inv_head in E'. subst out.
  rewrite E. intros H. apply in_app_or in H. destruct H as [H|H].
  - apply in_map_iff in H. destruct H as (d & <- & Hd). exact Hd.
  - specialize (HL n H). destruct n; [contradiction|exact H|exact H].
Qed.

Lemma below_nodes (rows : list row) (n : node) :
  In n (below rt rows) -> In n (nodes (processEmissionsData rt rows)).
Proof. rewrite result_scene. intros H. apply in_or_app. now right. Qed.

Lemma department_node (rows : list row) (deptName : string) :
  In deptName (dept_names rows) ->
  exists d, In (DeptNode d) (nodes (processEmissionsData rt rows))
            /\ Dept.name d = deptName.
Proof.
  rewrite <- (departments_names rt rows). intros H.
  apply in_map_iff in H. destruct H as (d & E & Hd). exists d.
  split; [|exact E]. rewrite result_scene. apply in_or_app. left.
  now apply in_map.
Qed.

Lemma trip_node_row (rows : list row) (t : Trip.t) :
  In (TripNode t) (nodes (processEmissionsData rt rows)) ->
  exists r, In r (processed rows) /\ trip_data t = row_data r.
Proof.
  intros H.
  assert (Hr : In (trip_data t)
                 (trip_records (nodes (processEmissionsData rt rows))))
    by (apply In_trip_records; now exists t).
  apply (Permutation_in _ (nodes_records rt rows)) in Hr.
  apply in_map_iff in Hr. destruct Hr as (r & E & Hr). now exists r.
Qed.

Lemma row_trip_node (rows : list row) (r : row) :
  In r (processed rows) ->
  exists t, In (TripNode t) (nodes (processEmissionsData rt rows))
            /\ trip_data t = row_data r.
Proof.
  intros H. apply In_trip_records.
  apply (Permutation_in _ (Permutation_sym (nodes_records rt rows))).
  now apply in_map.
Qed.

Lemma trip_node_department (rows : list row) (t : Trip.t) :
  In (TripNode t) (nodes (processEmissionsData rt rows)) ->
  In (Trip.department t) (dept_names rows).
Proof.
  intros H. destruct (trip_node_row _ _ H) as (r & Hr & E).
  assert (Ed : Trip.department t = row_department r)
    by (unfold trip_data, row_data in E; congruence).
  rewrite Ed. unfold dept_names. apply first_seen_In. now apply in_map.
Qed.

Lemma group_node_member (rows : list row) (g : Group.t) :
  In (GroupNode g) (nodes (processEmissionsData rt rows)) ->
  Group.color g = getDepartmentColor (Group.department g)
  /\ exists t, In (TripNode t) (nodes (processEmissionsData rt rows))
               /\ member_of g t.
Proof.
  intros H. apply In_below in H.
  pose proof (below_grounded rt rows) as HG. rewrite Forall_forall in HG.
  destruct (HG _ H) as (Hc & t & Ht & Hm). split; [exact Hc|].
  assert (Hr : In (trip_data t) (trip_records (below rt rows))).
  { apply (Permutation_in _ (Permutation_sym (below_records rt rows))).
    now apply in_map. }
  apply In_trip_records in Hr. destruct Hr as (t' & Ht' & E).
  exists t'. split; [now apply below_nodes|].
  apply (@member_of_data g t t' (eq_sym E) Hm).
Qed.
End Integrity.

(** X9. Nothing in the scene hangs in the air: every department node has
    at least one trip node of its department; every purpose, transport
    and route group node has at least one trip node that is a member of
    it, and a department node for its department; every trip node has a
    department node for its department. *)
Theorem scene_integrity :
  forall (rt : runtime) (rawData : list row) (n : node),
    In n (nodes (processEmissionsData rt rawData)) ->
    (exists d, In (DeptNode d) (nodes (processEmissionsData rt rawData))
               /\ Dept.name d = owner n)
    /\ (exists t, In (TripNode t) (nodes (processEmissionsData rt rawData))
                  /\ Trip.department t = owner n
                  /\ match n with
                     | GroupNode g => member_of g t
                     | _ => True
                     end).
Proof.
  intros rt rawData [d|g|t] H; simpl owner.
  - split; [now exists d|].
    pose proof (In_below _ _ _ H) as Hd. simpl in Hd.
    apply (in_map Dept.name) in Hd. rewrite departments_names in Hd.
    unfold dept_names in Hd. apply first_seen_In, in_map_iff in Hd.
    destruct Hd as (r & E & Hr).
    destruct (row_trip_node rt _ _ Hr) as (t & Ht & Et).
    exists t. split; [exact Ht|]. split; [|exact I].
    unfold trip_data, row_data in Et. congruence.
  - destruct (group_node_member rt _ _ H) as (_ & t & Ht & Hm).
    split.
    + destruct (department_node rt rawData (Trip.department t))
        as (d & Hd & E); [now apply (trip_node_department rt)|].
      exists d. split; [exact Hd|]. rewrite E. symmetry. exact (proj1 Hm).
    + exists t. split; [exact Ht|]. split; [|exact Hm].
      symmetry. exact (proj1 Hm).
  - split.
    + apply department_node. now apply (trip_node_department rt).
    + exists t. auto.
Qed.

Lemma scene_integrity_witness :
  (exists d, In (DeptNode d) nodes_sample
             /\ Dept.name d = owner (nth 3 nodes_sample dummy_node))
  /\ (exists t, In (TripNode t) nodes_sample
                /\ Trip.department t = owner (nth 3 nodes_sample dummy_node)
                /\ match nth 3 nodes_sample dummy_node with
                   | GroupNode g => member_of g t
                   | _ => True
                   end).
Proof.
  apply (@scene_integrity rt0 rows_sample (nth 3 nodes_sample dummy_node)).
  apply nth_In. vm_compute. lia.
Defined.

(** ** Colours, counts and sizes *)

Lemma fold_dept_step_color (v : list row) (w : Dept.t) :
  Dept.color (fold_left dept_step v w) = Dept.color w.
Proof.
  revert w. induction v as [|r v IH]; intros w; simpl; [reflexivity|].
  now rewrite IH.
Qed.

Lemma placed_department (rt : runtime) (rows : list row) (d : Dept.t) :
  In d (departments (processEmissionsData rt rows)) ->
  Dept.color d = getDepartmentColor (Dept.name d)
  /\ Dept.radius d
     = option_map (fun s => 100 + s * 0.5)%R (Math_sqrt (Dept.emissions d))
  /\ Dept.textSize d
     = option_map (fun s => 32 + s * 12)%R
         (Math_sqrt (div (Dept.emissions d) (Fin 2000))).
Proof.
  intros H. apply In_departments in H. destruct H as (i & k & _ & ->).
  split; [|split; reflexivity].
  simpl. unfold folded. rewrite fold_dept_step_color.
  rewrite (proj1 (fold_dept_step _ _)). reflexivity.
Qed.

(** X10. Every node has the colour of its department: a department node
    that of its own name, a group or trip node that of the department it
    belongs to; so the nodes of one department all have the same
    colour. *)
Theorem node_colours :
  forall (rt : runtime) (rawData : list row) (n : node),
    In n (nodes (processEmissionsData rt rawData)) ->
    Node.color n = getDepartmentColor (owner n)
    /\ (forall m, In m (nodes (processEmissionsData rt rawData)) ->
                  owner m = owner n -> Node.color m = Node.color n).
Proof.
  intros rt rawData.
  assert (Hc : forall n, In n (nodes (processEmissionsData rt rawData)) ->
                         Node.color n = getDepartmentColor (owner n)).
  { intros [d|g|t] H; simpl.
    - apply In_below in H. exact (proj1 (placed_department _ _ _ H)).
    - exact (proj1 (group_node_member rt _ _ H)).
    - destruct (trip_node_row rt _ _ H) as (r & _ & E).
      unfold trip_data, row_data in E. congruence. }
  intros n H. split; [now apply Hc|].
  intros m Hm E. rewrite (Hc m Hm), (Hc n H). now rewrite E.
Qed.

Lemma node_colours_witness :
  Node.color (nth 3 nodes_sample dummy_node)
  = getDepartmentColor (owner (nth 3 nodes_sample dummy_node))
  /\ (forall m, In m nodes_sample ->
                owner m = owner (nth 3 nodes_sample dummy_node) ->
                Node.color m = Node.color (nth 3 nodes_sample dummy_node)).
Proof.
  apply (@node_colours rt0 rows_sample (nth 3 nodes_sample dummy_node)).
  apply nth_In. vm_compute. lia.
Defined.

Lemma length_flat_map_sum {A B : Type} (F : A -> list B) (l : list A) :
  List.length (flat_map F l)
  = list_sum (map (fun a => List.length (F a)) l).
Proof.
  induction l as [|a l IH]; simpl; [reflexivity|].
  now rewrite length_app, IH.
Qed.

Lemma place_departments_tripCount (l : list Dept.t) (i : nat) :
  map Dept.tripCount (place_departments l i) = map Dept.tripCount l.
Proof.
  revert i. induction l as [|d l IH]; intros i; simpl; [reflexivity|].
  now rewrite IH.
Qed.

(** X11. The summary figures agree with each other and with the rows:
    the total is the sum of the emissions of the processed rows, in
    input order; [counts.trips] is their number and also the sum of the
    trip counts of the departments; [counts.departments] is the number of
    departments returned, whose names are pairwise distinct. *)
Theorem summary_figures :
  forall (rt : runtime) (rawData : list row),
    let res := processEmissionsData rt rawData in
    totalEmissions res = sum (map row_emission (processed rawData))
    /\ c_trips (counts res) = List.length (processed rawData)
    /\ list_sum (map Dept.tripCount (departments res)) = c_trips (counts res)
    /\ c_departments (counts res) = List.length (departments res)
    /\ NoDup (map Dept.name (departments res)).
Proof.
  intros rt rawData res. unfold res.
  split; [apply result_totalEmissions|].
  split; [apply counts_trips|].
  split; [|split].
  - rewrite counts_trips.
    destruct (result_departments rt rawData) as [-> _].
    rewrite place_departments_tripCount, map_map.
    rewrite (map_ext _ (fun k => List.length (rows_of k rawData))).
    + rewrite <- length_flat_map_sum. apply Permutation_length.
      apply bucket_complete.
    + intros k. unfold dept_record. simpl.
      apply (folded_department k (rows_of k rawData)).
  - rewrite <- (length_map Dept.name), departments_names.
    apply (result_departments rt rawData).
  - rewrite departments_names. apply first_seen_NoDup.
Qed.

Lemma Math_sqrt_nonneg (q : Q) :
  (0 <= q)%Q -> Math_sqrt (Fin q) = Some (sqrt (Q2R q)).
Proof.
  intros H. unfold Math_sqrt, Qneg.
  now rewrite (proj2 (Qle_bool_iff 0 q) H).
Qed.

Lemma Math_sqrt_negative (q : Q) :
  (q < 0)%Q -> Math_sqrt (Fin q) = None.
Proof.
  intros H. unfold Math_sqrt, Qneg.
  destruct (Qle_bool 0 q) eqn:E; [|reflexivity].
  apply Qle_bool_iff in E. exfalso. exact (Qlt_not_le _ _ H E).
Qed.

Lemma per_2000 (q : Q) : div (Fin q) (Fin 2000) = Fin (q / 2000).
Proof. reflexivity. Qed.

Lemma per_2000_le (q q' : Q) : (q <= q')%Q -> (q / 2000 <= q' / 2000)%Q.
Proof.
  intros H. unfold Qdiv. apply Qmult_le_compat_r; [exact H|].
  apply Qinv_le_0_compat. discriminate.
Qed.

Lemma per_2000_nonneg (q : Q) : (0 <= q)%Q -> (0 <= q / 2000)%Q.
Proof.
  intros H. apply Qle_trans with (0 / 2000)%Q; [discriminate|].
  now apply per_2000_le.
Qed.

Lemma sqrt_Q_le (q q' : Q) :
  (q <= q')%Q -> (sqrt (Q2R q) <= sqrt (Q2R q'))%R.
Proof. intros H. apply sqrt_le_1_alt. now apply Qreals.Qle_Rle. Qed.

(** X12. Sizes of department nodes.  A department whose total is a
    non-negative number has a radius of at least 100 and a label size of
    at least 32, and neither is smaller than that of a department with a
    smaller total; a department whose total is negative has no radius
    (the square root is not a number). *)
Theorem department_sizes :
  forall (rt : runtime) (rawData : list row) (d : Dept.t) (q : Q),
    In d (departments (processEmissionsData rt rawData)) ->
    Dept.emissions d = Fin q ->
    ((q < 0)%Q -> Dept.radius d = None)
    /\ ((0 <= q)%Q ->
        exists r s,
          Dept.radius d = Some r /\ Dept.textSize d = Some s
          /\ (100 <= r)%R /\ (32 <= s)%R
          /\ forall d' q',
               In d' (departments (processEmissionsData rt rawData)) ->
               Dept.emissions d' = Fin q' -> (q <= q')%Q ->
               exists r' s',
                 Dept.radius d' = Some r' /\ Dept.textSize d' = Some s'
                 /\ (r <= r')%R /\ (s <= s')%R).
Proof.
  intros rt rawData d q Hd E.
  destruct (placed_department _ _ _ Hd) as (_ & Hr & Hs).
  rewrite E in Hr, Hs. rewrite per_2000 in Hs. split.
  - intros Hq. rewrite Hr. now rewrite Math_sqrt_negative by exact Hq.
  - intros Hq.
    assert (Hq2 : (0 <= q / 2000)%Q) by (apply (per_2000_nonneg Hq)).
    rewrite Math_sqrt_nonneg in Hr, Hs by assumption. simpl in Hr, Hs.
    eexists. eexists. split; [exact Hr|]. split; [exact Hs|].
    pose proof (sqrt_pos (Q2R q)). pose proof (sqrt_pos (Q2R (q / 2000))).
    split; [lra|]. split; [lra|].
    intros d' q' Hd' E' Hle.
    destruct (placed_department _ _ _ Hd') as (_ & Hr' & Hs').
    rewrite E' in Hr', Hs'. rewrite per_2000 in Hs'.
    assert (Hq' : (0 <= q')%Q) by (apply Qle_trans with q; assumption).
    assert (Hq2' : (0 <= q' / 2000)%Q) by (apply (per_2000_nonneg Hq')).
    rewrite Math_sqrt_nonneg in Hr', Hs' by assumption. simpl in Hr', Hs'.
    eexists. eexists. split; [exact Hr'|]. split; [exact Hs'|].
    pose proof (sqrt_Q_le Hle). pose proof (sqrt_Q_le (per_2000_le Hle)).
    split; lra.
Qed.

Lemma department_sizes_witness :
  let d := nth 0 (departments (processEmissionsData rt0 rows_sample))
             (new_department EmptyString) in
  ((500 < 0)%Q -> Dept.radius d = None)
  /\ ((0 <= 500)%Q ->
      exists r s,
        Dept.radius d = Some r /\ Dept.textSize d = Some s
        /\ (100 <= r)%R /\ (32 <= s)%R
        /\ forall d' q',
             In d' (departments (processEmissionsData rt0 rows_sample)) ->
             Dept.emissions d' = Fin q' -> (500 <= q')%Q ->
             exists r' s',
               Dept.radius d' = Some r' /\ Dept.textSize d' = Some s'
               /\ (r <= r')%R /\ (s <= s')%R).
Proof.
  apply (@department_sizes rt0 rows_sample
           (nth 0 (departments (processEmissionsData rt0 rows_sample))
              (new_department EmptyString)) 500%Q).
  - apply nth_In. vm_compute. lia.
  - vm_compute. reflexivity.
Defined.
(* ================================================================= *)

(** ** Search *)

Lemma trim_left_white (l : list ascii) :
  forallb is_white l = true -> trim_left l = [].
Proof.
  induction l as [|c l IH]; simpl; [reflexivity|].
  destruct (is_white c); simpl; [exact IH|discriminate].
Qed.

Lemma trim_left_black (l : list ascii) :
  forallb is_white l = false ->
  exists c r, trim_left l = c :: r /\ is_white c = false.
Proof.
  induction l as [|c l IH]; simpl; [discriminate|].
  destruct (is_white c) eqn:E; simpl; [exact IH|].
  intros _. now exists c, l.
Qed.

Lemma blank_white (s : string) :
  blank s = forallb is_white (list_ascii_of_string s).
Proof.
  unfold blank, trim.
  destruct (forallb is_white (list_ascii_of_string s)) eqn:E.
  - now rewrite (trim_left_white _ E).
  - destruct (trim_left_black _ E) as (c & r & -> & Hc).
    assert (E2 : forallb is_white (rev (c :: r)) = false).
    { simpl. rewrite forallb_app. simpl. rewrite Hc.
      now rewrite andb_false_r. }
    destruct (trim_left_black _ E2) as (c' & r' & -> & _).
    simpl. now destruct (rev r').
Qed.

Lemma is_white_lower (c : ascii) : is_white (lower_char c) = is_white c.
Proof.
  destruct c as [b0 b1 b2 b3 b4 b5 b6 b7].
  destruct b0, b1, b2, b3, b4, b5, b6, b7; reflexivity.
Qed.

Lemma toLowerCase_chars (s : string) :
  list_ascii_of_string (toLowerCase s)
  = map lower_char (list_ascii_of_string s).
Proof. induction s as [|c s IH]; simpl; [reflexivity|now rewrite IH]. Qed.

Lemma blank_lower (s : string) : blank (toLowerCase s) = blank s.
Proof.
  rewrite !blank_white, toLowerCase_chars.
  induction (list_ascii_of_string s) as [|c l IH]; simpl; [reflexivity|].
  now rewrite is_white_lower, IH.
Qed.

Lemma prefix_self (s : string) : String.prefix s s = true.
Proof.
  induction s as [|c s IH]; simpl; [reflexivity|].
  destruct (ascii_dec c c); [exact IH|contradiction].
Qed.

Lemma includes_self (s : string) : includes s s = true.
Proof.
  destruct s as [|c s]; [reflexivity|].
  change (String.prefix (String c s) (String c s)
          || includes s (String c s) = true).
  now rewrite prefix_self.
Qed.

Lemma hit_owner (term : string) (n : node) :
  includes (toLowerCase (owner n)) term = true -> hit term n = true.
Proof.
  intros H. unfold hit.
  destruct n as [d|g|t]; simpl in *; rewrite H, ?orb_true_r; reflexivity.
Qed.

(** X15. Search.  A term that is not blank is compared in lower case
    with the name, department and route of every node, so two terms that
    differ only in the case of their letters find the same nodes; the
    matches are nodes of the data, in their order; and a term that is,
    up to case, the name of a department (or a part of it) finds the
    node of that department and every group and trip node below it. *)
Theorem search_matches :
  forall (nodeData : list node) (searchTerm : string),
    blank searchTerm = false ->
    exists ms,
      searchNodes nodeData searchTerm = Some ms
      /\ ms = filter (hit (toLowerCase searchTerm)) nodeData
      /\ (forall term', toLowerCase term' = toLowerCase searchTerm ->
                        searchNodes nodeData term' = Some ms)
      /\ (forall n, In n nodeData ->
                    toLowerCase (owner n) = toLowerCase searchTerm
                    \/ includes (toLowerCase (owner n))
                         (toLowerCase searchTerm) = true ->
                    In n ms).
Proof.
  intros nodeData searchTerm Hb. eexists. split; [|split; [reflexivity|]].
  - unfold searchNodes. rewrite Hb. reflexivity.
  - split.
    + intros term' E. unfold searchNodes.
      rewrite <- (blank_lower term'), E, blank_lower, Hb. reflexivity.
    + intros n Hn H. apply filter_In. split; [exact Hn|].
      apply hit_owner. destruct H as [->|H]; [apply includes_self|exact H].
Qed.

Lemma search_matches_witness :
  exists ms,
    searchNodes nodes_sample "SALES" = Some ms
    /\ ms = filter (hit (toLowerCase "SALES")) nodes_sample
    /\ (forall term', toLowerCase term' = toLowerCase "SALES" ->
                      searchNodes nodes_sample term' = Some ms)
    /\ (forall n, In n nodes_sample ->
                  toLowerCase (owner n) = toLowerCase "SALES"
                  \/ includes (toLowerCase (owner n)) (toLowerCase "SALES")
                     = true ->
                  In n ms).
Proof.
  apply (@search_matches nodes_sample "SALES"). reflexivity.
Defined.

(** X16. The search highlight is drawn exactly when the search has
    something to show: the layer list holds a layer named
    search-highlight if and only if the term is not blank and at least
    one node matches it; a blank term gives no result at all, and then,
    as with a term that matches nothing, the layer list is the one
    without search. *)
Theorem search_highlight_shown :
  forall (nodeData nodes : list node) (searchTerm : string) (zoom : jsnum),
    (In "search-highlight"
       (map id (App.getLayers (searchNodes nodeData searchTerm) zoom nodes))
     <-> blank searchTerm = false
         /\ exists n, In n nodeData
                      /\ hit (toLowerCase searchTerm) n = true)
    /\ (blank searchTerm = true -> searchNodes nodeData searchTerm = None)
    /\ (~ In "search-highlight"
          (map id (App.getLayers (searchNodes nodeData searchTerm) zoom
                     nodes)) ->
        App.getLayers (searchNodes nodeData searchTerm) zoom nodes
        = createAllTextLayers nodes zoom).
Proof.
  intros nodeData nodes searchTerm zoom.
  assert (Hno : ~ In "search-highlight"
                  (map id (createAllTextLayers nodes zoom))).
  { intros H.
    rewrite createAllTextLayers_table in H.
    apply (@subsequence_In _ text_layer_ids "search-highlight"
             (layer_table_ids_ordered nodes zoom)) in H.
    unfold text_layer_ids in H. simpl in H.
    repeat (destruct H as [H|H]; [discriminate|]). exact H. }
  unfold App.getLayers, searchNodes, createSearchHighlightLayer, push.
  destruct (blank searchTerm) eqn:Hb.
  - cbv zeta. simpl app. split; [|split; [reflexivity|reflexivity]].
    split; [intros H; contradiction|intros [H _]; discriminate].
  - cbv zeta. fold (hit (toLowerCase searchTerm)).
    destruct (filter (hit (toLowerCase searchTerm)) nodeData) as [|m ms] eqn:E.
    + simpl. split; [|split; [discriminate|reflexivity]].
      split; [intros H; contradiction|].
      intros (_ & n & Hn & Hh).
      assert (Hin : In n (filter (hit (toLowerCase searchTerm)) nodeData))
        by (apply filter_In; auto).
      rewrite E in Hin. contradiction.
    + simpl. split; [|split; [discriminate|]].
      * split; [|intros _; now left].
        intros _. split; [reflexivity|]. exists m.
        assert (Hin : In m (filter (hit (toLowerCase searchTerm)) nodeData))
          by (rewrite E; now left).
        apply filter_In in Hin. exact Hin.
      * intros H. exfalso. apply H. now left.
Qed.

(** ** Bounds and the initial camera *)

Section Extremes.
Variable f : node -> R.

Lemma fold_min_Fin (l : list node) (a : R) :
  fold_left (fun m n => Rx.min m (Rx.Fin (f n))) l (Rx.Fin a)
  = Rx.Fin (fold_left (fun m n => Rmin m (f n)) l a).
Proof. revert a. induction l as [|n l IH]; intros a; simpl; auto. Qed.

Lemma fold_max_Fin (l : list node) (a : R) :
  fold_left (fun m n => Rx.max m (Rx.Fin (f n))) l (Rx.Fin a)
  = Rx.Fin (fold_left (fun m n => Rmax m (f n)) l a).
Proof. revert a. induction l as [|n l IH]; intros a; simpl; auto. Qed.

Lemma fold_Rmin_least (l : list node) (a : R) :
  let m := fold_left (fun m n => Rmin m (f n)) l a in
  (m <= a)%R /\ (forall n, In n l -> (m <= f n)%R)
  /\ (m = a \/ exists n, In n l /\ f n = m).
Proof.
  revert a. induction l as [|n l IH]; intros a; simpl.
  - split; [lra|]. split; [tauto|now left].
  - destruct (IH (Rmin a (f n))) as (H1 & H2 & H3).
    pose proof (Rmin_l a (f n)). pose proof (Rmin_r a (f n)).
    split; [lra|]. split.
    + intros x [<-|Hx]; [lra|now apply H2].
    + destruct H3 as [H3|(x & Hx & E)].
      * destruct (Rmin_case a (f n) (fun r => r = a \/ r = f n))
          as [E|E]; [now left|now right| |].
        -- left. now rewrite H3.
        -- right. exists n. split; [now left|]. now rewrite H3.
      * right. exists x. split; [now right|exact E].
Qed.

Lemma fold_Rmax_greatest (l : list node) (a : R) :
  let m := fold_left (fun m n => Rmax m (f n)) l a in
  (a <= m)%R /\ (forall n, In n l -> (f n <= m)%R)
  /\ (m = a \/ exists n, In n l /\ f n = m).
Proof.
  revert a. induction l as [|n l IH]; intros a; simpl.
  - split; [lra|]. split; [tauto|now left].
  - destruct (IH (Rmax a (f n))) as (H1 & H2 & H3).
    pose proof (Rmax_l a (f n)). pose proof (Rmax_r a (f n)).
    split; [lra|]. split.
    + intros x [<-|Hx]; [lra|now apply H2].
    + destruct H3 as [H3|(x & Hx & E)].
      * destruct (Rmax_case a (f n) (fun r => r = a \/ r = f n))
          as [E|E]; [now left|now right| |].
        -- left. now rewrite H3.
        -- right. exists n. split; [now left|]. now rewrite H3.
      * right. exists x. split; [now right|exact E].
Qed.
End Extremes.

Lemma widen_fold (s : R) (l : list node) (a b c d : Rx.t) :
  fold_left (widen s) l (a, b, c, d)
  = (fold_left (fun m n => Rx.min m (Rx.Fin (Node.x n * s))) l a,
     fold_left (fun m n => Rx.max m (Rx.Fin (Node.x n * s))) l b,
     fold_left (fun m n => Rx.min m (Rx.Fin (Node.y n * s))) l c,
     fold_left (fun m n => Rx.max m (Rx.Fin (Node.y n * s))) l d).
Proof.
  revert a b c d. induction l as [|n l IH]; intros a b c d; simpl;
    [reflexivity|]. apply IH.
Qed.

Lemma bounding_box (n0 : node) (l : list node) :
  exists minX maxX minY maxY,
    bounds (nodesToDeckData (n0 :: l))
    = (Rx.Fin minX, Rx.Fin maxX, Rx.Fin minY, Rx.Fin maxY)
    /\ (forall n, In n (n0 :: l) ->
          (minX <= Node.x n * 0.005 <= maxX)%R
          /\ (minY <= Node.y n * 0.005 <= maxY)%R)
    /\ (exists n, In n (n0 :: l) /\ (Node.x n * 0.005)%R = minX)
    /\ (exists n, In n (n0 :: l) /\ (Node.x n * 0.005)%R = maxX)
    /\ (exists n, In n (n0 :: l) /\ (Node.y n * 0.005)%R = minY)
    /\ (exists n, In n (n0 :: l) /\ (Node.y n * 0.005)%R = maxY).
Proof.
  unfold nodesToDeckData. simpl.
  rewrite widen_fold, !fold_min_Fin, !fold_max_Fin.
  destruct (fold_Rmin_least (fun n => Node.x n * 0.005)%R l
              (Node.x n0 * 0.005)%R) as (A1 & A2 & A3).
  destruct (fold_Rmax_greatest (fun n => Node.x n * 0.005)%R l
              (Node.x n0 * 0.005)%R) as (B1 & B2 & B3).
  destruct (fold_Rmin_least (fun n => Node.y n * 0.005)%R l
              (Node.y n0 * 0.005)%R) as (C1 & C2 & C3).
  destruct (fold_Rmax_greatest (fun n => Node.y n * 0.005)%R l
              (Node.y n0 * 0.005)%R) as (D1 & D2 & D3).
  do 4 eexists. split; [reflexivity|]. split.
  { intros n [<-|Hn].
    - split; split; assumption.
    - split; split; auto. }
  assert (G : forall (g : node -> R) (m : R),
             (m = g n0 \/ exists n, In n l /\ g n = m) ->
             exists n, (n0 = n \/ In n l) /\ g n = m).
  { intros g m [->|(n & Hn & E)]; [exists n0|exists n]; auto. }
  split; [apply (G (fun n => Node.x n * 0.005)%R), A3|].
  split; [apply (G (fun n => Node.x n * 0.005)%R), B3|].
  split; [apply (G (fun n => Node.y n * 0.005)%R), C3|].
  apply (G (fun n => Node.y n * 0.005)%R), D3.
Qed.

(** X17. The bounds returned with the node data are the bounding box of
    the node positions at scale 0.005: every node lies inside, and each
    side is reached by some node; the camera starts at the centre of
    the box.  With no nodes at all the box is the inverted infinite one
    and the centre is not a number. *)
Theorem deck_bounds :
  forall (nodes : list node),
    let deck := nodesToDeckData nodes in
    nodeData deck = nodes
    /\ match nodes with
       | [] =>
           bounds deck = (Rx.PosInf, Rx.NegInf, Rx.PosInf, Rx.NegInf)
           /\ App.longitude (App.initialViewState deck) = Rx.NaN
           /\ App.latitude (App.initialViewState deck) = Rx.NaN
       | _ :: _ =>
           exists minX maxX minY maxY,
             bounds deck
             = (Rx.Fin minX, Rx.Fin maxX, Rx.Fin minY, Rx.Fin maxY)
             /\ (forall n, In n nodes ->
                   (minX <= Node.x n * 0.005 <= maxX)%R
                   /\ (minY <= Node.y n * 0.005 <= maxY)%R)
             /\ (exists n, In n nodes /\ (Node.x n * 0.005)%R = minX)
             /\ (exists n, In n nodes /\ (Node.x n * 0.005)%R = maxX)
             /\ (exists n, In n nodes /\ (Node.y n * 0.005)%R = minY)
             /\ (exists n, In n nodes /\ (Node.y n * 0.005)%R = maxY)
             /\ App.longitude (App.initialViewState deck)
                = Rx.Fin ((minX + maxX) / 2)
             /\ App.latitude (App.initialViewState deck)
                = Rx.Fin ((minY + maxY) / 2)
       end.
Proof.
  intros [|n0 l]; cbv zeta; (split; [reflexivity|]).
  - repeat split; reflexivity.
  - destruct (bounding_box n0 l)
      as (minX & maxX & minY & maxY & Hb & He & H1 & H2 & H3 & H4).
    exists minX, maxX, minY, maxY.
    split; [exact Hb|]. split; [exact He|].
    split; [exact H1|]. split; [exact H2|].
    split; [exact H3|]. split; [exact H4|].
    unfold App.initialViewState. rewrite Hb. split; reflexivity.
Qed.

Lemma layer_data_incl (nodes : list node) (searchTerm : string)
    (zoom : jsnum) (l : layer) :
  In l (App.getLayers (searchNodes nodes searchTerm) zoom nodes) ->
  incl (data l) nodes.
Proof.
  assert (Ht : forall l', In l' (createAllTextLayers nodes zoom) ->
                          incl (data l') nodes).
  { intros l' Hin. rewrite createAllTextLayers_table in Hin.
    destruct (In_layer_table _ _ _ Hin)
      as (c & i & t & o & p & -> & _). simpl.
    intros n Hn. unfold of_type in Hn. now apply filter_In in Hn. }
  unfold App.getLayers, searchNodes, createSearchHighlightLayer, push.
  destruct (blank searchTerm); cbv zeta; [exact (Ht l)|].
  fold (hit (toLowerCase searchTerm)).
  destruct (filter (hit (toLowerCase searchTerm)) nodes) as [|m ms] eqn:E;
    simpl; [exact (Ht l)|].
  intros [<-|Hin]; [|now apply Ht]. simpl. rewrite <- E.
  intros n Hn. now apply filter_In in Hn.
Qed.

(** X21. Whatever is drawn lies inside the bounds: every layer of the
    layer list, the search highlight included, places each of its nodes
    at its coordinates scaled by 0.005, the scale of [nodesToDeckData],
    so inside the box whose centre is the initial camera position. *)
Theorem drawn_inside_bounds :
  forall (nodes : list node) (searchTerm : string) (zoom : jsnum)
         (l : layer) (d : node),
    In l (App.getLayers (searchNodes nodes searchTerm) zoom nodes) ->
    In d (data l) ->
    exists minX maxX minY maxY,
      bounds (nodesToDeckData nodes)
      = (Rx.Fin minX, Rx.Fin maxX, Rx.Fin minY, Rx.Fin maxY)
      /\ (minX <= fst (getPosition d) <= maxX)%R
      /\ (minY <= snd (getPosition d) <= maxY)%R
      /\ App.longitude (App.initialViewState (nodesToDeckData nodes))
         = Rx.Fin ((minX + maxX) / 2)
      /\ App.latitude (App.initialViewState (nodesToDeckData nodes))
         = Rx.Fin ((minY + maxY) / 2).
Proof.
  intros nodes searchTerm zoom l d Hl Hd.
  apply (layer_data_incl _ _ _ _ Hl) in Hd.
  destruct nodes as [|n0 rest]; [contradiction|].
  destruct (bounding_box n0 rest)
    as (minX & maxX & minY & maxY & Hb & He & _).
  exists minX, maxX, minY, maxY. split; [exact Hb|].
  destruct (He d Hd) as [Hx Hy]. unfold getPosition, SCALE. simpl.
  split; [exact Hx|]. split; [exact Hy|].
  unfold App.initialViewState. rewrite Hb. split; reflexivity.
Qed.

Lemma drawn_inside_bounds_witness :
  let l := nth 0 (App.getLayers (searchNodes nodes_engineering "engineering")
                    (Fin 5) nodes_engineering) dummy_layer in
  let d := nth 0 (data l) dummy_node in
  exists minX maxX minY maxY,
    bounds (nodesToDeckData nodes_engineering)
    = (Rx.Fin minX, Rx.Fin maxX, Rx.Fin minY, Rx.Fin maxY)
    /\ (minX <= fst (getPosition d) <= maxX)%R
    /\ (minY <= snd (getPosition d) <= maxY)%R
    /\ App.longitude
         (App.initialViewState (nodesToDeckData nodes_engineering))
       = Rx.Fin ((minX + maxX) / 2)
    /\ App.latitude
         (App.initialViewState (nodesToDeckData nodes_engineering))
       = Rx.Fin ((minY + maxY) / 2).
Proof.
  apply (@drawn_inside_bounds nodes_engineering "engineering" (Fin 5)
           (nth 0 (App.getLayers (searchNodes nodes_engineering "engineering")
                     (Fin 5) nodes_engineering) dummy_layer)
           (nth 0 (data (nth 0 (App.getLayers
                                  (searchNodes nodes_engineering "engineering")
                                  (Fin 5) nodes_engineering) dummy_layer))
              dummy_node)).
  - apply nth_In. vm_compute. lia.
  - apply nth_In. vm_compute. lia.
Defined.

(** ** The scene in the layers *)

Lemma process_row_type (rt : runtime) (st : state) (r : row) :
  Forall (fun t => Trip.type t = "trip") (st_trips st) ->
  Forall (fun t => Trip.type t = "trip") (st_trips (process_row rt st r)).
Proof.
  intros H. unfold process_row. destruct (skipped r); [exact H|].
  cbv zeta. destruct (Trip_ID r) as [v|]; [destruct (str_truthy v)|];
    simpl; apply Forall_app; (split; [exact H|]);
    constructor; auto.
Qed.

Lemma trips_of_type (rt : runtime) (rows : list row) :
  Forall (fun t => Trip.type t = "trip") (trips_of rt rows).
Proof.
  unfold trips_of.
  assert (G : forall st,
             Forall (fun t => Trip.type t = "trip") (st_trips st) ->
             Forall (fun t => Trip.type t = "trip")
               (st_trips (fold_left (process_row rt) rows st))).
  { induction rows as [|r rows IH]; intros st H; simpl; [exact H|].
    apply IH. now apply process_row_type. }
  apply G. constructor.
Qed.

(** The kind of every node of the result agrees with its [type]. *)
Lemma node_kinds (rt : runtime) (rows : list row) (n : node) :
  In n (nodes (processEmissionsData rt rows)) ->
  match n with
  | DeptNode d => Dept.type d = "department"
  | GroupNode g => group_shape g
  | TripNode t => Trip.type t = "trip"
  end.
Proof.
  intros H. destruct n as [d|g|t].
  - apply In_below in H. apply In_departments in H.
    destruct H as (i & k & _ & ->).
    apply (dept_record_fields rows k i).
  - now apply (result_group_shape rt rows).
  - destruct (result_nodes rt rows) as (out & E & HL).
    rewrite E in H. apply in_app_or in H. destruct H as [H|H].
    + apply in_map_iff in H. destruct H as (d & [=] & _).
    + destruct (HL _ H) as (t0 & k & g & Ht0 & _ & _ & ->). simpl.
      pose proof (trips_of_type rt rows) as HF. rewrite Forall_forall in HF.
      now apply HF.
Qed.

Lemma filter_all {A : Type} (p : A -> bool) (l : list A) :
  (forall a, In a l -> p a = true) -> filter p l = l.
Proof.
  induction l as [|a l IH]; intros H; simpl; [reflexivity|].
  rewrite (H a (or_introl eq_refl)), IH; [reflexivity|].
  intros b Hb. apply H. now right.
Qed.

Lemma filter_none {A : Type} (p : A -> bool) (l : list A) :
  (forall a, In a l -> p a = false) -> filter p l = [].
Proof.
  induction l as [|a l IH]; intros H; simpl; [reflexivity|].
  rewrite (H a (or_introl eq_refl)). apply IH.
  intros b Hb. apply H. now right.
Qed.

Lemma of_type_department (rt : runtime) (rows : list row) :
  of_type "department" (nodes (processEmissionsData rt rows))
  = map DeptNode (departments (processEmissionsData rt rows)).
Proof.
  pose proof (node_kinds rt rows) as HK. rewrite result_scene in *.
  unfold of_type. rewrite filter_app, filter_all, filter_none.
  - apply app_nil_r.
  - intros n Hn.
    assert (Hin : In n (nodes (processEmissionsData rt rows)))
      by now apply below_nodes.
    pose proof Hin as Hb. apply In_below in Hb.
    rewrite result_scene in Hin. specialize (HK n Hin).
    destruct n as [d|g|t]; simpl in *.
    + exfalso. destruct (result_nodes rt rows) as (out & E & HL).
      pose proof E as E'. rewrite result_scene in E'.
      apply app_inv_head in E'. subst out. exact (HL _ Hn).
    + destruct HK as [[-> _]|[[-> _]|[-> _]]]; reflexivity.
    + now rewrite HK.
  - intros n Hn. specialize (HK n (in_or_app _ _ _ (or_introl Hn))).
    apply in_map_iff in Hn. destruct Hn as (d & <- & _). simpl in *.
    now rewrite HK.
Qed.

Lemma of_type_trip (rt : runtime) (rows : list row) :
  trip_records (of_type "trip" (nodes (processEmissionsData rt rows)))
  = trip_records (nodes (processEmissionsData rt rows))
  /\ List.length (of_type "trip" (nodes (processEmissionsData rt rows)))
     = List.length (trip_records (nodes (processEmissionsData rt rows))).
Proof.
  pose proof (node_kinds rt rows) as HK. unfold of_type, trip_records.
  induction (nodes (processEmissionsData rt rows)) as [|n l IH]; simpl;
    [split; reflexivity|].
  destruct IH as [IH1 IH2]; [intros m Hm; apply HK; now right|].
  specialize (HK n (or_introl eq_refl)).
  destruct n as [d|g|t]; simpl in *.
  - rewrite HK. simpl. now split.
  - destruct HK as [[-> _]|[[-> _]|[-> _]]]; simpl; now split.
  - rewrite HK. simpl. rewrite IH1, IH2. now split.
Qed.

(** X18. What the layers show of a processed table.  In the layer list
    built from the nodes of [processEmissionsData], the two department
    layers hold exactly the department nodes, in the order of
    [departments]; the trip layer holds one node for each processed row
    (the rows, up to order, with their department, purpose, mode, route,
    emissions, cost and colour), [counts.trips] of them. *)
Theorem layers_show_scene :
  forall (rt : runtime) (rawData : list row) (zoom : jsnum) (l : layer),
    In l (createAllTextLayers (nodes (processEmissionsData rt rawData))
            zoom) ->
    (In (id l) ["department-circle-layer"; "department-text-layer"] ->
     data l = map DeptNode (departments (processEmissionsData rt rawData)))
    /\ (id l = "trip-layer" ->
        Permutation (trip_records (data l))
                    (map row_data (processed rawData))
        /\ List.length (data l)
           = c_trips (counts (processEmissionsData rt rawData))).
Proof.
  intros rt rawData zoom l Hin. rewrite createAllTextLayers_table in Hin.
  destruct (In_layer_table _ _ _ Hin)
    as (c & i & t & o & p & -> & -> & _ & _ & _).
  cbn [data id]. split.
  - intros [<-|[<-|[]]]; apply of_type_department.
  - intros ->. change (layer_node_type "trip-layer") with "trip".
    destruct (of_type_trip rt rawData) as [E1 E2]. rewrite E1, E2. split.
    + apply nodes_records.
    + rewrite (Permutation_length (nodes_records rt rawData)), length_map.
      symmetry. apply counts_trips.
Qed.

Lemma layers_show_scene_witness :
  (In (id (nth 1 layers_engineering dummy_layer))
      ["department-circle-layer"; "department-text-layer"] ->
   data (nth 1 layers_engineering dummy_layer)
   = map DeptNode (departments (processEmissionsData rt0 [row_engineering])))
  /\ (id (nth 1 layers_engineering dummy_layer) = "trip-layer" ->
      Permutation (trip_records (data (nth 1 layers_engineering dummy_layer)))
                  (map row_data (processed [row_engineering]))
      /\ List.length (data (nth 1 layers_engineering dummy_layer))
         = c_trips (counts (processEmissionsData rt0 [row_engineering]))).
Proof.
  apply (@layers_show_scene rt0 [row_engineering] (Fin 5)
           (nth 1 layers_engineering dummy_layer)).
  apply (@nth_In _ 1 layers_engineering dummy_layer). vm_compute. lia.
Defined.

(** ** What does not depend on the random source *)

Section Stable.
Variables rt rt' : runtime.

Lemma forEach_settled {A : Type}
    (body body' : A -> nat -> nat -> list node * nat) (arr : list A) :
  (forall a i n n', In a arr ->
     map settled (fst (body a i n)) = map settled (fst (body' a i n'))) ->
  forall i n n',
    map settled (fst (forEach body arr i n))
    = map settled (fst (forEach body' arr i n')).
Proof.
  induction arr as [|a arr IH]; intros H i n n'; simpl; [reflexivity|].
  pose proof (fun m m' => H a i m m' (or_introl eq_refl)) as Ha.
  specialize (Ha n n').
  destruct (body a i n) as [out n1]. destruct (body' a i n') as [out' n1'].
  specialize (IH (fun b j m m' Hb => H b j m m' (or_intror Hb)) (S i) n1 n1').
  destruct (forEach body arr (S i) n1) as [outs n2].
  destruct (forEach body' arr (S i) n1') as [outs' n2'].
  simpl in *. now rewrite !map_app, Ha, IH.
Qed.

Lemma position_trips_settled (rx ry : R) (l : list Trip.t) (n n' : nat) :
  map settled (fst (position_trips rt rx ry l n))
  = map settled (fst (position_trips rt' rx ry l n')).
Proof.
  unfold position_trips. apply forEach_settled.
  intros t i m m' _. reflexivity.
Qed.

Lemma position_route_settled (deptName purpose transport : string)
    (tx ty : R) (rm : routeMap) (routes : list string) (route : string)
    (k n n' : nat) :
  map settled (fst (position_route rt deptName purpose transport tx ty
                      rm routes route k n))
  = map settled (fst (position_route rt' deptName purpose transport tx ty
                        rm routes route k n')).
Proof.
  unfold position_route. cbv zeta.
  destruct (OMap.get rm route) as [tripList|]; [|reflexivity].
  match goal with
  | |- context [position_trips rt ?x ?y ?l n] =>
      pose proof (position_trips_settled x y l n n') as H;
      destruct (position_trips rt x y l n) as [placed m];
      destruct (position_trips rt' x y l n') as [placed' m']
  end.
  simpl in *. now rewrite H.
Qed.

Lemma position_transport_settled (deptName purpose : string)
    (px py : R) (tm : transportMap) (transports : list string)
    (transport : string) (j n n' : nat) :
  map settled (fst (position_transport rt deptName purpose px py
                      tm transports transport j n))
  = map settled (fst (position_transport rt' deptName purpose px py
                        tm transports transport j n')).
Proof.
  unfold position_transport. cbv zeta.
  destruct (OMap.get tm transport) as [rm|]; [|reflexivity].
  match goal with
  | |- context [forEach ?b ?l ?i n] =>
      match goal with
      | |- context [forEach ?b' l i n'] =>
          assert (H : map settled (fst (forEach b l i n))
                      = map settled (fst (forEach b' l i n')));
          [|destruct (forEach b l i n) as [out m];
            destruct (forEach b' l i n') as [out' m']]
      end
  end.
  - apply forEach_settled. intros route k m m' _.
    apply position_route_settled.
  - simpl in *. now rewrite H.
Qed.

Lemma position_purpose_settled (deptName : string) (deptPos : R * R)
    (pm : purposeMap) (purposes : list string) (purpose : string)
    (i n n' : nat) :
  map settled (fst (position_purpose rt deptName deptPos pm purposes
                      purpose i n))
  = map settled (fst (position_purpose rt' deptName deptPos pm purposes
                        purpose i n')).
Proof.
  unfold position_purpose. cbv zeta.
  destruct (OMap.get pm purpose) as [tm|]; [|reflexivity].
  match goal with
  | |- context [forEach ?b ?l ?i n] =>
      match goal with
      | |- context [forEach ?b' l i n'] =>
          assert (H : map settled (fst (forEach b l i n))
                      = map settled (fst (forEach b' l i n')));
          [|destruct (forEach b l i n) as [out m];
            destruct (forEach b' l i n') as [out' m']]
      end
  end.
  - apply forEach_settled. intros transport j m m' _.
    apply position_transport_settled.
  - simpl in *. now rewrite H.
Qed.

Lemma position_dept_group_settled (deptPositions : OMap.t (R * R))
    (entry : string * purposeMap) (i n n' : nat) :
  map settled (fst (position_dept_group rt deptPositions entry i n))
  = map settled (fst (position_dept_group rt' deptPositions entry i n')).
Proof.
  destruct entry as [deptName pm]. unfold position_dept_group.
  destruct (OMap.get deptPositions deptName) as [deptPos|]; [|reflexivity].
  apply forEach_settled. intros purpose j m m' _.
  apply position_purpose_settled.
Qed.

Lemma process_row_identified (st st' : state) (r : row) :
  (skipped r = false -> text_truthy (Trip_ID r) = true) ->
  st_trips st = st_trips st' ->
  st_trips (process_row rt st r) = st_trips (process_row rt' st' r).
Proof.
  intros Hid E. unfold process_row.
  destruct (skipped r); [exact E|]. specialize (Hid eq_refl).
  cbv zeta. unfold text_truthy in Hid.
  destruct (Trip_ID r) as [v|]; [|discriminate].
  rewrite Hid. simpl. now rewrite E.
Qed.

Lemma trips_of_identified (rows : list row) :
  (forall r, In r (processed rows) -> text_truthy (Trip_ID r) = true) ->
  trips_of rt rows = trips_of rt' rows.
Proof.
  intros Hid. unfold trips_of.
  assert (G : forall st st',
             st_trips st = st_trips st' ->
             st_trips (fold_left (process_row rt) rows st)
             = st_trips (fold_left (process_row rt') rows st')).
  { induction rows as [|r rows IH]; intros st st' E; simpl; [exact E|].
    apply IH.
    - intros r' Hr'. apply Hid. unfold processed in *. simpl.
      destruct (negb (skipped r)); [now right|exact Hr'].
    - apply process_row_identified; [|exact E].
      intros Hs. apply Hid. unfold processed. simpl. rewrite Hs. now left. }
  now apply G.
Qed.
End Stable.

(** X19. Only the trips are scattered at random.  When every processed
    row carries a trip identifier, two runs with different random
    sources return the same nodes in the same order, equal in every
    field except the coordinates of the trip nodes; the other results
    (departments, total, counts) are the same too. *)
Theorem layout_stable :
  forall (rt rt' : runtime) (rawData : list row),
    (forall r, In r (processed rawData) -> text_truthy (Trip_ID r) = true) ->
    map settled (nodes (processEmissionsData rt rawData))
    = map settled (nodes (processEmissionsData rt' rawData))
    /\ departments (processEmissionsData rt rawData)
       = departments (processEmissionsData rt' rawData)
    /\ totalEmissions (processEmissionsData rt rawData)
       = totalEmissions (processEmissionsData rt' rawData)
    /\ counts (processEmissionsData rt rawData)
       = counts (processEmissionsData rt' rawData).
Proof.
  intros rt rt' rawData Hid.
  assert (Hd : departments (processEmissionsData rt rawData)
               = departments (processEmissionsData rt' rawData)).
  { destruct (result_departments rt rawData) as [-> _].
    destruct (result_departments rt' rawData) as [-> _]. reflexivity. }
  split; [|split; [exact Hd|split]].
  - rewrite !result_scene, !map_app, Hd. f_equal.
    unfold below. rewrite Hd, (trips_of_identified rt rt' rawData Hid).
    apply forEach_settled. intros entry i n n' _.
    apply position_dept_group_settled.
  - now rewrite !result_totalEmissions.
  - destruct (counts (processEmissionsData rt rawData)) as [cd ct] eqn:E1.
    destruct (counts (processEmissionsData rt' rawData)) as [cd' ct'] eqn:E2.
    pose proof (counts_trips rt rawData) as T1.
    pose proof (counts_trips rt' rawData) as T2.
    pose proof (proj2 (result_departments rt rawData)) as D1.
    pose proof (proj2 (result_departments rt' rawData)) as D2.
    rewrite E1 in T1, D1. rewrite E2 in T2, D2. simpl in *. congruence.
Qed.

Lemma layout_stable_witness :
  map settled (nodes (processEmissionsData rt0 rows_sample))
  = map settled (nodes (processEmissionsData
                          {| Math_random := fun _ => (1 / 2)%R;
                             toString36 := fun _ => "i" |} rows_sample))
  /\ departments (processEmissionsData rt0 rows_sample)
     = departments (processEmissionsData
                      {| Math_random := fun _ => (1 / 2)%R;
                         toString36 := fun _ => "i" |} rows_sample)
  /\ totalEmissions (processEmissionsData rt0 rows_sample)
     = totalEmissions (processEmissionsData
                         {| Math_random := fun _ => (1 / 2)%R;
                            toString36 := fun _ => "i" |} rows_sample)
  /\ counts (processEmissionsData rt0 rows_sample)
     = counts (processEmissionsData
                 {| Math_random := fun _ => (1 / 2)%R;
                    toString36 := fun _ => "i" |} rows_sample).
Proof.
  apply (@layout_stable rt0
           {| Math_random := fun _ => (1 / 2)%R;
              toString36 := fun _ => "i" |} rows_sample).
  intros r Hr. vm_compute in Hr.
  repeat (destruct Hr as [<-|Hr]; [reflexivity|]). contradiction.
Defined.

(* ================================================================= *)
(** ** Groups around their parents *)

Section ForEachAt.
Context {A B : Type} (body : A -> nat -> nat -> list B * nat).

(** As [forEach_closed], with the index of each element. *)
Lemma forEach_closed_at (Loc : list B -> Prop) (arr : list A) :
  Loc [] ->
  (forall l1 l2, Loc l1 -> Loc l2 -> Loc (l1 ++ l2)%list) ->
  forall i0,
    (forall k a n, nth_error arr k = Some a ->
                   Loc (fst (body a (i0 + k) n))) ->
    forall n, Loc (fst (forEach body arr i0 n)).
Proof.
  intros Hnil Happ. induction arr as [|a arr IH]; intros i0 H n; simpl;
    [exact Hnil|].
  pose proof (H 0 a n eq_refl) as Ha. rewrite Nat.add_0_r in Ha.
  destruct (body a i0 n) as [out n1].
  assert (Hrest : Loc (fst (forEach body arr (S i0) n1))).
  { apply IH. intros k b m Hk. rewrite Nat.add_succ_comm.
    apply H. exact Hk. }
  destruct (forEach body arr (S i0) n1) as [outs n2]. simpl in *.
  now apply Happ.
Qed.
End ForEachAt.

Ltac name_group :=
  match goal with
  | |- context [GroupNode (Group.mk ?a ?b ?c ?d ?e ?f ?x ?y ?h ?r)] =>
      set (group := Group.mk a b c d e f x y h r)
  end.

Section Nesting.
Variable rt : runtime.

(** What one iteration over the routes pushes: one route group, placed
    around the transport position, and trips. *)
Lemma position_route_groups (deptName purpose transport : string)
    (tx ty : R) (rm : routeMap) (routes : list string) (route : string)
    (k n : nat) (g : Group.t) :
  In (GroupNode g)
     (fst (position_route rt deptName purpose transport tx ty rm routes
             route k n)) ->
  Group.type g = "route-group"
  /\ Group.name g = route
  /\ Group.department g = deptName
  /\ Group.purpose g = Some purpose
  /\ Group.transport g = Some transport
  /\ placed_at tx ty
       (ring_radius (TRANSPORT_GROUP_RADIUS * 0.6) (List.length routes))
       (ring_angle k (List.length routes)) (Group.x g) (Group.y g).
Proof.
  unfold position_route. cbv zeta. name_group.
  assert (Hfields : g = group ->
            Group.type g = "route-group"
            /\ Group.name g = route
            /\ Group.department g = deptName
            /\ Group.purpose g = Some purpose
            /\ Group.transport g = Some transport
            /\ placed_at tx ty
                 (ring_radius (TRANSPORT_GROUP_RADIUS * 0.6)
                    (List.length routes))
                 (ring_angle k (List.length routes))
                 (Group.x g) (Group.y g)).
  { intros E. rewrite E. repeat split. }
  destruct (OMap.get rm route) as [tripList|].
  - match goal with
    | |- context [position_trips rt ?x ?y ?l ?n] =>
        pose proof (position_trips_In rt x y l n) as HF;
        destruct (position_trips rt x y l n) as [placed n']
    end.
    simpl fst in *. intros [E|Hin]; [apply Hfields; now injection E|].
    rewrite Forall_forall in HF. destruct (HF _ Hin) as (t & j & _ & E).
    discriminate.
  - simpl. intros [E|[]]. apply Hfields. now injection E.
Qed.

Lemma transport_level_app (v : list Trip.t) (deptName purpose : string)
    (px py : R) (transports : list string) (l1 l2 : list node) :
  transport_level v deptName purpose px py transports l1 ->
  transport_level v deptName purpose px py transports l2 ->
  transport_level v deptName purpose px py transports (l1 ++ l2).
Proof.
  intros H1 H2 g Hg. apply in_app_or in Hg.
  destruct Hg as [Hg|Hg];
    [destruct (H1 g Hg) as (A & B & C)|destruct (H2 g Hg) as (A & B & C)];
    (split; [exact A|]; split; [exact B|]; intros Ht;
     destruct (C Ht) as (tg & Hin & Hr); exists tg;
     split; [apply in_or_app; auto|exact Hr]).
Qed.

Lemma position_transport_nested (trips : list Trip.t)
    (deptName purpose : string) (px py : R) (transports : list string)
    (transport : string) (j n : nat) :
  nth_error transports j = Some transport ->
  transport_level trips deptName purpose px py transports
    (fst (position_transport rt deptName purpose px py
            (group_transports
               (under Trip.purpose purpose
                  (under Trip.department deptName trips)))
            transports transport j n)).
Proof.
  intros Hj. unfold position_transport. cbv zeta. name_group.
  set (v := under Trip.purpose purpose (under Trip.department deptName trips)).
  assert (Hg : Group.type group <> "purpose-group"
               /\ (Group.type group = "transport-group" ->
                   Group.department group = deptName
                   /\ Group.purpose group = Some purpose
                   /\ exists j0,
                        nth_error transports j0 = Some (Group.name group)
                        /\ placed_at px py
                             (ring_radius (PURPOSE_GROUP_RADIUS * 0.65)
                                (List.length transports))
                             (ring_angle j0 (List.length transports))
                             (Group.x group) (Group.y group))).
  { split; [discriminate|]. intros _. split; [reflexivity|].
    split; [reflexivity|]. exists j. split; [exact Hj|]. now split. }
  destruct (OMap.get (group_transports v) transport) as [rm|] eqn:E.
  - apply get_grouped in E. subst rm.
    match goal with
    | |- context [forEach ?b ?l ?i ?n] =>
        assert (Hall : Forall
                  (fun x => forall g, x = GroupNode g ->
                     Group.type g = "route-group"
                     /\ Group.department g = deptName
                     /\ Group.purpose g = Some purpose
                     /\ Group.transport g = Some transport
                     /\ exists k,
                          nth_error l k = Some (Group.name g)
                          /\ placed_at (Group.x group) (Group.y group)
                               (ring_radius (TRANSPORT_GROUP_RADIUS * 0.6)
                                  (List.length l))
                               (ring_angle k (List.length l))
                               (Group.x g) (Group.y g))
                  (fst (forEach b l i n)));
        [|destruct (forEach b l i n) as [below n']]
    end.
    { apply forEach_closed_at.
      - constructor.
      - intros l1 l2 H1 H2. apply Forall_app. now split.
      - intros k route m Hk. apply Forall_forall.
        intros x Hx g0 E0. subst x.
        destruct (position_route_groups _ _ _ _ _ _ _ _ _ _ _ Hx)
          as (T1 & T2 & T3 & T4 & T5 & T6).
        split; [exact T1|]. split; [exact T3|]. split; [exact T4|].
        split; [exact T5|]. exists k. rewrite T2. split; [exact Hk|exact T6]. }
    simpl fst in *. intros g [Eg|Hin].
    + injection Eg as <-. destruct Hg as [A B]. split; [exact A|].
      split; [exact B|]. intros Ht. discriminate.
    + rewrite Forall_forall in Hall.
      destruct (Hall _ Hin g eq_refl) as (T1 & T2 & T3 & T4 & k & Hk & T5).
      split; [rewrite T1; discriminate|].
      split; [rewrite T1; discriminate|]. intros _.
      exists group. split; [now left|].
      unfold around_transport. split; [reflexivity|].
      split; [simpl; congruence|]. split; [simpl; congruence|].
      split; [exact T4|]. exists purpose, k. cbv zeta. rewrite T2.
      unfold routes_of. unfold group_routes in Hk, T5.
      rewrite keys_bucket in Hk, T5.
      split; [exact T3|]. split; [exact Hk|exact T5].
  - simpl. intros g [Eg|[]]. injection Eg as <-. destruct Hg as [A B].
    split; [exact A|]. split; [exact B|]. intros Ht. discriminate.
Qed.

Lemma purpose_level_app (v : list Trip.t) (deptName : string) (cx cy : R)
    (purposes : list string) (l1 l2 : list node) :
  purpose_level v deptName cx cy purposes l1 ->
  purpose_level v deptName cx cy purposes l2 ->
  purpose_level v deptName cx cy purposes (l1 ++ l2).
Proof.
  intros H1 H2 g Hg. apply in_app_or in Hg.
  destruct Hg as [Hg|Hg];
    [destruct (H1 g Hg) as (A & B & C)|destruct (H2 g Hg) as (A & B & C)];
    (split; [exact A|]; split; intros Ht;
     [destruct (B Ht) as (x & Hin & Hr)|destruct (C Ht) as (x & Hin & Hr)];
     exists x; (split; [apply in_or_app; auto|exact Hr])).
Qed.

Lemma position_purpose_nested (trips : list Trip.t) (deptName : string)
    (deptPos : R * R) (purposes : list string) (purpose : string)
    (i n : nat) :
  nth_error purposes i = Some purpose ->
  purpose_level trips deptName (fst deptPos) (snd deptPos) purposes
    (fst (position_purpose rt deptName deptPos
            (group_purposes (under Trip.department deptName trips))
            purposes purpose i n)).
Proof.
  intros Hi. unfold position_purpose. cbv zeta. name_group.
  assert (Hg : Group.type group = "purpose-group" ->
               Group.department group = deptName
               /\ exists i0,
                    nth_error purposes i0 = Some (Group.name group)
                    /\ placed_at (fst deptPos) (snd deptPos)
                         DEPT_CLUSTER_RADIUS
                         (ring_angle i0 (List.length purposes))
                         (Group.x group) (Group.y group)).
  { intros _. split; [reflexivity|]. exists i. split; [exact Hi|].
    now split. }
  destruct (OMap.get (group_purposes
                        (under Trip.department deptName trips)) purpose)
    as [tm|] eqn:E.
  - apply get_grouped in E. subst tm.
    match goal with
    | |- context [forEach ?b ?l ?i ?n] =>
        assert (HL : transport_level trips deptName purpose
                       (Group.x group) (Group.y group) l
                       (fst (forEach b l i n)));
        [|destruct (forEach b l i n) as [below n']]
    end.
    { apply forEach_closed_at.
      - intros g [].
      - apply transport_level_app.
      - intros j transport m Hj. now apply position_transport_nested. }
    simpl fst in *. intros g [Eg|Hin].
    + injection Eg as <-. split; [exact Hg|].
      split; intros Ht; discriminate.
    + destruct (HL g Hin) as (A & B & C).
      split; [intros Ht; contradiction|]. split.
      * intros Ht. destruct (B Ht) as (B1 & B2 & j & Hj & B3).
        exists group. split; [now left|].
        unfold around_purpose. split; [reflexivity|].
        split; [simpl; congruence|]. split; [exact B2|].
        exists j. cbv zeta. rewrite B1.
        unfold transports_of. unfold group_transports in Hj, B3.
        rewrite keys_map_values, keys_bucket in Hj, B3.
        split; [exact Hj|exact B3].
      * intros Ht. destruct (C Ht) as (tg & Htg & Hr).
        exists tg. split; [now right|exact Hr].
  - simpl. intros g [Eg|[]]. injection Eg as <-. split; [exact Hg|].
    split; intros Ht; discriminate.
Qed.

Lemma nested_app (v : list Trip.t) (placed : list Dept.t)
    (l1 l2 : list node) :
  nested v placed l1 -> nested v placed l2 -> nested v placed (l1 ++ l2).
Proof.
  intros H1 H2 g Hg. apply in_app_or in Hg.
  destruct Hg as [Hg|Hg];
    [destruct (H1 g Hg) as (A & B & C)|destruct (H2 g Hg) as (A & B & C)];
    (split; [exact A|]; split; intros Ht;
     [destruct (B Ht) as (x & Hin & Hr)|destruct (C Ht) as (x & Hin & Hr)];
     exists x; (split; [apply in_or_app; auto|exact Hr])).
Qed.

Lemma position_dept_group_nested (placed : list Dept.t)
    (trips : list Trip.t) (entry : string * purposeMap) (i n : nat) :
  In entry (group_departments trips) ->
  nested trips placed
    (fst (position_dept_group rt (positions_of placed) entry i n)).
Proof.
  destruct entry as [deptName pm]. intros Hin.
  apply In_grouped in Hin. destruct Hin as [-> _].
  unfold position_dept_group.
  destruct (OMap.get (positions_of placed) deptName) as [deptPos|] eqn:E;
    [|intros g []].
  apply positions_of_get in E. destruct E as (d & Hd & En & ->).
  match goal with
  | |- context [forEach ?b ?l ?i ?n] =>
      assert (HL : purpose_level trips deptName (Dept.x d) (Dept.y d) l
                     (fst (forEach b l i n)))
  end.
  { apply forEach_closed_at.
    - intros g [].
    - apply purpose_level_app.
    - intros k purpose m Hk.
      apply (@position_purpose_nested trips deptName (Dept.x d, Dept.y d)).
      exact Hk. }
  intros g Hg. destruct (HL g Hg) as (A & B & C).
  split; [|split; [exact B|exact C]].
  intros Ht. destruct (A Ht) as (A1 & k & Hk & A2).
  exists d. split; [exact Hd|]. unfold around_department.
  split; [congruence|]. exists k. cbv zeta. rewrite A1.
  unfold purposes_of. unfold group_purposes in Hk, A2.
  rewrite keys_map_values, keys_bucket in Hk, A2.
  split; [exact Hk|exact A2].
Qed.

Lemma below_nested (rows : list row) :
  nested (trips_of rt rows) (departments (processEmissionsData rt rows))
    (below rt rows).
Proof.
  unfold below. apply forEach_closed.
  - intros g [].
  - apply nested_app.
  - intros entry i n Hin. now apply position_dept_group_nested.
Qed.
End Nesting.

Lemma ring_centre (cx cy base angle x y : R) (siblings : nat) :
  siblings <= 1 ->
  placed_at cx cy (ring_radius base siblings) angle x y ->
  x = cx /\ y = cy.
Proof.
  intros Hs [Hx Hy]. unfold ring_radius in *.
  destruct (1 <? siblings) eqn:E; [apply Nat.ltb_lt in E; lia|].
  rewrite Hx, Hy. split; ring.
Qed.

(** X13. Purpose groups around their department.  Every purpose group
    node has the node of its department in the result and is placed
    around it: the [i]-th purpose of the department (in the order in
    which its trips first mention them, from 0), of [m], is at the
    department's position plus the offset of length
    [DEPT_CLUSTER_RADIUS = 180] and angle [i * (2 PI / m)]. *)
Theorem purpose_placement :
  forall (rt : runtime) (rawData : list row) (n : node),
    In n (nodes (processEmissionsData rt rawData)) ->
    match n with
    | GroupNode g =>
        Group.type g = "purpose-group" ->
        exists d,
          In (DeptNode d) (nodes (processEmissionsData rt rawData))
          /\ around_department (trips_of rt rawData) g d
    | _ => True
    end.
Proof.
  intros rt rawData [d|g|t] H; try exact I.
  apply In_below in H.
  destruct (below_nested rt rawData g H) as (A & _ & _).
  intros Ht. destruct (A Ht) as (d & Hd & Hr).
  exists d. split; [|exact Hr].
  rewrite result_scene. apply in_or_app. left. now apply in_map.
Qed.

Lemma purpose_placement_witness :
  exists g d,
    nth_error nodes_sample 6 = Some (GroupNode g)
    /\ Group.type g = "purpose-group"
    /\ In (DeptNode d) nodes_sample
    /\ around_department (trips_of rt0 rows_sample) g d.
Proof.
  assert (E : exists g, nth_error nodes_sample 6 = Some (GroupNode g)
                        /\ Group.type g = "purpose-group")
    by (eexists; split; reflexivity).
  destruct E as (g & E & Ht).
  destruct (@purpose_placement rt0 rows_sample (GroupNode g)
              (nth_error_In _ _ E) Ht) as (d & Hd & Hr).
  exists g, d. split; [exact E|]. split; [exact Ht|].
  split; [exact Hd|exact Hr].
Defined.

(** X20. Groups inside groups.  Every transport group node has the
    purpose group node of its department and purpose in the result and
    is placed around it: the [j]-th transport mode of that purpose, of
    [m], is at the purpose group's position plus the offset of length
    [PURPOSE_GROUP_RADIUS * 0.65] and angle [j * (2 PI / m)], the length
    being 0 when [m] is 1, so that a lone transport group lies on its
    purpose group.  Every route group node has the transport group node
    of its department, purpose and transport mode, and is placed around
    it in the same way, with [TRANSPORT_GROUP_RADIUS * 0.6]. *)
Theorem group_nesting :
  forall (rt : runtime) (rawData : list row) (n : node),
    In n (nodes (processEmissionsData rt rawData)) ->
    match n with
    | GroupNode g =>
        (Group.type g = "transport-group" ->
         exists pg,
           In (GroupNode pg) (nodes (processEmissionsData rt rawData))
           /\ around_purpose (trips_of rt rawData) g pg
           /\ (List.length (transports_of (Group.department g)
                              (Group.name pg) (trips_of rt rawData)) <= 1 ->
               Group.x g = Group.x pg /\ Group.y g = Group.y pg))
        /\ (Group.type g = "route-group" ->
            exists tg,
              In (GroupNode tg) (nodes (processEmissionsData rt rawData))
              /\ around_transport (trips_of rt rawData) g tg
              /\ (forall purpose,
                    Group.purpose g = Some purpose ->
                    List.length (routes_of (Group.department g) purpose
                                   (Group.name tg) (trips_of rt rawData))
                    <= 1 ->
                    Group.x g = Group.x tg /\ Group.y g = Group.y tg))
    | _ => True
    end.
Proof.
  intros rt rawData [d|g|t] H; try exact I.
  apply In_below in H.
  destruct (below_nested rt rawData g H) as (_ & A & B).
  split; intros Ht.
  - destruct (A Ht) as (pg & Hpg & Hr). exists pg.
    split; [now apply below_nodes|]. split; [exact Hr|].
    intros Hlen. destruct Hr as (_ & _ & _ & j & _ & Hp).
    exact (@ring_centre _ _ _ _ _ _ _ Hlen Hp).
  - destruct (B Ht) as (tg & Htg & Hr). exists tg.
    split; [now apply below_nodes|]. split; [exact Hr|].
    intros purpose Ep Hlen.
    destruct Hr as (_ & _ & _ & _ & p & k & Ep' & _ & Hp).
    rewrite Ep in Ep'. injection Ep' as <-.
    exact (@ring_centre _ _ _ _ _ _ _ Hlen Hp).
Qed.

Lemma group_nesting_witness :
  (exists g pg,
     nth_error nodes_sample 7 = Some (GroupNode g)
     /\ Group.type g = "transport-group"
     /\ In (GroupNode pg) nodes_sample
     /\ around_purpose (trips_of rt0 rows_sample) g pg
     /\ Group.x g = Group.x pg /\ Group.y g = Group.y pg)
  /\ (exists g tg,
        nth_error nodes_sample 10 = Some (GroupNode g)
        /\ Group.type g = "route-group"
        /\ In (GroupNode tg) nodes_sample
        /\ around_transport (trips_of rt0 rows_sample) g tg).
Proof.
  split.
  - assert (E : exists g, nth_error nodes_sample 7 = Some (GroupNode g)
                          /\ Group.type g = "transport-group"
                          /\ Group.department g = "Sales"
                          /\ Group.purpose g = Some "Customer Visit")
      by (eexists; repeat split; reflexivity).
    destruct E as (g & E & Ht & Hd & Hp).
    destruct (@group_nesting rt0 rows_sample (GroupNode g)
                (nth_error_In _ _ E)) as [H _].
    destruct (H Ht) as (pg & Hin & Hr & Hc).
    exists g, pg. split; [exact E|]. split; [exact Ht|].
    split; [exact Hin|]. split; [exact Hr|]. apply Hc.
    destruct Hr as (_ & _ & Hn & _). rewrite Hp in Hn.
    injection Hn as <-. rewrite Hd. vm_compute. lia.
  - assert (E : exists g, nth_error nodes_sample 10 = Some (GroupNode g)
                          /\ Group.type g = "route-group")
      by (eexists; split; reflexivity).
    destruct E as (g & E & Ht).
    destruct (@group_nesting rt0 rows_sample (GroupNode g)
                (nth_error_In _ _ E)) as [_ H].
    destruct (H Ht) as (tg & Hin & Hr & _).
    exists g, tg. split; [exact E|]. split; [exact Ht|].
    split; [exact Hin|exact Hr].
Defined.

(* ================================================================= *)

(** ** Trip placement *)

Lemma offset_bound (u : R) :
  (0 <= u < 1)%R ->
  (0 <= ROUTE_GROUP_RADIUS * sqrt u * 0.8 < 0.8 * ROUTE_GROUP_RADIUS)%R.
Proof.
  intros [H0 H1]. pose proof (sqrt_pos u) as Hs0.
  assert (Hs1 : (sqrt u < 1)%R).
  { pose proof (sqrt_lt_1_alt u 1) as Hlt. rewrite sqrt_1 in Hlt.
    apply Hlt. lra. }
  unfold ROUTE_GROUP_RADIUS. lra.
Qed.

(** C9 (as the code has it). With every value of the random source in
    [0, 1), each trip node is placed around the node of its own route
    group, at the centre plus the offset [(r cos theta, r sin theta)],
    with [r = ROUTE_GROUP_RADIUS * sqrt u1 * 0.8], which is less than
    [0.8 * ROUTE_GROUP_RADIUS], and [theta = u2 * 2 * PI], for two
    consecutive draws [u1], [u2]. *)
Theorem trip_placement :
  forall (rt : runtime) (rawData : list row) (t : Trip.t),
    (forall k, (0 <= Math_random rt k < 1)%R) ->
    In (TripNode t) (nodes (processEmissionsData rt rawData)) ->
    exists (g : Group.t) (k : nat),
      In (GroupNode g) (nodes (processEmissionsData rt rawData))
      /\ route_group_of g t
      /\ let u1 := Math_random rt k in
         let u2 := Math_random rt (S k) in
         let r := (ROUTE_GROUP_RADIUS * sqrt u1 * 0.8)%R in
         let theta := (u2 * 2 * PI)%R in
         Trip.x t = (Group.x g + r * cos theta)%R
         /\ Trip.y t = (Group.y g + r * sin theta)%R
         /\ (0 <= r < 0.8 * ROUTE_GROUP_RADIUS)%R.
Proof.
  intros rt rows t Hrand Hin.
  destruct (result_nodes rt rows) as (below & E & HL).
  rewrite E in Hin |- *. apply in_app_or in Hin. destruct Hin as [Hin|Hin].
  { apply in_map_iff in Hin. destruct Hin as (d & [=] & _). }
  destruct (HL _ Hin) as (t0 & k & g & _ & Hg & Hr & ->).
  exists g, k. split; [apply in_or_app; now right|]. split; [exact Hr|].
  cbv zeta. split; [reflexivity|]. split; [reflexivity|].
  apply offset_bound, Hrand.
Qed.

Lemma trip_quarter_In : In (TripNode trip_quarter) nodes_quarter.
Proof.
  assert (E : TripNode trip_quarter = nth 9 nodes_quarter dummy_node)
    by reflexivity.
  rewrite E. apply nth_In. vm_compute. lia.
Qed.

Lemma trip_placement_witness :
  exists (g : Group.t) (k : nat),
    In (GroupNode g) nodes_quarter
    /\ route_group_of g trip_quarter
    /\ let u1 := Math_random rt_quarter k in
       let u2 := Math_random rt_quarter (S k) in
       let r := (ROUTE_GROUP_RADIUS * sqrt u1 * 0.8)%R in
       let theta := (u2 * 2 * PI)%R in
       Trip.x trip_quarter = (Group.x g + r * cos theta)%R
       /\ Trip.y trip_quarter = (Group.y g + r * sin theta)%R
       /\ (0 <= r < 0.8 * ROUTE_GROUP_RADIUS)%R.
Proof.
  apply (@trip_placement rt_quarter rows_sample trip_quarter).
  - intros k. simpl. lra.
  - exact trip_quarter_In.
Defined.

Section DoublePrecision.
Import Floats.
Local Open Scope float_scope.

Lemma route_centre_engineering :
  exists g, nth 3 nodes_engineering dummy_node = GroupNode g
            /\ Group.type g = "route-group"%string
            /\ Group.x g = 180%R /\ Group.y g = 0%R.
Proof.
  eexists. split; [reflexivity|]. split; [reflexivity|].
  simpl. unfold DEPT_CLUSTER_RADIUS, spacing.
  rewrite !Rmult_0_l, sqrt_0, !Rmult_0_r, !Rmult_0_l, cos_0, sin_0.
  split; lra.
Qed.

(** The bound on the offset itself survives the rounding: at the largest
    double below 1 the offset is the double just below 4.8, which is
    less than [0.8 * ROUTE_GROUP_RADIUS] as the program would compute
    it. *)
#[warnings="-inexact-float"]
Lemma largest_offset :
  Double.ROUTE_GROUP_RADIUS * sqrt 0x1.fffffffffffffp-1 * 0.8
  = 0x1.3333333333333p+2
  /\ (0x1.3333333333333p+2 <? 0.8 * Double.ROUTE_GROUP_RADIUS) = true
  /\ Double.exact 0x1.3333333333333p+2
     = Some (5404319552844595 # 1125899906842624)%Q.
Proof. repeat split; vm_compute; reflexivity. Qed.

(** C9, as stated, fails in the program's numbers: in the scene of a
    single row the route group lies at (180, 0), and with the draws
    [u1 = 1 - 2^-52] and [u2 = 0] the sum [180 + r] rounds to the double
    nearest to 184.8, which lies outside the disk of radius
    [0.8 * ROUTE_GROUP_RADIUS = 4.8] around (180, 0). *)
Lemma trip_outside_disk :
  (exists g, In (GroupNode g) nodes_engineering
             /\ Group.type g = "route-group"%string
             /\ Group.x g = 180%R /\ Group.y g = 0%R)
  /\ (forall rt : Double.runtime,
        Double.Math_random rt 0%nat = 0x1.ffffffffffffep-1 ->
        Double.Math_random rt 1%nat = 0 ->
        Double.Math_cos rt 0 = 1 ->
        Double.Math_sin rt 0 = 0 ->
        Double.place_trip rt 180 0 0 = (0x1.719999999999ap+7, 0))
  /\ Double.exact 0x1.719999999999ap+7
     = Some (6502071962016154 # 35184372088832)%Q
  /\ Double.outside 0x1.719999999999ap+7 0 180 0 (0.8 * 6)%Q.
Proof.
  split; [|split; [|split]].
  - destruct route_centre_engineering as (g & E & H).
    exists g. split; [|exact H]. rewrite <- E.
    apply nth_In. vm_compute. lia.
  - intros rt H0 H1 Hc Hs. unfold Double.place_trip. rewrite H0, H1.
    change (0 * 2 * Double.Math_PI) with 0.
    rewrite Hc, Hs. reflexivity.
  - vm_compute. reflexivity.
  - vm_compute. reflexivity.
Qed.
End DoublePrecision.

(* ================================================================= *)
(** ** Rows with a falsy emission *)

Lemma row_emission_zero (r : row) :
  truthy (Carbon_Emission r) = true ->
  num_truthy (row_emission r) = false ->
  exists s, Carbon_Emission r = JStr s /\ s <> EmptyString
            /\ num_truthy (StringToNumber s) = false.
Proof.
  unfold row_emission, or_zero.
  destruct (Carbon_Emission r) as [| |b|n|s]; simpl; try discriminate.
  - intros ->. simpl. discriminate.
  - intros H1 H2. rewrite H1 in H2. congruence.
  - intros Hs Hz. exists s. split; [reflexivity|]. split.
    + intros ->. discriminate.
    + destruct (num_truthy (StringToNumber s)) eqn:E; [congruence|reflexivity].
Qed.

Section Origin.
Variable rt : runtime.

(** The trip made from a row: its data are those of the row, and its
    identifier that of the row when the row carries one. *)
Lemma process_row_made (st : state) (r : row) :
  skipped r = false ->
  exists t, st_trips (process_row rt st r) = (st_trips st ++ [t])%list
            /\ trip_data t = row_data r
            /\ (text_truthy (Trip_ID r) = true -> Trip.id t = trip_id_of r).
Proof.
  intros E. unfold process_row. rewrite E. cbv zeta.
  unfold trip_id_of, text_truthy, text_or.
  destruct (Trip_ID r) as [v|]; [destruct (str_truthy v)|];
    (eexists; split; [reflexivity|split; [reflexivity|]]);
    simpl; intros H; (reflexivity || discriminate).
Qed.

Lemma st_trips_origin (rows : list row) (st : state) (t : Trip.t) :
  In t (st_trips (fold_left (process_row rt) rows st)) ->
  In t (st_trips st)
  \/ exists r, In r (processed rows)
               /\ trip_data t = row_data r
               /\ (text_truthy (Trip_ID r) = true ->
                   Trip.id t = trip_id_of r).
Proof.
  revert st. induction rows as [|r rows IH]; intros st; simpl; [now left|].
  intros H. apply IH in H. unfold processed. simpl.
  destruct (skipped r) eqn:E; simpl.
  - rewrite process_row_skipped in H by assumption. exact H.
  - destruct H as [H|(r' & Hr' & H)].
    + destruct (process_row_made st r E) as (t0 & E0 & Hd & Hi).
      rewrite E0 in H. apply in_app_or in H. destruct H as [H|[<-|[]]].
      * now left.
      * right. exists r. auto.
    + right. exists r'. auto.
Qed.

Lemma trip_node_origin (rows : list row) (t : Trip.t) :
  In (TripNode t) (nodes (processEmissionsData rt rows)) ->
  exists r, In r (processed rows)
            /\ trip_data t = row_data r
            /\ (text_truthy (Trip_ID r) = true -> Trip.id t = trip_id_of r).
Proof.
  intros Hin. destruct (result_nodes rt rows) as (below & E & HL).
  rewrite E in Hin. apply in_app_or in Hin. destruct Hin as [Hin|Hin].
  { apply in_map_iff in Hin. destruct Hin as (d & [=] & _). }
  destruct (HL _ Hin) as (t0 & k & g & Ht0 & _ & _ & ->).
  apply st_trips_origin in Ht0. destruct Ht0 as [[]|H]. exact H.
Qed.
End Origin.

(** C10 (as the code has it). A row whose emission cell is falsy (missing,
    0, the empty string) is skipped even when its department is present:
    the result is the one obtained without the row.  A trip node whose
    emission is zero can still appear, and only in one way: the row it
    was made from (the row whose department, purpose, transport mode,
    route, emission and cost it carries, and whose trip identifier when
    the row has one) has a non-empty text in the emission cell whose
    conversion to a number is [NaN] or zero, which [|| 0] turns into 0. *)
Theorem falsy_emission_skipped :
  forall (rt : runtime) (pre post : list row) (r : row),
    truthy (Carbon_Emission r) = false ->
    processEmissionsData rt (pre ++ r :: post)
    = processEmissionsData rt (pre ++ post)
    /\ (forall t,
          In (TripNode t) (nodes (processEmissionsData rt (pre ++ r :: post))) ->
          num_truthy (Trip.emissions t) = false ->
          Trip.emissions t = Fin 0
          /\ exists r' s,
               In r' (pre ++ post)
               /\ skipped r' = false
               /\ trip_data t = row_data r'
               /\ (text_truthy (Trip_ID r') = true ->
                   Trip.id t = trip_id_of r')
               /\ Carbon_Emission r' = JStr s
               /\ s <> EmptyString /\ num_truthy (StringToNumber s) = false).
Proof.
  intros rt pre post r Hr.
  assert (Hs : skipped r = true).
  { unfold skipped. rewrite Hr. apply orb_true_r. }
  rewrite (processEmissionsData_skip rt pre post r Hs).
  split; [reflexivity|]. intros t Hin Hz.
  destruct (trip_node_origin rt _ _ Hin) as (r' & Hr' & Hd & Hi).
  assert (He : Trip.emissions t = row_emission r')
    by (unfold trip_data, row_data in Hd; congruence).
  rewrite He in *.
  unfold processed in Hr'. apply filter_In in Hr'. destruct Hr' as [Hr' Hk].
  apply negb_true_iff in Hk. pose proof Hk as Hk'. unfold skipped in Hk.
  apply orb_false_iff in Hk. destruct Hk as [_ Hk].
  apply negb_false_iff in Hk.
  destruct (row_emission_zero r' Hk Hz) as (s & Es & Hne & Hn).
  split.
  - unfold row_emission, or_zero in *. rewrite Es in *. simpl in *.
    now rewrite Hn.
  - exists r', s. repeat split; assumption.
Qed.

Lemma falsy_emission_skipped_witness :
  processEmissionsData rt0
    ([row_text_emission] ++ row_zero_emission :: [row_engineering])
  = processEmissionsData rt0 ([row_text_emission] ++ [row_engineering])
  /\ (forall t,
        In (TripNode t)
           (nodes (processEmissionsData rt0
                     ([row_text_emission] ++ row_zero_emission
                        :: [row_engineering]))) ->
        num_truthy (Trip.emissions t) = false ->
        Trip.emissions t = Fin 0
        /\ exists r' s,
             In r' ([row_text_emission] ++ [row_engineering])
             /\ skipped r' = false
             /\ trip_data t = row_data r'
             /\ (text_truthy (Trip_ID r') = true ->
                 Trip.id t = trip_id_of r')
             /\ Carbon_Emission r' = JStr s
             /\ s <> EmptyString /\ num_truthy (StringToNumber s) = false).
Proof.
  apply (@falsy_emission_skipped rt0 [row_text_emission] [row_engineering]
           row_zero_emission).
  reflexivity.
Defined.

(** C10, as stated, fails in its last part: a row with the text "N/A" in
    the emission cell is processed, and its trip node has emission 0. *)
Lemma zero_emission_trip_appears :
  truthy (Carbon_Emission row_text_emission) = true
  /\ map (fun n => (Node.id n, Node.emissions n))
         (nodes (processEmissionsData rt0 [row_text_emission]))
     = [ ("dept_Sales", Some (Fin 0));
         ("group_Sales_Customer Visit", None);
         ("trans_Sales_Customer Visit_Rail", None);
         ("route_Sales_Customer Visit_Rail_0", None);
         ("trip_T2", Some (Fin 0)) ].
Proof. split; vm_compute; reflexivity. Qed.
